(** * SpartanGoldPrime: the prime-chain proof-of-work engine

    A shallow embedding of [prime.js], [primeBlockchain.js], [primeBlock.js],
    [primeMiner.js] and [buildPrimeChains.js], and the properties of the
    engine that the design document states about them.

    Conventions of the embedding:
    - a jsbn [BigInteger] is an integer of [Z]; its methods have the
      arithmetic meaning their documentation gives them, and jsbn's own
      behaviour where the library departs from it on values the engine can
      pass: [pow] gives up on an exponent above [0xffffffff] or below 1,
      [modPow] answers 1 on the exponent 0 without reducing it; what
      [modPow] answers on a negative exponent or a modulus below 1, which
      the documentation does not cover, is a parameter ([Jsbn]);
    - a JavaScript number holding a length or a target is an integer of [Z];
    - a chain type is the string tag the code compares with [===];
    - [throw] and [process.exit()] are the [Throw] outcome of [result];
    - [n.isProbablePrime()] is the library's probabilistic test: it is a
      parameter [isProbablePrime : Z -> bool] of everything that calls it. *)

From Equations Require Import Equations.
From Equations.Prop Require Import Logic.
From Stdlib Require Import ZArith List String Bool Lia DecimalString.
From Stdlib Require ZmodInv DecimalZ.
Import ListNotations.

Local Open Scope Z_scope.

(** ** Outcomes of code that can throw *)

Inductive result (A : Type) : Type :=
| Ok (a : A)
| Throw (msg : string).
Arguments Ok {A} a.
Arguments Throw {A} msg.

Definition bind {A B : Type} (r : result A) (k : A -> result B) : result B :=
  match r with
  | Ok a => k a
  | Throw msg => Throw msg
  end.

Notation "x <- r ;; k" := (bind r (fun x => k))
  (at level 61, r at next level, right associativity).

(** ** jsbn's BigInteger, as far as the engine uses it *)

Module BigInteger.

(** [a.compareTo(b)]: negative, zero or positive. *)
Definition compareTo (a b : Z) : Z :=
  match a ?= b with
  | Lt => -1
  | Eq => 0
  | Gt => 1
  end.

Definition add (a b : Z) : Z := a + b.
Definition subtract (a b : Z) : Z := a - b.
Definition multiply (a b : Z) : Z := a * b.

(** [a.mod(m)]: the residue of [a] modulo [m], from 0 to [m - 1] for a
    positive modulus. The engine passes 4 and the odd numbers [2p + 1] and
    [2p - 1], and compares the residue modulo these with zero only. *)
Definition mod_ (a m : Z) : Z := a mod m.

(** What jsbn answers where its documentation is silent:
    [modPowOutside a e m] is the result of [a.modPow(e, m)] for a negative
    exponent [e], or for a modulus [m] below 1. Nothing is known of it: it
    is a parameter of everything that reaches [modPow], as
    [isProbablePrime] is. *)
Class Jsbn : Type := { modPowOutside : Z -> Z -> Z -> Z }.

(** [a.pow(e)]: [a] to the power [e]. jsbn's exponentiation first compares
    the exponent with [0xffffffff] and with 1: above the one or below the
    other it gives up and answers [BigInteger.ONE]. *)
Definition pow (a e : Z) : Z :=
  if (e >? 4294967295) || (e <? 1) then 1 else a ^ e.

(** [a.modPow(e, m)] for a positive exponent and modulus: [a^e mod m], by
    repeated squaring over the bits of the exponent, every intermediate
    product reduced modulo [m]. *)
Fixpoint modPow_pos (a : Z) (e : positive) (m : Z) : Z :=
  match e with
  | xH => a mod m
  | xO e' => let h := modPow_pos a e' m in (h * h) mod m
  | xI e' => let h := modPow_pos a e' m in ((h * h) mod m * a) mod m
  end.

(** [a.modPow(e, m)]. jsbn's [modPow] first takes the bit length of the
    exponent and returns 1 when there is none: on the exponent 0 it answers
    1 whatever the modulus, 1 included. *)
Definition modPow {jsbn : Jsbn} (a e m : Z) : Z :=
  match e with
  | Z0 => 1
  | Zpos e' => if 0 <? m then modPow_pos a e' m else modPowOutside a e m
  | Zneg _ => modPowOutside a e m
  end.

(** [a.toString()]: the decimal numeral. *)
Definition toString (a : Z) : string :=
  NilZero.string_of_int (Z.to_int a).

(** [a.shiftLeft(k)]. *)
Definition shiftLeft (a k : Z) : Z := Z.shiftl a k.

End BigInteger.

(** ** primeBlockchain.js: the constants *)

Module PrimeBlockchain.

Definition CUNNINGHAM_CHAIN_1 : string := "CUNNINGHAM_CHAIN_1".
Definition CUNNINGHAM_CHAIN_2 : string := "CUNNINGHAM_CHAIN_2".
Definition BITWIN_CHAIN : string := "BITWIN_CHAIN".

Definition BLOCK_HEADER_HASH_MIN : Z := BigInteger.shiftLeft 1 255.
Definition PRIME_CHAIN_BASE_TARGET : Z := 2.

End PrimeBlockchain.

(** ** prime.js *)

Module Prime.
Import BigInteger PrimeBlockchain.

Definition BI_ZERO : Z := 0.
Definition BI_ONE : Z := 1.
Definition BI_TWO : Z := 2.
Definition BI_THREE : Z := 3.
Definition BI_FOUR : Z := 4.
Definition BI_BASE_PRIMORIAL : Z := 210.

(** The result object of [findPrimeChain]. *)
Record PrimeChain : Type := mkPrimeChain {
  chainLength : Z;
  chainType : string
}.

Definition fermatPrimalityTest {jsbn : Jsbn} (n : Z) : bool :=
  if compareTo n BI_TWO =? 0 then true
  else if compareTo (modPow BI_TWO (subtract n BI_ONE) n) BI_ONE =? 0 then true
  else false.

Definition eulerLagrangePrimalityTest (p : Z) (chainType : string) : bool :=
  let pMod4 := mod_ p BI_FOUR in
  if (compareTo p BI_ZERO >? 0) && (compareTo p BI_FOUR <? 0) then true
  else if compareTo p BI_FOUR =? 0 then
    if String.eqb chainType CUNNINGHAM_CHAIN_2 then true else false
  else if String.eqb chainType CUNNINGHAM_CHAIN_1 then
    if compareTo pMod4 BI_ONE =? 0 then
      let a := add (pow BI_TWO p) BI_ONE in
      let m := add (multiply p BI_TWO) BI_ONE in
      if compareTo (mod_ a m) BI_ZERO =? 0 then true else false
    else if compareTo pMod4 BI_THREE =? 0 then
      let a := subtract (pow BI_TWO p) BI_ONE in
      let m := add (multiply p BI_TWO) BI_ONE in
      if compareTo (mod_ a m) BI_ZERO =? 0 then true else false
    else false
  else if String.eqb chainType CUNNINGHAM_CHAIN_2 then
    if compareTo pMod4 BI_ONE =? 0 then
      let a := subtract (pow BI_TWO (subtract p BI_ONE)) BI_ONE in
      let m := subtract (multiply p BI_TWO) BI_ONE in
      if compareTo (mod_ a m) BI_ZERO =? 0 then true else false
    else if compareTo pMod4 BI_THREE =? 0 then
      let a := add (pow BI_TWO (subtract p BI_ONE)) BI_ONE in
      let m := subtract (multiply p BI_TWO) BI_ONE in
      if compareTo (mod_ a m) BI_ZERO =? 0 then true else false
    else false
  else false.

Section WithProbablePrime.

Context {jsbn : Jsbn}.

(** jsbn's [n.isProbablePrime()]. *)
Variable isProbablePrime : Z -> bool.

(** The guard [!Prime.fermatPrimalityTest(n) || !n.isProbablePrime()]. *)
Definition failsPrimality (n : Z) : bool :=
  negb (fermatPrimalityTest n) || negb (isProbablePrime n).

(** The member after [n] in the loop of [findCunninghamChain]. *)
Definition nextInChain (n : Z) (chainType : string) : result Z :=
  if String.eqb chainType CUNNINGHAM_CHAIN_1 then
    Ok (add (multiply n BI_TWO) BI_ONE)
  else if String.eqb chainType CUNNINGHAM_CHAIN_2 then
    Ok (subtract (multiply n BI_TWO) BI_ONE)
  else
    Throw "Tried to test for Cunningham chain with invalid chain type.".

(** The [while] loop of [findCunninghamChain], entered with the current
    member [n] and the current [chainLength]. It goes round again only
    after the test [chainLength >= target] has failed, which is what
    bounds it. *)
Equations? chainLoop (chainType : string) (target n chainLength : Z) : result Z
  by wf (Z.to_nat (target - chainLength)) lt :=
chainLoop chainType target n chainLength
  with eulerLagrangePrimalityTest n chainType := {
  | false => Ok chainLength
  | true with nextInChain n chainType := {
    | Throw msg => Throw msg
    | Ok n' with failsPrimality n' := {
      | true => Ok (chainLength + 1 - 1)
      | false with inspect (chainLength + 1 >=? target) := {
        | exist _ true met => Ok (chainLength + 1)
        | exist _ false again =>
          chainLoop chainType target n' (chainLength + 1) } } } }.
Proof.
  rewrite Z.geb_leb in again. apply Z.leb_gt in again. lia.
Qed.

Definition findCunninghamChain (n : Z) (chainType : string) (target : Z)
  : result Z :=
  let chainLength := 1 in
  if failsPrimality n then Ok 0
  else if chainLength >=? target then Ok chainLength
  else chainLoop chainType target n chainLength.

Definition findPrimeChain (origin target : Z) : result PrimeChain :=
  let first := subtract origin BI_ONE in
  let second := add origin BI_ONE in
  firstChainLength <- findCunninghamChain first CUNNINGHAM_CHAIN_1 target ;;
  secondChainLength <- findCunninghamChain second CUNNINGHAM_CHAIN_2 target ;;
  let bitwinChainLength :=
    if firstChainLength >? secondChainLength
    then secondChainLength * 2 + 1
    else firstChainLength * 2 in
  if (firstChainLength >=? secondChainLength)
     && (firstChainLength >=? bitwinChainLength) then
    Ok (mkPrimeChain firstChainLength CUNNINGHAM_CHAIN_1)
  else if (secondChainLength >=? firstChainLength)
          && (secondChainLength >=? bitwinChainLength) then
    Ok (mkPrimeChain secondChainLength CUNNINGHAM_CHAIN_2)
  else
    Ok (mkPrimeChain bitwinChainLength BITWIN_CHAIN).

End WithProbablePrime.

End Prime.

(** ** primeBlock.js *)

Module PrimeBlock.
Import BigInteger PrimeBlockchain Prime.

(** The fields the parent class [Block] of spartan-gold gives a block. *)
Record Block : Type := mkBlock {
  chainLength : Z;
  timestamp : Z;
  balances : list (string * Z);
  transactions : list (string * string);
  prevBlockHash : string;
  rewardAddr : string;
  target : Z
}.

Record PrimeBlock : Type := mkPrimeBlock {
  super : Block;
  primeNonce : Z;
  primeMultiplier : Z;
  primeChainLength : Z;
  primeChainType : string
}.

(** The object [o] that [hashHeader] serializes and hashes: no field of the
    proof but the nonce is in it. *)
Inductive HeaderObject : Type :=
| GenesisHeader (chainLength timestamp : Z) (balances : list (string * Z))
| BlockHeader (chainLength timestamp : Z)
    (transactions : list (string * string)) (prevBlockHash : string)
    (primeNonce : Z) (rewardAddr : string).

(** [constructor]: the parent's fields come from [super(...)]. *)
Definition constructor (base : Block) : PrimeBlock :=
  {| super := base;
     primeNonce := 0;
     primeMultiplier := BI_TWO;
     primeChainLength := 0;
     primeChainType := "" |}.

(** [Block.isGenesisBlock] of spartan-gold. *)
Definition isGenesisBlock (b : PrimeBlock) : bool :=
  chainLength (super b) =? 0.

(** [Math.ceil(target / 2)] and [Math.floor(target / 2)] on an integer. *)
Definition Math_ceil_half (t : Z) : Z := (t + 1) / 2.
Definition Math_floor_half (t : Z) : Z := t / 2.

Section WithHash.

(** [new BigInteger(utils.hash(JSON.stringify(o)), 16)]: the digest of
    the serialized object, read as a number. *)
Context {jsbn : Jsbn}.
Variable hash : HeaderObject -> Z.
Variable isProbablePrime : Z -> bool.

Definition hashHeader (b : PrimeBlock) : Z :=
  if isGenesisBlock b then
    hash (GenesisHeader (chainLength (super b)) (timestamp (super b))
            (balances (super b)))
  else
    hash (BlockHeader (chainLength (super b)) (timestamp (super b))
            (transactions (super b)) (prevBlockHash (super b))
            (primeNonce b) (rewardAddr (super b))).

Definition hasValidProof (b : PrimeBlock) : result bool :=
  let blockHeaderHash := hashHeader b in
  if compareTo blockHeaderHash BLOCK_HEADER_HASH_MIN <? 0 then Ok false
  else if primeChainLength b <? target (super b) then Ok false
  else if compareTo (primeMultiplier b) BI_TWO <? 0 then Ok false
  else
    let origin := multiply blockHeaderHash (primeMultiplier b) in
    if String.eqb (primeChainType b) CUNNINGHAM_CHAIN_1 then
      let n := subtract origin BI_ONE in
      testLength <- findCunninghamChain isProbablePrime n
                      CUNNINGHAM_CHAIN_1 (target (super b)) ;;
      if testLength <? target (super b) then Ok false else Ok true
    else if String.eqb (primeChainType b) CUNNINGHAM_CHAIN_2 then
      let n := add origin BI_ONE in
      testLength <- findCunninghamChain isProbablePrime n
                      CUNNINGHAM_CHAIN_2 (target (super b)) ;;
      if testLength <? target (super b) then Ok false else Ok true
    else if String.eqb (primeChainType b) BITWIN_CHAIN then
      let first := subtract origin BI_ONE in
      let second := add origin BI_ONE in
      firstLength <- findCunninghamChain isProbablePrime first
                       CUNNINGHAM_CHAIN_1
                       (Math_ceil_half (target (super b))) ;;
      secondLength <- findCunninghamChain isProbablePrime second
                        CUNNINGHAM_CHAIN_2
                        (Math_floor_half (target (super b))) ;;
      if firstLength + secondLength <? target (super b) then Ok false
      else Ok true
    else Ok false.

End WithHash.

(** The object [toJSON] returns: a genesis block gives its balances, any
    other block its transactions, its parent's hash, its proof and its
    reward address. *)
Inductive BlockJSON : Type :=
| GenesisJSON (chainLength timestamp : Z) (balances : list (string * Z))
| ProofJSON (chainLength timestamp : Z)
    (transactions : list (string * string)) (prevBlockHash : string)
    (primeNonce : Z) (primeMultiplier : string) (primeChainLength : Z)
    (primeChainType : string) (rewardAddr : string).

Definition toJSON (b : PrimeBlock) : BlockJSON :=
  if isGenesisBlock b then
    GenesisJSON (chainLength (super b)) (timestamp (super b))
      (balances (super b))
  else
    ProofJSON (chainLength (super b)) (timestamp (super b))
      (transactions (super b)) (prevBlockHash (super b))
      (primeNonce b) (toString (primeMultiplier b))
      (primeChainLength b) (primeChainType b) (rewardAddr (super b)).

Section WithBlockHash.

(** [utils.hash] on the JSON text of a whole block. *)
Variable hashJSON : BlockJSON -> Z.

(** [hashVal]: [utils.hash(this.serialize())], where [serialize] is
    [JSON.stringify(this)], which writes the object of [toJSON]. *)
Definition hashVal (b : PrimeBlock) : Z := hashJSON (toJSON b).

End WithBlockHash.

End PrimeBlock.

(** ** primeMiner.js: the search of [findProof] *)

Module PrimeMiner.
Import BigInteger PrimeBlockchain Prime PrimeBlock.

Definition setNonce (b : PrimeBlock) (nonce : Z) : PrimeBlock :=
  {| super := super b;
     primeNonce := nonce;
     primeMultiplier := primeMultiplier b;
     primeChainLength := primeChainLength b;
     primeChainType := primeChainType b |}.

Definition setMultiplier (b : PrimeBlock) (m : Z) : PrimeBlock :=
  {| super := super b;
     primeNonce := primeNonce b;
     primeMultiplier := m;
     primeChainLength := primeChainLength b;
     primeChainType := primeChainType b |}.

Definition setProof (b : PrimeBlock) (m : Z) (found : PrimeChain)
  : PrimeBlock :=
  {| super := super b;
     primeNonce := primeNonce b;
     primeMultiplier := m;
     primeChainLength := Prime.chainLength found;
     primeChainType := Prime.chainType found |}.

(** What one turn of a loop of [findProof] did to [currentBlock]. *)
Inductive Round : Type :=
| Found (b : PrimeBlock)
| Retry (b : PrimeBlock).

Section WithHash.

Context {jsbn : Jsbn}.
Variable hash : HeaderObject -> Z.
Variable isProbablePrime : Z -> bool.

(** The first loop: while the header hash is below the minimum, the nonce
    goes up by one. [None] when the loop is over. *)
Definition nonceStep (b : PrimeBlock) : option PrimeBlock :=
  if compareTo (hashHeader hash b) BLOCK_HEADER_HASH_MIN <? 0
  then Some (setNonce b (primeNonce b + 1))
  else None.

(** The body of the second loop, with the header hash found by the
    first. *)
Definition searchRound (blockHeaderHash : Z) (b : PrimeBlock)
  : result Round :=
  let multiplier := multiply BI_BASE_PRIMORIAL (primeMultiplier b) in
  found <- findPrimeChain isProbablePrime
             (multiply blockHeaderHash multiplier) (target (super b)) ;;
  if Prime.chainLength found >=? target (super b) then
    Ok (Found (setProof b multiplier found))
  else
    Ok (Retry (setMultiplier b (add (primeMultiplier b) BI_ONE))).

(** The second loop, [miningRounds - roundsDone] turns at most; it stops
    at the first proof. *)
Fixpoint searchRounds (roundsLeft : nat) (blockHeaderHash : Z)
  (b : PrimeBlock) : result Round :=
  match roundsLeft with
  | O => Ok (Retry b)
  | S roundsLeft' =>
    r <- searchRound blockHeaderHash b ;;
    match r with
    | Found b' => Ok (Found b')
    | Retry b' => searchRounds roundsLeft' blockHeaderHash b'
    end
  end.

(** The states [currentBlock] goes through: a block fresh from the
    constructor ([startNewSearch], at the start, after a proof and when
    another miner's block arrives), then the turns of the two loops. *)
Inductive reachable : PrimeBlock -> Prop :=
| reach_new (base : Block) :
    reachable (constructor base)
| reach_nonce (b b' : PrimeBlock) :
    reachable b -> nonceStep b = Some b' -> reachable b'
| reach_found (b b' : PrimeBlock) :
    reachable b -> nonceStep b = None ->
    searchRound (hashHeader hash b) b = Ok (Found b') -> reachable b'
| reach_retry (b b' : PrimeBlock) :
    reachable b -> nonceStep b = None ->
    searchRound (hashHeader hash b) b = Ok (Retry b') -> reachable b'.

(** The first loop of [findProof] run to its end: the block it leaves, or
    [None] when it is still going after [fuel] turns (the loop has no bound
    of its own). *)
Fixpoint nonceLoop (fuel : nat) (b : PrimeBlock) : option PrimeBlock :=
  match nonceStep b with
  | None => Some b
  | Some b' =>
    match fuel with
    | O => None
    | S fuel' => nonceLoop fuel' b'
    end
  end.

(** One call of [findProof]: the nonce loop, then [miningRounds] turns of the
    multiplier loop with the header hash the nonce loop ended on. [Found b]
    is the block it announces, [Retry b] the block the next call resumes
    from. *)
Definition findProof (fuel miningRounds : nat) (b : PrimeBlock)
  : option (result Round) :=
  match nonceLoop fuel b with
  | None => None
  | Some b0 => Some (searchRounds miningRounds (hashHeader hash b0) b0)
  end.

End WithHash.

End PrimeMiner.

(** ** buildPrimeChains.js *)

Module BuildPrimeChains.
Import BigInteger PrimeBlockchain Prime.

(** [primeChain.push(s)]. *)
Definition push (primeChain : list string) (s : string) : list string :=
  primeChain ++ [s].

(** [primeChain.join(",")]. *)
Definition join (primeChain : list string) : string :=
  String.concat "," primeChain.

(** [for (let i = 1; i < chainLength; i++)] of the first kind, entered at
    [i] with the current [origin] and [primeChain]. *)
Equations? firstLoop (chainLength i origin : Z) (primeChain : list string)
  : list string by wf (Z.to_nat (chainLength - i)) lt :=
firstLoop chainLength i origin primeChain
  with inspect (i <? chainLength) := {
  | exist _ false done => primeChain
  | exist _ true again =>
    let origin' := add (multiply origin BI_TWO) BI_ONE in
    firstLoop chainLength (i + 1) origin'
      (push primeChain (toString origin')) }.
Proof.
  apply Z.ltb_lt in again. lia.
Qed.

(** The same loop of the second kind. *)
Equations? secondLoop (chainLength i origin : Z) (primeChain : list string)
  : list string by wf (Z.to_nat (chainLength - i)) lt :=
secondLoop chainLength i origin primeChain
  with inspect (i <? chainLength) := {
  | exist _ false done => primeChain
  | exist _ true again =>
    let origin' := subtract (multiply origin BI_TWO) BI_ONE in
    secondLoop chainLength (i + 1) origin'
      (push primeChain (toString origin')) }.
Proof.
  apply Z.ltb_lt in again. lia.
Qed.

(** [for (let i = 2; i < chainLength; i += 2)] of the bi-twin chain. *)
Equations? bitwinLoop (chainLength i first second : Z)
  (primeChain : list string)
  : list string by wf (Z.to_nat (chainLength - i)) lt :=
bitwinLoop chainLength i first second primeChain
  with inspect (i <? chainLength) := {
  | exist _ false done => primeChain
  | exist _ true again =>
    let first1 := add (multiply first BI_TWO) BI_ONE in
    let primeChain1 := push primeChain (toString first1) in
    let second1 := subtract (multiply second BI_TWO) BI_ONE in
    let primeChain2 := push primeChain1 (toString second1) in
    if i + 1 =? chainLength then
      let first2 := add (multiply first1 BI_TWO) BI_ONE in
      bitwinLoop chainLength (i + 2) first2 second1
        (push primeChain2 (toString first2))
    else
      bitwinLoop chainLength (i + 2) first1 second1 primeChain2 }.
Proof.
  all: apply Z.ltb_lt in again; lia.
Qed.

(** The array [primeChain] that [buildChain] has when it returns;
    [process.exit()] after [console.error] is [Throw]. *)
Definition buildChainArray (origin chainLength : Z) (chainType : string)
  : result (list string) :=
  let primeChain := [] in
  if chainLength <? 1 then
    Throw "Invalid chain, chain length less than 1"
  else if String.eqb chainType CUNNINGHAM_CHAIN_1 then
    let origin := subtract origin BI_ONE in
    let primeChain := push primeChain (toString origin) in
    Ok (firstLoop chainLength 1 origin primeChain)
  else if String.eqb chainType CUNNINGHAM_CHAIN_2 then
    let origin := add origin BI_ONE in
    let primeChain := push primeChain (toString origin) in
    Ok (secondLoop chainLength 1 origin primeChain)
  else if String.eqb chainType BITWIN_CHAIN then
    let first := subtract origin BI_ONE in
    let primeChain := push primeChain (toString first) in
    let second := add origin BI_ONE in
    let primeChain := push primeChain (toString second) in
    Ok (bitwinLoop chainLength 2 first second primeChain)
  else
    Throw "Invalid chain type found".

Definition buildChain (origin chainLength : Z) (chainType : string)
  : result string :=
  primeChain <- buildChainArray origin chainLength chainType ;;
  Ok (join primeChain).

End BuildPrimeChains.

(** ** The reference definitions of the design document

    Sections 4.1 to 4.3 of the design document, written down as they are
    worded there, to be compared with [Prime] above. The chain type is the
    two-valued kind the document allows in these sections. Section 4.3 calls
    the two tests of 4.1 and 4.2 by name and does not look into them: its
    procedure is written over any two tests ([findChainWith]), and
    [findChain] is the procedure with the tests of the document. *)

Module Reference.

Inductive Kind : Type := First | Second.

(** The string tag the code uses for a kind. *)
Definition tag (k : Kind) : string :=
  match k with
  | First => PrimeBlockchain.CUNNINGHAM_CHAIN_1
  | Second => PrimeBlockchain.CUNNINGHAM_CHAIN_2
  end.

(** 4.1: true iff n = 2, or 2^(n-1) mod n = 1. *)
Definition fermatTest (n : Z) : bool :=
  (n =? 2) || (2 ^ (n - 1) mod n =? 1).

(** 4.2, case by case. *)
Definition ChainCriterion (p : Z) (k : Kind) : bool :=
  if (0 <? p) && (p <? 4) then true
  else if p =? 4 then
    match k with Second => true | First => false end
  else
    let r := p mod 4 in
    match k with
    | First =>
      if r =? 1 then (2 ^ p + 1) mod (2 * p + 1) =? 0
      else if r =? 3 then (2 ^ p - 1) mod (2 * p + 1) =? 0
      else false
    | Second =>
      if r =? 1 then (2 ^ (p - 1) - 1) mod (2 * p - 1) =? 0
      else if r =? 3 then (2 ^ (p - 1) + 1) mod (2 * p - 1) =? 0
      else false
    end.

(** 4.1: accepted only when both tests pass; [strongerTest] is the stronger
    probable-primality test of 4.1. *)
Definition PrimalityTester (strongerTest : Z -> bool) (n : Z) : bool :=
  fermatTest n && strongerTest n.

(** 4.3, step 3a. *)
Definition step (n : Z) (k : Kind) : Z :=
  match k with
  | First => 2 * n + 1
  | Second => 2 * n - 1
  end.

Section Procedure.

(** The tests section 4.3 calls PrimalityTester and ChainCriterion. *)
Variable tester : Z -> bool.
Variable criterion : Z -> Kind -> bool.

(** 4.3, step 3: the loop, from the current [n] and [chainLength]. *)
Equations? extendWith (k : Kind) (target n chainLength : Z) : Z
  by wf (Z.to_nat (target - chainLength)) lt :=
extendWith k target n chainLength with criterion n k := {
  | false => chainLength
  | true with tester (step n k) := {
    | false => chainLength
    | true with inspect (target <=? chainLength + 1) := {
      | exist _ true met => chainLength + 1
      | exist _ false more =>
        extendWith k target (step n k) (chainLength + 1) } } }.
Proof.
  apply Z.leb_gt in more. lia.
Qed.

(** 4.3, steps 1, 2 and 4. *)
Definition findChainWith (n : Z) (k : Kind) (target : Z) : Z :=
  if negb (tester n) then 0
  else if target <=? 1 then 1
  else extendWith k target n 1.

End Procedure.

(** Section 4.3 with the tests of sections 4.1 and 4.2. *)
Definition findChain (strongerTest : Z -> bool) (n : Z) (k : Kind)
  (target : Z) : Z :=
  findChainWith (PrimalityTester strongerTest) ChainCriterion n k target.

(** Section 6: the members of a chain of [count] numbers from [n], each
    the step of the one before. *)
Fixpoint members (k : Kind) (n : Z) (count : nat) : list Z :=
  match count with
  | O => []
  | S count' => n :: members k (step n k) count'
  end.

End Reference.

(** ** A deterministic test for closed examples

    Trial division: a test that accepts exactly the primes, to stand for
    [isProbablePrime] where an example has to run. *)

Definition trialDivision (n : Z) : bool :=
  (1 <? n)
  && forallb (fun d => negb (n mod d =? 0))
       (map Z.of_nat (seq 2 (Z.to_nat n - 2))).

(** A test never rejects a prime. *)
Definition complete (isProbablePrime : Z -> bool) : Prop :=
  forall p : Z, Z.prime p -> isProbablePrime p = true.

(** A test that accepts every number, for examples on numbers too large for
    trial division. *)
Definition acceptAll (n : Z) : bool := true.

(** Trial division up to the square root, for the primes of 33 bits the
    examples need: [noDivisorFrom fuel d n] tries [d], [d + 1], ... while
    their square is at most [n]. *)
Fixpoint noDivisorFrom (fuel : nat) (d n : Z) : bool :=
  match fuel with
  | O => true
  | S fuel' =>
    if d * d >? n then true
    else if n mod d =? 0 then false
    else noDivisorFrom fuel' (d + 1) n
  end.

Definition trialDivisionRoot (n : Z) : bool :=
  (1 <? n) && noDivisorFrom (Z.to_nat (Z.sqrt n)) 2 n.

(** The two tests [findCunninghamChain] calls where section 4.3 says
    PrimalityTester and ChainCriterion: the pair of primality tests of the
    code, and its criterion by kind. *)
Definition passesPrimality {jsbn : BigInteger.Jsbn}
  (isProbablePrime : Z -> bool) (n : Z) : bool :=
  negb (Prime.failsPrimality isProbablePrime n).

Definition criterionOf (p : Z) (k : Reference.Kind) : bool :=
  Prime.eulerLagrangePrimalityTest p (Reference.tag k).

(** The parameter of the closed examples. They are all on positive numbers,
    where [modPow] never consults it. *)
Definition sampleJsbn : BigInteger.Jsbn :=
  {| BigInteger.modPowOutside := fun _ _ _ => 0 |}.

(** A hash for the nonce loop: the digest is below the minimum until the
    nonce reaches 2. *)
Definition nonceHash (o : PrimeBlock.HeaderObject) : Z :=
  match o with
  | PrimeBlock.GenesisHeader _ _ _ => 0
  | PrimeBlock.BlockHeader _ _ _ _ primeNonce _ =>
    if primeNonce <? 2 then 5 else 2 ^ 255 + 149
  end.

(** A hash for closed examples: every header has the digest 2^255 + 149,
    which doubled and less one is prime. *)
Definition sampleHash (o : PrimeBlock.HeaderObject) : Z := 2 ^ 255 + 149.

Definition sampleBase : PrimeBlock.Block :=
  {| PrimeBlock.chainLength := 1;
     PrimeBlock.timestamp := 0;
     PrimeBlock.balances := [];
     PrimeBlock.transactions := [];
     PrimeBlock.prevBlockHash := "";
     PrimeBlock.rewardAddr := "";
     PrimeBlock.target := 1 |}.

(** A block with a proof of the first kind, of length 1, multiplier 2. *)
Definition sampleBlock : PrimeBlock.PrimeBlock :=
  {| PrimeBlock.super := sampleBase;
     PrimeBlock.primeNonce := 0;
     PrimeBlock.primeMultiplier := 2;
     PrimeBlock.primeChainLength := 1;
     PrimeBlock.primeChainType := PrimeBlockchain.CUNNINGHAM_CHAIN_1 |}.

(** A block in the middle of a search: fresh from the constructor but for
    its multiplier, 24, at which the origin less one is prime. *)
Definition sampleSearch : PrimeBlock.PrimeBlock :=
  PrimeMiner.setMultiplier (PrimeBlock.constructor sampleBase) 24.

(** The block [b] with another target, as a verifier configured with
    another difficulty sees it, and with another claimed chain length. *)
Definition withTarget (b : PrimeBlock.PrimeBlock) (t : Z)
  : PrimeBlock.PrimeBlock :=
  {| PrimeBlock.super :=
       {| PrimeBlock.chainLength := PrimeBlock.chainLength (PrimeBlock.super b);
          PrimeBlock.timestamp := PrimeBlock.timestamp (PrimeBlock.super b);
          PrimeBlock.balances := PrimeBlock.balances (PrimeBlock.super b);
          PrimeBlock.transactions :=
            PrimeBlock.transactions (PrimeBlock.super b);
          PrimeBlock.prevBlockHash :=
            PrimeBlock.prevBlockHash (PrimeBlock.super b);
          PrimeBlock.rewardAddr := PrimeBlock.rewardAddr (PrimeBlock.super b);
          PrimeBlock.target := t |};
     PrimeBlock.primeNonce := PrimeBlock.primeNonce b;
     PrimeBlock.primeMultiplier := PrimeBlock.primeMultiplier b;
     PrimeBlock.primeChainLength := PrimeBlock.primeChainLength b;
     PrimeBlock.primeChainType := PrimeBlock.primeChainType b |}.

Definition withChainLength (b : PrimeBlock.PrimeBlock) (len : Z)
  : PrimeBlock.PrimeBlock :=
  {| PrimeBlock.super := PrimeBlock.super b;
     PrimeBlock.primeNonce := PrimeBlock.primeNonce b;
     PrimeBlock.primeMultiplier := PrimeBlock.primeMultiplier b;
     PrimeBlock.primeChainLength := len;
     PrimeBlock.primeChainType := PrimeBlock.primeChainType b |}.

(** The member [i] steps after [n] in a chain of kind [k]. *)
Definition memberAt (k : Reference.Kind) (n : Z) (i : nat) : Z :=
  Nat.iter i (fun m => Reference.step m k) n.

(** The number at place [j] of the bi-twin chain around [origin]: the places
    2i and 2i+1 hold the twins 2^i * origin - 1 and 2^i * origin + 1. *)
Definition twinMember (origin : Z) (j : nat) : Z :=
  2 ^ Z.of_nat (j / 2) * origin + (if Nat.even j then -1 else 1).

(** How many numbers the bi-twin branch of [buildChain] writes when asked
    for [len]. *)
Definition bitwinWritten (len : Z) : Z :=
  if Z.even len then len else if len =? 1 then 2 else len + 2.

(** The object [hashHeader] hashes, read off the object [toJSON] returns:
    the same fields in the same order, without the multiplier, the chain
    length and the chain type. *)
Definition headerOf (o : PrimeBlock.BlockJSON) : PrimeBlock.HeaderObject :=
  match o with
  | PrimeBlock.GenesisJSON chainLength timestamp balances =>
    PrimeBlock.GenesisHeader chainLength timestamp balances
  | PrimeBlock.ProofJSON chainLength timestamp transactions prevBlockHash
      primeNonce _ _ _ rewardAddr =>
    PrimeBlock.BlockHeader chainLength timestamp transactions prevBlockHash
      primeNonce rewardAddr
  end.

(** The selector finds no chain of the target length at the multiplier [j]
    above the block's: the turn of the miner's loop there goes on. *)
Definition noProofAt {jsbn : BigInteger.Jsbn}
  (isProbablePrime : Z -> bool) (blockHeaderHash : Z)
  (b : PrimeBlock.PrimeBlock) (j : nat) : Prop :=
  exists found,
    Prime.findPrimeChain isProbablePrime
      (blockHeaderHash
       * (210 * (PrimeBlock.primeMultiplier b + Z.of_nat j)))
      (PrimeBlock.target (PrimeBlock.super b)) = Ok found
    /\ Prime.chainLength found < PrimeBlock.target (PrimeBlock.super b).

(** * Properties *)

Import BigInteger PrimeBlockchain Prime BuildPrimeChains.

(** After [funelim], every goal is the result of one path through the
    function and carries the outcome of each test on that path: rewriting
    with them turns the other side of an unfolding equation into that
    result. *)
Ltac follow_path :=
  repeat match goal with
         | H : ?a = ?b |- context [?a] =>
           lazymatch b with
           | true => idtac
           | false => idtac
           | Ok _ => idtac
           | Throw _ => idtac
           end;
           rewrite H
         end;
  reflexivity.

(** The comparison of two chain-type tags that are both known. *)
Ltac decide_tags :=
  repeat match goal with
         | |- context [String.eqb ?a ?b] =>
           let v := eval vm_compute in (String.eqb a b) in
           lazymatch v with
           | true => change (String.eqb a b) with true
           | false => change (String.eqb a b) with false
           end
         end;
  cbv iota.

Section Engine.

(** Everything below holds whatever [modPow] answers outside its domain. *)
Context {jsbn : Jsbn}.

(** ** The BigInteger methods *)

Lemma compareTo_eq0 (a b : Z) : (compareTo a b =? 0) = (a =? b).
Proof.
  unfold compareTo. rewrite (Z.eqb_compare a b).
  now destruct (a ?= b).
Qed.

Lemma compareTo_lt0 (a b : Z) : (compareTo a b <? 0) = (a <? b).
Proof.
  unfold compareTo, Z.ltb at 2.
  now destruct (a ?= b).
Qed.

Lemma compareTo_gt0 (a b : Z) : (compareTo a b >? 0) = (a >? b).
Proof.
  unfold compareTo, Z.gtb at 2.
  now destruct (a ?= b).
Qed.

Lemma geb_false (a t : Z) : a < t -> (a >=? t) = false.
Proof. intros H. rewrite Z.geb_leb. apply Z.leb_gt. exact H. Qed.

Lemma geb_true (a t : Z) : t <= a -> (a >=? t) = true.
Proof. intros H. rewrite Z.geb_leb. apply Z.leb_le. exact H. Qed.

Lemma modPow_pos_spec (a : Z) (e : positive) (m : Z) :
  modPow_pos a e m = a ^ Zpos e mod m.
Proof.
  induction e as [e IH | e IH | ]; cbn [modPow_pos].
  - rewrite IH, Pos2Z.inj_xI.
    replace (2 * Zpos e + 1) with (Zpos e + Zpos e + 1) by lia.
    rewrite !Z.pow_add_r, Z.pow_1_r by lia.
    rewrite <- Zmult_mod. now rewrite Zmult_mod_idemp_l.
  - rewrite IH, Pos2Z.inj_xO.
    replace (2 * Zpos e) with (Zpos e + Zpos e) by lia.
    rewrite Z.pow_add_r by lia. now rewrite <- Zmult_mod.
  - now rewrite Z.pow_1_r.
Qed.

Lemma modPow_spec (a e m : Z) :
  0 < e -> 0 < m -> modPow a e m = a ^ e mod m.
Proof.
  intros He Hm. destruct e as [ | e | e]; try lia. cbn [modPow].
  apply Z.ltb_lt in Hm. rewrite Hm. apply modPow_pos_spec.
Qed.

(** Up to a 32-bit exponent [pow] is the power; beyond, and below 1, it is
    1. *)
Lemma pow_exact (a e : Z) : 1 <= e <= 4294967295 -> pow a e = a ^ e.
Proof.
  intros He. unfold pow.
  destruct (Z.gtb_spec e 4294967295); [lia | ].
  destruct (Z.ltb_spec e 1); [lia | reflexivity].
Qed.

Lemma pow_gives_up (a e : Z) : e < 1 \/ 4294967295 < e -> pow a e = 1.
Proof.
  intros He. unfold pow.
  destruct (Z.gtb_spec e 4294967295); [reflexivity | ].
  destruct (Z.ltb_spec e 1); [reflexivity | lia].
Qed.

(** ** The two tests of [prime.js] against sections 4.1 and 4.2 *)

(** From 2 on the Fermat test of the code is the test of section 4.1. *)
Lemma fermat_reference (n : Z) :
  2 <= n -> fermatPrimalityTest n = Reference.fermatTest n.
Proof.
  intros Hn.
  unfold fermatPrimalityTest, Reference.fermatTest, BI_TWO, BI_ONE, subtract.
  rewrite !compareTo_eq0.
  destruct (Z.eqb_spec n 2) as [E | N]; [reflexivity | ].
  rewrite modPow_spec by lia.
  now destruct (2 ^ (n - 1) mod n =? 1).
Qed.

(** The criterion of the code without the BigInteger wrapping. *)
Lemma eulerLagrange_unfold (p : Z) (k : Reference.Kind) :
  eulerLagrangePrimalityTest p (Reference.tag k)
  = if (0 <? p) && (p <? 4) then true
    else if p =? 4 then
      match k with Reference.Second => true | Reference.First => false end
    else
      match k with
      | Reference.First =>
        if p mod 4 =? 1 then (pow 2 p + 1) mod (2 * p + 1) =? 0
        else if p mod 4 =? 3 then (pow 2 p - 1) mod (2 * p + 1) =? 0
        else false
      | Reference.Second =>
        if p mod 4 =? 1 then (pow 2 (p - 1) - 1) mod (2 * p - 1) =? 0
        else if p mod 4 =? 3 then (pow 2 (p - 1) + 1) mod (2 * p - 1) =? 0
        else false
      end.
Proof.
  unfold eulerLagrangePrimalityTest.
  unfold BI_ZERO, BI_ONE, BI_TWO, BI_THREE, BI_FOUR, mod_, add, subtract,
    multiply.
  rewrite !compareTo_eq0, compareTo_gt0, compareTo_lt0.
  rewrite Z.gtb_ltb.
  replace (p * 2) with (2 * p) by lia.
  destruct ((0 <? p) && (p <? 4)); [reflexivity | ].
  destruct (p =? 4); [now destruct k | ].
  destruct k; cbn [Reference.tag String.eqb];
    change (String.eqb CUNNINGHAM_CHAIN_1 CUNNINGHAM_CHAIN_1) with true;
    change (String.eqb CUNNINGHAM_CHAIN_2 CUNNINGHAM_CHAIN_1) with false;
    change (String.eqb CUNNINGHAM_CHAIN_2 CUNNINGHAM_CHAIN_2) with true;
    cbv iota;
    destruct (p mod 4 =? 1); try (now destruct (_ mod _ =? 0));
    destruct (p mod 4 =? 3); try (now destruct (_ mod _ =? 0));
    reflexivity.
Qed.

(** Up to [0xffffffff] the criterion of the code is the criterion of
    section 4.2. *)
Lemma eulerLagrange_reference (p : Z) (k : Reference.Kind) :
  0 < p <= 4294967295 ->
  eulerLagrangePrimalityTest p (Reference.tag k) = Reference.ChainCriterion p k.
Proof.
  intros Hp. rewrite eulerLagrange_unfold. unfold Reference.ChainCriterion.
  destruct ((0 <? p) && (p <? 4)) eqn:Small; [reflexivity | ].
  destruct (Z.eqb_spec p 4) as [E4 | N4]; [reflexivity | ].
  assert (H4 : 4 < p).
  { apply andb_false_iff in Small. rewrite Z.ltb_ge in Small.
    destruct Small as [Small | Small]; [ | lia].
    apply Z.ltb_ge in Small. lia. }
  cbv zeta. rewrite !pow_exact by lia. reflexivity.
Qed.

(** Above it [pow] has given up, and the criterion of the code is a test of
    [p mod 4] alone. *)
Lemma eulerLagrange_beyond (p : Z) :
  (4294967295 < p ->
   eulerLagrangePrimalityTest p CUNNINGHAM_CHAIN_1 = (p mod 4 =? 3))
  /\ (4294967296 < p ->
      eulerLagrangePrimalityTest p CUNNINGHAM_CHAIN_2 = (p mod 4 =? 1)).
Proof.
  split; intros Hp.
  - change CUNNINGHAM_CHAIN_1 with (Reference.tag Reference.First).
    rewrite eulerLagrange_unfold.
    destruct (Z.ltb_spec p 4); [lia | ]. rewrite andb_false_r.
    destruct (Z.eqb_spec p 4); [lia | ].
    rewrite pow_gives_up by lia.
    change (1 + 1) with 2. change (1 - 1) with 0.
    rewrite Z.mod_0_l by lia. rewrite (Z.mod_small 2) by lia.
    destruct (Z.eqb_spec (p mod 4) 1) as [R1 | R1].
    + rewrite R1. reflexivity.
    + now destruct (p mod 4 =? 3).
  - change CUNNINGHAM_CHAIN_2 with (Reference.tag Reference.Second).
    rewrite eulerLagrange_unfold.
    destruct (Z.ltb_spec p 4); [lia | ]. rewrite andb_false_r.
    destruct (Z.eqb_spec p 4); [lia | ].
    rewrite pow_gives_up by lia.
    change (1 + 1) with 2. change (1 - 1) with 0.
    rewrite Z.mod_0_l by lia. rewrite (Z.mod_small 2) by lia.
    destruct (Z.eqb_spec (p mod 4) 1) as [R1 | R1]; [reflexivity | ].
    now destruct (p mod 4 =? 3).
Qed.

Lemma tag_cases (chainType : string) :
  chainType = CUNNINGHAM_CHAIN_1 \/ chainType = CUNNINGHAM_CHAIN_2 ->
  exists k, chainType = Reference.tag k.
Proof.
  intros [-> | ->]; [now exists Reference.First | now exists Reference.Second].
Qed.

Lemma criterion_above_4 (p : Z) (k : Reference.Kind) :
  4 < p ->
  Reference.ChainCriterion p k =
  match k with
  | Reference.First =>
    if p mod 4 =? 1 then (2 ^ p + 1) mod (2 * p + 1) =? 0
    else if p mod 4 =? 3 then (2 ^ p - 1) mod (2 * p + 1) =? 0
    else false
  | Reference.Second =>
    if p mod 4 =? 1 then (2 ^ (p - 1) - 1) mod (2 * p - 1) =? 0
    else if p mod 4 =? 3 then (2 ^ (p - 1) + 1) mod (2 * p - 1) =? 0
    else false
  end.
Proof.
  intros H4. unfold Reference.ChainCriterion.
  assert (E : (0 <? p) && (p <? 4) = false)
    by (apply andb_false_iff; right; apply Z.ltb_ge; lia).
  assert (E4 : (p =? 4) = false) by (apply Z.eqb_neq; lia).
  now rewrite E, E4.
Qed.

(** A congruence [a = 1] read off a power computed by squaring. *)
Lemma power_residue (e : positive) (m : Z) :
  1 < m -> (2 ^ Zpos e - 1) mod m = 0 -> modPow_pos 2 e m = 1.
Proof.
  intros Hm H. rewrite modPow_pos_spec.
  apply Z.mod_divide in H; [ | lia]. destruct H as [c Hc].
  replace (2 ^ Zpos e) with (1 + c * m) by lia.
  rewrite Z.mod_add by lia. apply Z.mod_small. lia.
Qed.

(** C7, where the code departs from it. From 2 on, [fermatPrimalityTest n]
    is true exactly when [n = 2] or [2^(n-1) mod n = 1]; it accepts 2 and 97
    and rejects 4. At 1 it answers true although [2^0 mod 1] is 0, not 1:
    [modPow] returns 1 for the exponent 0 without reducing it. *)
Theorem fermatPrimalityTest_iff :
  (forall n : Z,
     2 <= n ->
     (fermatPrimalityTest n = true <-> (n = 2 \/ 2 ^ (n - 1) mod n = 1)))
  /\ (fermatPrimalityTest 1 = true
      /\ ~ (1 = 2 \/ 2 ^ (1 - 1) mod 1 = 1))
  /\ fermatPrimalityTest 2 = true
  /\ fermatPrimalityTest 4 = false
  /\ fermatPrimalityTest 97 = true.
Proof.
  split; [ | split; [ | repeat split; vm_compute; reflexivity]].
  - intros n Hn. rewrite fermat_reference by exact Hn.
    unfold Reference.fermatTest.
    rewrite orb_true_iff, !Z.eqb_eq. reflexivity.
  - split; [reflexivity | ].
    intros [H | H]; discriminate H.
Qed.

(** C3, where the code departs from it. For [0 < p <= 0xffffffff] and a
    chain type of the first or second kind, [eulerLagrangePrimalityTest]
    follows the case analysis of section 4.2: true below 4; at 4 true
    exactly for the second kind; above 4, with [r = p mod 4], true exactly
    when the congruence of the kind and of [r] holds, and false when [r] is
    0 or 2. Hence the values at 1, 2, 3 and 4. Above [0xffffffff] the power
    is not computed ([pow] answers 1) and the test is one of [p mod 4]
    alone: at the prime 4294967311 it answers true although
    [2^p - 1] is not a multiple of [2p + 1]. *)
Theorem eulerLagrangePrimalityTest_cases :
  (forall (p : Z) (chainType : string),
     0 < p -> p <= 4294967295 ->
     chainType = CUNNINGHAM_CHAIN_1 \/ chainType = CUNNINGHAM_CHAIN_2 ->
     (p < 4 -> eulerLagrangePrimalityTest p chainType = true)
     /\ (p = 4 ->
         (eulerLagrangePrimalityTest p chainType = true
          <-> chainType = CUNNINGHAM_CHAIN_2))
     /\ (4 < p -> chainType = CUNNINGHAM_CHAIN_1 ->
         (eulerLagrangePrimalityTest p chainType = true
          <-> (p mod 4 = 1 /\ (2 ^ p + 1) mod (2 * p + 1) = 0)
              \/ (p mod 4 = 3 /\ (2 ^ p - 1) mod (2 * p + 1) = 0)))
     /\ (4 < p -> chainType = CUNNINGHAM_CHAIN_2 ->
         (eulerLagrangePrimalityTest p chainType = true
          <-> (p mod 4 = 1 /\ (2 ^ (p - 1) - 1) mod (2 * p - 1) = 0)
              \/ (p mod 4 = 3 /\ (2 ^ (p - 1) + 1) mod (2 * p - 1) = 0)))
     /\ (4 < p -> p mod 4 = 0 \/ p mod 4 = 2 ->
         eulerLagrangePrimalityTest p chainType = false))
  /\ (forall p : Z,
        4294967295 < p ->
        eulerLagrangePrimalityTest p CUNNINGHAM_CHAIN_1 = (p mod 4 =? 3))
  /\ (forall p : Z,
        4294967296 < p ->
        eulerLagrangePrimalityTest p CUNNINGHAM_CHAIN_2 = (p mod 4 =? 1))
  /\ (eulerLagrangePrimalityTest 4294967311 CUNNINGHAM_CHAIN_1 = true
      /\ 4294967311 mod 4 = 3
      /\ (2 ^ 4294967311 - 1) mod (2 * 4294967311 + 1) <> 0)
  /\ eulerLagrangePrimalityTest 1 CUNNINGHAM_CHAIN_1 = true
  /\ eulerLagrangePrimalityTest 2 CUNNINGHAM_CHAIN_1 = true
  /\ eulerLagrangePrimalityTest 3 CUNNINGHAM_CHAIN_1 = true
  /\ eulerLagrangePrimalityTest 4 CUNNINGHAM_CHAIN_2 = true
  /\ eulerLagrangePrimalityTest 4 CUNNINGHAM_CHAIN_1 = false.
Proof.
  split; [ | split; [ | split; [ | split]]].
  2: { intros p. apply eulerLagrange_beyond. }
  2: { intros p. apply eulerLagrange_beyond. }
  2: { split; [vm_compute; reflexivity | ]. split; [reflexivity | ].
       intros H. apply power_residue in H; [ | reflexivity].
       vm_compute in H. discriminate H. }
  2: { repeat split; vm_compute; reflexivity. }
  intros p chainType Hp Hmax Hk.
  destruct (tag_cases chainType Hk) as [k ->].
  rewrite eulerLagrange_reference by lia.
  split; [ | split; [ | split; [ | split]]].
  - intros Hlt. unfold Reference.ChainCriterion.
    assert (E : (0 <? p) && (p <? 4) = true)
      by (apply andb_true_iff; split; apply Z.ltb_lt; lia).
    now rewrite E.
  - intros ->. destruct k; cbn; split; try reflexivity; discriminate.
  - intros H4 Hfirst. destruct k; [ | discriminate].
    rewrite criterion_above_4 by exact H4.
    destruct (Z.eqb_spec (p mod 4) 1) as [R1 | R1];
      [ | destruct (Z.eqb_spec (p mod 4) 3) as [R3 | R3]];
      rewrite ?Z.eqb_eq; split; intros C; try discriminate; try tauto;
      destruct C as [[? ?] | [? ?]]; solve [assumption | lia].
  - intros H4 Hsecond. destruct k; [discriminate | ].
    rewrite criterion_above_4 by exact H4.
    destruct (Z.eqb_spec (p mod 4) 1) as [R1 | R1];
      [ | destruct (Z.eqb_spec (p mod 4) 3) as [R3 | R3]];
      rewrite ?Z.eqb_eq; split; intros C; try discriminate; try tauto;
      destruct C as [[? ?] | [? ?]]; solve [assumption | lia].
  - intros H4 Hr. rewrite criterion_above_4 by exact H4.
    assert (R1 : (p mod 4 =? 1) = false) by (apply Z.eqb_neq; lia).
    assert (R3 : (p mod 4 =? 3) = false) by (apply Z.eqb_neq; lia).
    rewrite R1, R3. now destruct k.
Qed.

(** ** The chain search *)

Lemma tag_valid (k : Reference.Kind) :
  Reference.tag k = CUNNINGHAM_CHAIN_1 \/ Reference.tag k = CUNNINGHAM_CHAIN_2.
Proof. destruct k; [now left | now right]. Qed.

Section ChainSearch.

Variable isProbablePrime : Z -> bool.

Local Abbreviation chainLoop := (Prime.chainLoop isProbablePrime).
Local Abbreviation failsPrimality := (Prime.failsPrimality isProbablePrime).
Local Abbreviation findCunninghamChain :=
  (Prime.findCunninghamChain isProbablePrime).
Local Abbreviation findPrimeChain := (Prime.findPrimeChain isProbablePrime).

(** One turn of the [while] loop. *)
Lemma chainLoop_unfold (chainType : string) (target n chainLength : Z) :
  chainLoop chainType target n chainLength =
  if eulerLagrangePrimalityTest n chainType then
    match nextInChain n chainType with
    | Throw msg => Throw msg
    | Ok n' =>
      if failsPrimality n' then Ok (chainLength + 1 - 1)
      else if chainLength + 1 >=? target then Ok (chainLength + 1)
      else chainLoop chainType target n' (chainLength + 1)
    end
  else Ok chainLength.
Proof.
  funelim (chainLoop chainType target n chainLength); clear Heqcall;
    follow_path.
Qed.

Lemma extend_unfold (tester : Z -> bool)
  (criterion : Z -> Reference.Kind -> bool) (k : Reference.Kind)
  (target n chainLength : Z) :
  Reference.extendWith tester criterion k target n chainLength =
  if criterion n k then
    if tester (Reference.step n k) then
      if target <=? chainLength + 1 then chainLength + 1
      else Reference.extendWith tester criterion k target (Reference.step n k)
             (chainLength + 1)
    else chainLength
  else chainLength.
Proof.
  funelim (Reference.extendWith tester criterion k target n chainLength);
    clear Heqcall; follow_path.
Qed.

Lemma failsPrimality_passes (n : Z) :
  failsPrimality n = negb (passesPrimality isProbablePrime n).
Proof.
  unfold passesPrimality. now rewrite negb_involutive.
Qed.

Lemma eulerLagrange_criterionOf (p : Z) (k : Reference.Kind) :
  eulerLagrangePrimalityTest p (Reference.tag k) = criterionOf p k.
Proof. reflexivity. Qed.

Lemma nextInChain_tag (n : Z) (k : Reference.Kind) :
  nextInChain n (Reference.tag k) = Ok (Reference.step n k).
Proof.
  destruct k; unfold nextInChain, Reference.step, Reference.tag;
    decide_tags; unfold add, subtract, multiply, BI_TWO, BI_ONE;
    f_equal; lia.
Qed.

Lemma nextInChain_valid (n : Z) (chainType : string) :
  chainType = CUNNINGHAM_CHAIN_1 \/ chainType = CUNNINGHAM_CHAIN_2 ->
  exists n', nextInChain n chainType = Ok n'.
Proof.
  intros [-> | ->]; unfold nextInChain; decide_tags; eauto.
Qed.

(** The loop of the code and the loop of section 4.3 over the tests of the
    code agree from every state. *)
Lemma chainLoop_reference (k : Reference.Kind) (target n chainLength : Z) :
  chainLoop (Reference.tag k) target n chainLength =
  Ok (Reference.extendWith (passesPrimality isProbablePrime) criterionOf
        k target n chainLength).
Proof.
  funelim (Reference.extendWith (passesPrimality isProbablePrime) criterionOf
             k target n chainLength);
    clear Heqcall; rewrite chainLoop_unfold, eulerLagrange_criterionOf.
  - now rewrite Heq.
  - rewrite Heq0, nextInChain_tag, failsPrimality_passes, Heq. cbn.
    f_equal. lia.
  - rewrite Heq0, nextInChain_tag, failsPrimality_passes, Heq. cbn.
    now rewrite Z.geb_leb, met.
  - rewrite Heq0, nextInChain_tag, failsPrimality_passes, Heq. cbn.
    rewrite Z.geb_leb, more. assumption.
Qed.

(** With a chain type of the first or second kind the loop returns, and
    what it returns lies between the length it was entered with and the
    target. *)
Lemma chainLoop_bounds (chainType : string) (target n chainLength : Z) :
  chainType = CUNNINGHAM_CHAIN_1 \/ chainType = CUNNINGHAM_CHAIN_2 ->
  chainLength < target ->
  exists L, chainLoop chainType target n chainLength = Ok L
            /\ chainLength <= L <= target.
Proof.
  funelim (chainLoop chainType target n chainLength); clear Heqcall;
    intros Hvalid Hlt.
  - eexists. split; [reflexivity | lia].
  - match goal with
    | E : nextInChain ?m ?t = Throw _ |- _ =>
      destruct (nextInChain_valid m t Hvalid) as [n' E']; congruence
    end.
  - eexists. split; [reflexivity | lia].
  - eexists. split; [reflexivity | lia].
  - match goal with
    | again : (?c + 1 >=? target) = false,
      IH : _ -> _ -> exists L, _ |- _ =>
      assert (Hmore : c + 1 < target)
        by (apply Z.leb_gt; rewrite <- Z.geb_leb; exact again);
      destruct (IH Hvalid Hmore) as (L & E & B)
    end.
    exists L. split; [exact E | lia].
Qed.

Lemma findCunninghamChain_bounds (n : Z) (chainType : string) (target : Z) :
  chainType = CUNNINGHAM_CHAIN_1 \/ chainType = CUNNINGHAM_CHAIN_2 ->
  exists L, findCunninghamChain n chainType target = Ok L
            /\ 0 <= L /\ (1 <= target -> L <= target).
Proof.
  intros Hvalid. unfold Prime.findCunninghamChain.
  destruct (failsPrimality n).
  - exists 0. split; [reflexivity | lia].
  - destruct (1 >=? target) eqn:E; rewrite Z.geb_leb in E.
    + apply Z.leb_le in E. exists 1. split; [reflexivity | lia].
    + apply Z.leb_gt in E.
      destruct (chainLoop_bounds chainType target n 1 Hvalid E)
        as (L & EL & B).
      exists L. split; [exact EL | lia].
Qed.

Lemma findCunninghamChain_tag (n : Z) (k : Reference.Kind) (target : Z) :
  findCunninghamChain n (Reference.tag k) target =
  Ok (Reference.findChainWith (passesPrimality isProbablePrime) criterionOf
        n k target).
Proof.
  unfold Prime.findCunninghamChain, Reference.findChainWith.
  rewrite failsPrimality_passes.
  destruct (negb (passesPrimality isProbablePrime n));
    [reflexivity | ].
  rewrite Z.geb_leb.
  destruct (target <=? 1); [reflexivity | apply chainLoop_reference].
Qed.

End ChainSearch.

(** ** The search against section 4.3 *)

(** Trial division up to the square root accepts primes only. *)
Lemma noDivisorFrom_sound (fuel : nat) :
  forall d n x : Z,
    0 < d -> noDivisorFrom fuel d n = true ->
    d <= x < d + Z.of_nat fuel -> x * x <= n -> n mod x <> 0.
Proof.
  induction fuel as [ | fuel IH]; intros d n x Hd H Hx Hxx; [lia | ].
  cbn [noDivisorFrom] in H.
  destruct (Z.gtb_spec (d * d) n) as [Hbig | Hsmall]; [nia | ].
  destruct (Z.eqb_spec (n mod d) 0) as [Hdiv | Hnot]; [discriminate H | ].
  destruct (Z.eq_dec x d) as [-> | Hne]; [exact Hnot | ].
  apply (IH (d + 1) n x); [lia | exact H | lia | exact Hxx].
Qed.

Lemma trialDivisionRoot_prime (n : Z) :
  trialDivisionRoot n = true -> Z.prime n.
Proof.
  unfold trialDivisionRoot. intros H.
  apply andb_true_iff in H. destruct H as [H1 Hall].
  apply Z.ltb_lt in H1. split; [exact H1 | ].
  intros d Hd [e He].
  assert (He1 : 1 < e) by nia.
  assert (Hfree : forall x, 2 <= x -> x * x <= n -> n mod x <> 0).
  { intros x Hx Hxx.
    apply (noDivisorFrom_sound (Z.to_nat (Z.sqrt n)) 2 n x);
      [lia | exact Hall | | exact Hxx].
    assert (x <= Z.sqrt n) by (apply Z.sqrt_le_square; lia).
    pose proof (Z.sqrt_nonneg n). lia. }
  destruct (Z.le_gt_cases d e) as [Hde | Hed].
  - apply (Hfree d); [lia | nia | ].
    rewrite He. apply Z.mod_mul. lia.
  - apply (Hfree e); [lia | nia | ].
    rewrite He, Z.mul_comm. apply Z.mod_mul. lia.
Qed.

Lemma prime_4294967311 : Z.prime 4294967311.
Proof. apply trialDivisionRoot_prime. vm_compute. reflexivity. Qed.

Lemma prime_4294967681 : Z.prime 4294967681.
Proof. apply trialDivisionRoot_prime. vm_compute. reflexivity. Qed.

Lemma prime_8589935363 : Z.prime 8589935363.
Proof. apply trialDivisionRoot_prime. vm_compute. reflexivity. Qed.

(** The tests of section 4.1 and 4.2 on numbers too large for the power to
    be written out: the residue of the power is computed by squaring. *)
Lemma fermatTest_residue (n : Z) :
  2 < n ->
  Reference.fermatTest n = (modPow_pos 2 (Z.to_pos (n - 1)) n =? 1).
Proof.
  intros Hn. unfold Reference.fermatTest.
  destruct (Z.eqb_spec n 2); [lia | ]. cbn [orb].
  rewrite modPow_pos_spec, Z2Pos.id by lia. reflexivity.
Qed.

Lemma criterion_residue (p : Z) :
  4 < p ->
  Reference.ChainCriterion p Reference.First
  = if p mod 4 =? 1 then
      (modPow_pos 2 (Z.to_pos p) (2 * p + 1) + 1) mod (2 * p + 1) =? 0
    else if p mod 4 =? 3 then
      (modPow_pos 2 (Z.to_pos p) (2 * p + 1) - 1) mod (2 * p + 1) =? 0
    else false.
Proof.
  intros Hp. rewrite criterion_above_4 by exact Hp.
  rewrite modPow_pos_spec, Z2Pos.id by lia.
  rewrite Z.add_mod_idemp_l, Zminus_mod_idemp_l by lia. reflexivity.
Qed.

(** From a number of at least 1 a chain climbs. *)
Lemma step_climbs (k : Reference.Kind) (n : Z) :
  1 <= n -> n <= Reference.step n k.
Proof. destruct k; cbn [Reference.step]; lia. Qed.

Lemma memberAt_succ (k : Reference.Kind) (n : Z) (i : nat) :
  memberAt k n (S i) = memberAt k (Reference.step n k) i.
Proof.
  unfold memberAt. apply Nat.iter_succ_r.
Qed.

Lemma memberAt_climbs (k : Reference.Kind) (n : Z) (i j : nat) :
  1 <= n -> (i <= j)%nat -> n <= memberAt k n i <= memberAt k n j.
Proof.
  intros Hn Hij.
  assert (Hlow : forall m, n <= memberAt k n m).
  { induction m as [ | m IH]; [cbn; lia | ].
    change (memberAt k n (S m)) with (Reference.step (memberAt k n m) k).
    pose proof (step_climbs k (memberAt k n m) ltac:(lia)). lia. }
  split; [apply Hlow | ].
  induction Hij as [ | j Hij IH]; [lia | ].
  change (memberAt k n (S j)) with (Reference.step (memberAt k n j) k).
  pose proof (Hlow j).
  pose proof (step_climbs k (memberAt k n j) ltac:(lia)). lia.
Qed.

(** The procedure of section 4.3 only looks at its tests on the members of
    the chain: two pairs of tests that agree there give the same length. *)
Lemma extendWith_agree (tester tester' : Z -> bool)
  (criterion criterion' : Z -> Reference.Kind -> bool) (k : Reference.Kind)
  (target n len : Z) :
  (forall i, Z.of_nat i < target - len ->
     criterion (memberAt k n i) k = criterion' (memberAt k n i) k
     /\ tester (memberAt k n (S i)) = tester' (memberAt k n (S i))) ->
  len < target ->
  Reference.extendWith tester criterion k target n len
  = Reference.extendWith tester' criterion' k target n len.
Proof.
  funelim (Reference.extendWith tester criterion k target n len);
    clear Heqcall; intros Hagree Hlt;
    rewrite (extend_unfold tester' criterion');
    destruct (Hagree O ltac:(lia)) as [C T];
    cbn [memberAt Nat.iter nat_rect] in C, T;
    rewrite <- C, <- T.
  - now rewrite Heq.
  - now rewrite Heq0, Heq.
  - now rewrite Heq0, Heq, met.
  - rewrite Heq0, Heq, more.
    match goal with
    | IH : forall t : Z -> bool, _ |- _ => apply IH
    end.
    + intros i Hi. rewrite <- !memberAt_succ. apply Hagree. lia.
    + pose proof (proj1 (Z.leb_gt _ _) more). lia.
Qed.

(** C2, where the code departs from it. For a chain type of the first or
    second kind, [findCunninghamChain] goes through the procedure of section
    4.3 step by step: 0 when [n] fails the pair of primality tests; else 1
    when the target is at most 1; else the length the loop reaches, stepping
    to 2n+1 or 2n-1 while the criterion holds, stopping without counting a
    member that fails the primality tests and returning as soon as the
    length reaches the target. The tests it calls are the two of the code:
    while every number tested is between 2 and [0xffffffff] they are the
    tests of the document and the length is the length of the document;
    beyond, the criterion of the code is no longer the criterion of section
    4.2: from the prime 4294967681, whose next member 8589935363 is prime
    too, with a test that passes every prime and a target of 2, the code
    returns 1 where the procedure of the document returns 2. *)
Theorem findCunninghamChain_reference :
  (forall (isProbablePrime : Z -> bool) (n : Z) (k : Reference.Kind)
          (target : Z),
      findCunninghamChain isProbablePrime n (Reference.tag k) target =
      Ok (Reference.findChainWith (passesPrimality isProbablePrime)
            criterionOf n k target))
  /\ (forall (isProbablePrime : Z -> bool) (n : Z) (k : Reference.Kind)
             (target : Z),
        2 <= n ->
        memberAt k n (Z.to_nat (target - 1)) <= 4294967295 ->
        findCunninghamChain isProbablePrime n (Reference.tag k) target =
        Ok (Reference.findChain isProbablePrime n k target))
  /\ (forall isProbablePrime : Z -> bool,
        complete isProbablePrime ->
        findCunninghamChain isProbablePrime 4294967681 CUNNINGHAM_CHAIN_1 2
        = Ok 1
        /\ Reference.findChain isProbablePrime 4294967681 Reference.First 2
           = 2).
Proof.
  split; [ | split].
  - intros ipp n k target.
    unfold findCunninghamChain, Reference.findChainWith.
    rewrite failsPrimality_passes.
    destruct (passesPrimality ipp n); cbn [negb]; [ | reflexivity].
    rewrite Z.geb_leb.
    destruct (Z.leb_spec target 1) as [Hmet | Hmore]; [reflexivity | ].
    apply chainLoop_reference.
  - intros ipp n k target Hn Hmax.
    rewrite findCunninghamChain_tag. f_equal.
    unfold Reference.findChain, Reference.findChainWith.
    assert (Htest : forall m, 2 <= m ->
              passesPrimality ipp m = Reference.PrimalityTester ipp m).
    { intros m Hm. unfold passesPrimality, failsPrimality,
        Reference.PrimalityTester.
      rewrite fermat_reference by exact Hm.
      now rewrite negb_orb, !negb_involutive. }
    rewrite Htest by exact Hn.
    destruct (Reference.PrimalityTester ipp n); cbn [negb]; [ | reflexivity].
    destruct (Z.leb_spec target 1) as [Hmet | Hmore]; [reflexivity | ].
    apply extendWith_agree; [ | exact Hmore].
    intros i Hi.
    pose proof (memberAt_climbs k n i (Z.to_nat (target - 1)) ltac:(lia)
                  ltac:(lia)) as [Hlo Hhi].
    pose proof (memberAt_climbs k n (S i) (Z.to_nat (target - 1)) ltac:(lia)
                  ltac:(lia)) as [Hlo' Hhi'].
    split.
    + unfold criterionOf. apply eulerLagrange_reference. lia.
    + apply Htest. lia.
  - intros ipp Hcomplete.
    pose proof (Hcomplete _ prime_4294967681) as P1.
    pose proof (Hcomplete _ prime_8589935363) as P2.
    split.
    + unfold findCunninghamChain, failsPrimality. rewrite P1.
      assert (F : fermatPrimalityTest 4294967681 = true)
        by (vm_compute; reflexivity).
      rewrite F. cbn [negb orb].
      change (1 >=? 2) with false. cbv iota.
      rewrite chainLoop_unfold.
      assert (C : eulerLagrangePrimalityTest 4294967681 CUNNINGHAM_CHAIN_1
                  = false) by (vm_compute; reflexivity).
      rewrite C. reflexivity.
    + unfold Reference.findChain, Reference.findChainWith,
        Reference.PrimalityTester.
      rewrite fermatTest_residue, P1 by lia.
      assert (F : (modPow_pos 2 (Z.to_pos (4294967681 - 1)) 4294967681 =? 1)
                  = true) by (vm_compute; reflexivity).
      rewrite F. cbn [andb negb].
      change (2 <=? 1) with false. cbv iota.
      rewrite extend_unfold, criterion_residue by lia.
      assert (C : (if 4294967681 mod 4 =? 1
                   then (modPow_pos 2 (Z.to_pos 4294967681)
                           (2 * 4294967681 + 1) + 1)
                        mod (2 * 4294967681 + 1) =? 0
                   else if 4294967681 mod 4 =? 3
                   then (modPow_pos 2 (Z.to_pos 4294967681)
                           (2 * 4294967681 + 1) - 1)
                        mod (2 * 4294967681 + 1) =? 0
                   else false) = true) by (vm_compute; reflexivity).
      rewrite C.
      change (Reference.step 4294967681 Reference.First) with 8589935363.
      rewrite fermatTest_residue, P2 by lia.
      assert (F' : (modPow_pos 2 (Z.to_pos (8589935363 - 1)) 8589935363 =? 1)
                   = true) by (vm_compute; reflexivity).
      rewrite F'. reflexivity.
Qed.

(** The target only truncates the search. *)

Section Truncation.

Variable isProbablePrime : Z -> bool.

Local Abbreviation chainLoop := (Prime.chainLoop isProbablePrime).
Local Abbreviation findCunninghamChain :=
  (Prime.findCunninghamChain isProbablePrime).

(** From the same state, the loop with a lower target returns what the loop
    with the higher target returns, cut at the lower target. *)
Lemma chainLoop_truncate (chainType : string) (target n len lower : Z) :
  chainType = CUNNINGHAM_CHAIN_1 \/ chainType = CUNNINGHAM_CHAIN_2 ->
  len < lower <= target ->
  exists L, chainLoop chainType target n len = Ok L
            /\ chainLoop chainType lower n len = Ok (Z.min L lower).
Proof.
  funelim (chainLoop chainType target n len); clear Heqcall;
    intros Hvalid Hlow; rewrite (chainLoop_unfold _ _ lower).
  - rewrite Heq. eexists. split; [reflexivity | f_equal; lia].
  - match goal with
    | E : nextInChain ?m ?t = Throw _ |- _ =>
      destruct (nextInChain_valid m t Hvalid) as [n' E']; congruence
    end.
  - rewrite Heq1, Heq0, Heq. eexists. split; [reflexivity | f_equal; lia].
  - rewrite Heq1, Heq0, Heq.
    match goal with
    | met : (?c + 1 >=? target) = true |- _ =>
      pose proof (proj1 (Z.leb_le _ _)
                    (eq_trans (eq_sym (Z.geb_leb _ _)) met)) as Hmet;
      rewrite (geb_true (c + 1) lower) by lia
    end.
    eexists. split; [reflexivity | f_equal; lia].
  - rewrite Heq1, Heq0, Heq.
    match goal with
    | again : (?c + 1 >=? target) = false |- _ =>
      pose proof (proj1 (Z.leb_gt _ _)
                    (eq_trans (eq_sym (Z.geb_leb _ _)) again)) as Hmore;
      destruct (Z.le_gt_cases lower (c + 1)) as [Hcut | Hgo]
    end.
    + rewrite geb_true by exact Hcut.
      match goal with
      | |- context [Prime.chainLoop _ ?t target ?m ?c] =>
        destruct (chainLoop_bounds isProbablePrime t target m c Hvalid Hmore)
          as (L & E & B)
      end.
      exists L. split; [exact E | f_equal; lia].
    + rewrite geb_false by lia.
      match goal with
      | IH : forall l : Z, _ |- _ => apply IH; [exact Hvalid | lia]
      end.
Qed.

Lemma findCunninghamChain_truncate (n : Z) (chainType : string)
  (target lower : Z) :
  chainType = CUNNINGHAM_CHAIN_1 \/ chainType = CUNNINGHAM_CHAIN_2 ->
  lower <= target ->
  exists L, findCunninghamChain n chainType target = Ok L
            /\ 0 <= L
            /\ (1 <= target -> L <= target)
            /\ findCunninghamChain n chainType lower
               = Ok (Z.min L (Z.max lower 1)).
Proof.
  intros Hvalid Hlow. unfold Prime.findCunninghamChain.
  destruct (failsPrimality isProbablePrime n).
  { exists 0. repeat split; try lia. f_equal. lia. }
  destruct (Z.le_gt_cases target 1) as [T1 | T1].
  { rewrite !geb_true by lia. exists 1. repeat split; try lia. f_equal. lia. }
  rewrite (geb_false 1 target) by lia.
  destruct (Z.le_gt_cases lower 1) as [L1 | L1].
  - rewrite (geb_true 1 lower) by lia.
    destruct (chainLoop_bounds isProbablePrime chainType target n 1 Hvalid T1)
      as (L & E & B).
    exists L. repeat split; try lia; [exact E | f_equal; lia].
  - rewrite (geb_false 1 lower) by lia.
    destruct (chainLoop_truncate chainType target n 1 lower Hvalid
                ltac:(lia)) as (L & E & E').
    destruct (chainLoop_bounds isProbablePrime chainType target n 1 Hvalid T1)
      as (L' & EL' & B).
    assert (L' = L) by congruence. subst L'.
    exists L. repeat split; try lia; [exact E | ].
    rewrite E'. f_equal. lia.
Qed.

End Truncation.

(** The loop of section 4.3 from a member [n] that passed the tests: the
    members it counts passed them, the criterion held at each of them but
    the last, and when it stops below the target either the criterion fails
    at the last or the next member fails the tests. *)
Lemma extend_exact (tester : Z -> bool)
  (criterion : Z -> Reference.Kind -> bool) (k : Reference.Kind)
  (target n len : Z) :
  forall L, Reference.extendWith tester criterion k target n len = L ->
  tester n = true ->
  len <= L
  /\ (forall i, (i <= Z.to_nat (L - len))%nat ->
       tester (memberAt k n i) = true)
  /\ (forall i, (i < Z.to_nat (L - len))%nat ->
       criterion (memberAt k n i) k = true)
  /\ (L < target ->
      criterion (memberAt k n (Z.to_nat (L - len))) k = false
      \/ tester (memberAt k n (S (Z.to_nat (L - len)))) = false).
Proof.
  funelim (Reference.extendWith tester criterion k target n len);
    clear Heqcall; intros L EL Hn; subst L.
  - rewrite Z.sub_diag. cbn [Z.to_nat].
    split; [lia | ]. split; [ | split].
    + intros i Hi. replace i with O by lia. exact Hn.
    + intros i Hi. lia.
    + intros _. left. assumption.
  - rewrite Z.sub_diag. cbn [Z.to_nat].
    split; [lia | ]. split; [ | split].
    + intros i Hi. replace i with O by lia. exact Hn.
    + intros i Hi. lia.
    + intros _. right. assumption.
  - match goal with
    | |- context [Z.to_nat (?c + 1 - ?c)] =>
      replace (Z.to_nat (c + 1 - c)) with 1%nat by lia
    end.
    split; [lia | ]. split; [ | split].
    + intros i Hi. destruct i as [ | [ | i]]; [exact Hn | assumption | lia].
    + intros i Hi. replace i with O by lia. assumption.
    + match goal with
      | met : (target <=? _) = true |- _ =>
        pose proof (proj1 (Z.leb_le _ _) met)
      end.
      intros Hlt. lia.
  - match goal with
    | IH : forall L, _ = L -> _ -> ?c + 1 <= L /\ _ |- _ =>
      destruct (IH _ eq_refl Heq) as (Hle & Hpass & Hcrit & Hstop);
      replace (Z.to_nat (Reference.extendWith tester criterion k target
                           (Reference.step n k) (c + 1) - c))
        with (S (Z.to_nat (Reference.extendWith tester criterion k target
                             (Reference.step n k) (c + 1) - (c + 1))))
        by lia
    end.
    split; [lia | ]. split; [ | split].
    + intros i Hi. destruct i as [ | i]; [exact Hn | ].
      rewrite memberAt_succ. apply Hpass. lia.
    + intros i Hi. destruct i as [ | i]; [assumption | ].
      rewrite memberAt_succ. apply Hcrit. lia.
    + intros Hlt. do 2 rewrite (memberAt_succ k n). apply Hstop. exact Hlt.
Qed.

Lemma findCunninghamChain_exact (isProbablePrime : Z -> bool) (n : Z)
  (k : Reference.Kind) (target L : Z) :
  findCunninghamChain isProbablePrime n (Reference.tag k) target = Ok L ->
  (L = 0 <-> failsPrimality isProbablePrime n = true)
  /\ 0 <= L
  /\ (forall i, (i < Z.to_nat L)%nat ->
       failsPrimality isProbablePrime (memberAt k n i) = false)
  /\ (forall i, (S i < Z.to_nat L)%nat ->
       eulerLagrangePrimalityTest (memberAt k n i) (Reference.tag k) = true)
  /\ (1 <= L < target ->
      eulerLagrangePrimalityTest (memberAt k n (Z.to_nat L - 1))
        (Reference.tag k) = false
      \/ failsPrimality isProbablePrime (memberAt k n (Z.to_nat L)) = true).
Proof.
  rewrite findCunninghamChain_tag. intros [= <-].
  unfold Reference.findChainWith. rewrite failsPrimality_passes.
  destruct (passesPrimality isProbablePrime n) eqn:Hn; cbn [negb].
  2:{ split; [tauto | ]. split; [lia | ].
      cbn [Z.to_nat]. repeat split; intros; lia. }
  destruct (Z.leb_spec target 1) as [T1 | T1].
  - split; [split; [discriminate | discriminate] | ]. split; [lia | ].
    change (Z.to_nat 1) with 1%nat. split; [ | split].
    + intros i Hi. replace i with O by lia.
      rewrite failsPrimality_passes. cbn. now rewrite Hn.
    + intros i Hi. lia.
    + intros Hlt. lia.
  - destruct (extend_exact (passesPrimality isProbablePrime) criterionOf
                k target n 1 _ eq_refl Hn)
      as (Hle & Hpass & Hcrit & Hstop).
    set (L := Reference.extendWith (passesPrimality isProbablePrime)
                criterionOf k target n 1) in *.
    split; [split; [lia | discriminate] | ]. split; [lia | ].
    split; [ | split].
    + intros i Hi. rewrite failsPrimality_passes, Hpass; [reflexivity | lia].
    + intros i Hi. rewrite eulerLagrange_criterionOf. apply Hcrit. lia.
    + intros [_ Hlt].
      replace (Z.to_nat L - 1)%nat with (Z.to_nat (L - 1)) by lia.
      replace (Z.to_nat L) with (S (Z.to_nat (L - 1))) by lia.
      rewrite eulerLagrange_criterionOf, failsPrimality_passes.
      destruct (Hstop Hlt) as [C | P]; [left; exact C | right].
      now rewrite P.
Qed.

(** C10, as the code has it. With a chain type of the first or second kind
    and a target of at least 1, [findCunninghamChain] returns a length
    between 0 and the target: 0 exactly when the first number fails the
    primality tests; the target itself as soon as the chain has that many
    members (each passes the primality tests and the criterion holds at
    each but the last), however far it goes on; and in every case the
    length a search with a higher target finds, cut at the target. With a
    target below 1 the early return comes too late to cap anything: the
    length is 1 as soon as the first number passes. *)
Theorem findCunninghamChain_capped :
  forall (isProbablePrime : Z -> bool) (n : Z) (chainType : string)
         (target : Z),
    chainType = CUNNINGHAM_CHAIN_1 \/ chainType = CUNNINGHAM_CHAIN_2 ->
    (1 <= target ->
     exists L,
       findCunninghamChain isProbablePrime n chainType target = Ok L
       /\ 0 <= L <= target
       /\ (L = 0 <-> failsPrimality isProbablePrime n = true)
       /\ (forall k,
             chainType = Reference.tag k ->
             (forall i, (i < Z.to_nat target)%nat ->
                failsPrimality isProbablePrime (memberAt k n i) = false) ->
             (forall i, (S i < Z.to_nat target)%nat ->
                eulerLagrangePrimalityTest (memberAt k n i) chainType
                = true) ->
             L = target)
       /\ forall higher,
            target <= higher ->
            exists H,
              findCunninghamChain isProbablePrime n chainType higher = Ok H
              /\ L = Z.min H target)
    /\ (target < 1 ->
        findCunninghamChain isProbablePrime n chainType target
        = Ok (if failsPrimality isProbablePrime n then 0 else 1)).
Proof.
  intros ipp n chainType target Hvalid. split.
  - intros Ht.
    destruct (findCunninghamChain_bounds ipp n chainType target Hvalid)
      as (L & E & B0 & B1).
    exists L. split; [exact E | ]. split; [lia | ].
    assert (Hzero : L = 0 <-> failsPrimality ipp n = true).
    { destruct (tag_cases chainType Hvalid) as [k ->].
      apply (findCunninghamChain_exact ipp n k target L E). }
    split; [exact Hzero | ]. split.
    + intros k -> Hpass Hcrit.
      destruct (findCunninghamChain_exact ipp n k target L E)
        as (_ & _ & _ & _ & Hstop).
      destruct (Z.eq_dec L target) as [ | Hne]; [assumption | exfalso].
      assert (Hpass0 : failsPrimality ipp n = false)
        by (apply (Hpass O); lia).
      assert (HL : 1 <= L < target).
      { destruct (Z.eq_dec L 0) as [E0 | N0]; [ | lia].
        apply Hzero in E0. congruence. }
      destruct (Hstop HL) as [C | P].
      * rewrite Hcrit in C by lia. discriminate C.
      * rewrite Hpass in P by lia. discriminate P.
    + intros higher Hh.
      destruct (findCunninghamChain_truncate ipp n chainType higher target
                  Hvalid Hh) as (H & EH & _ & _ & Ecut).
      exists H. split; [exact EH | ].
      rewrite E in Ecut. injection Ecut as ->. lia.
  - intros Ht. unfold findCunninghamChain.
    destruct (failsPrimality ipp n); [reflexivity | ].
    now rewrite geb_true by lia.
Qed.

(** ** The selector *)

(** C4. [findPrimeChain] runs the search of the first kind from [origin - 1]
    and of the second kind from [origin + 1], both with the caller's target;
    the bi-twin length is [2 * L2 + 1] when [L1 > L2] and [2 * L1] otherwise,
    that is twice the smaller length, plus one when the first is the longer;
    the first kind is returned when [L1 >= L2] and [L1 >= Lbw], else the
    second kind when [L2 >= L1] and [L2 >= Lbw], else the bi-twin chain. *)
Theorem findPrimeChain_selection :
  forall (isProbablePrime : Z -> bool) (origin target : Z),
  exists L1 L2 Lbw : Z,
    findCunninghamChain isProbablePrime (origin - 1) CUNNINGHAM_CHAIN_1 target
    = Ok L1
    /\ findCunninghamChain isProbablePrime (origin + 1) CUNNINGHAM_CHAIN_2
         target = Ok L2
    /\ (L1 > L2 -> Lbw = 2 * L2 + 1)
    /\ (L1 <= L2 -> Lbw = 2 * L1)
    /\ (L1 > L2 -> Lbw = 2 * Z.min L1 L2 + 1)
    /\ (L1 <= L2 -> Lbw = 2 * Z.min L1 L2)
    /\ (L1 >= L2 /\ L1 >= Lbw ->
        findPrimeChain isProbablePrime origin target
        = Ok (mkPrimeChain L1 CUNNINGHAM_CHAIN_1))
    /\ (~ (L1 >= L2 /\ L1 >= Lbw) -> L2 >= L1 /\ L2 >= Lbw ->
        findPrimeChain isProbablePrime origin target
        = Ok (mkPrimeChain L2 CUNNINGHAM_CHAIN_2))
    /\ (~ (L1 >= L2 /\ L1 >= Lbw) -> ~ (L2 >= L1 /\ L2 >= Lbw) ->
        findPrimeChain isProbablePrime origin target
        = Ok (mkPrimeChain Lbw BITWIN_CHAIN)).
Proof.
  intros ipp origin target.
  destruct (findCunninghamChain_bounds ipp (origin - 1) CUNNINGHAM_CHAIN_1
              target (or_introl eq_refl)) as (L1 & E1 & _).
  destruct (findCunninghamChain_bounds ipp (origin + 1) CUNNINGHAM_CHAIN_2
              target (or_intror eq_refl)) as (L2 & E2 & _).
  exists L1, L2, (if L1 >? L2 then L2 * 2 + 1 else L1 * 2).
  unfold findPrimeChain, subtract, add, BI_ONE. rewrite E1, E2. cbn [bind].
  rewrite !Z.geb_leb, Z.gtb_ltb.
  destruct (Z.ltb_spec L2 L1) as [C | C].
  - repeat (split; [first [reflexivity | intros; lia] | ]).
    destruct (Z.leb_spec L2 L1), (Z.leb_spec (L2 * 2 + 1) L1),
      (Z.leb_spec L1 L2), (Z.leb_spec (L2 * 2 + 1) L2); cbn;
      repeat split; intros; first [reflexivity | lia].
  - repeat (split; [first [reflexivity | intros; lia] | ]).
    destruct (Z.leb_spec L2 L1), (Z.leb_spec (L1 * 2) L1),
      (Z.leb_spec L1 L2), (Z.leb_spec (L1 * 2) L2); cbn;
      repeat split; intros; first [reflexivity | lia].
Qed.

(** ** The verifier *)

Lemma half_sum (t : Z) :
  PrimeBlock.Math_ceil_half t + PrimeBlock.Math_floor_half t = t.
Proof.
  unfold PrimeBlock.Math_ceil_half, PrimeBlock.Math_floor_half.
  pose proof (Z.div_mod t 2 ltac:(lia)) as D.
  pose proof (Z.div_mod (t + 1) 2 ltac:(lia)) as D1.
  pose proof (Z.mod_pos_bound t 2 ltac:(lia)) as B.
  pose proof (Z.mod_pos_bound (t + 1) 2 ltac:(lia)) as B1.
  lia.
Qed.

(** [Math_floor_half t] is the largest integer at most [t / 2] and
    [Math_ceil_half t] the smallest at least [t / 2]. *)
Lemma half_bounds (t : Z) :
  2 * PrimeBlock.Math_floor_half t <= t < 2 * PrimeBlock.Math_floor_half t + 2
  /\ 2 * PrimeBlock.Math_ceil_half t - 2 < t <= 2 * PrimeBlock.Math_ceil_half t.
Proof.
  unfold PrimeBlock.Math_ceil_half, PrimeBlock.Math_floor_half.
  pose proof (Z.div_mod t 2 ltac:(lia)) as D.
  pose proof (Z.div_mod (t + 1) 2 ltac:(lia)) as D1.
  pose proof (Z.mod_pos_bound t 2 ltac:(lia)) as B.
  pose proof (Z.mod_pos_bound (t + 1) 2 ltac:(lia)) as B1.
  lia.
Qed.

Section Verifier.

Variable hash : PrimeBlock.HeaderObject -> Z.
Variable isProbablePrime : Z -> bool.

Local Abbreviation hashHeader := (PrimeBlock.hashHeader hash).
Local Abbreviation hasValidProof :=
  (PrimeBlock.hasValidProof hash isProbablePrime).
Local Abbreviation findCunninghamChain :=
  (Prime.findCunninghamChain isProbablePrime).
Local Abbreviation target := PrimeBlock.target.
Local Abbreviation super := PrimeBlock.super.

(** The verifier never throws. *)
Lemma hasValidProof_total (b : PrimeBlock.PrimeBlock) :
  exists v : bool, hasValidProof b = Ok v.
Proof.
  unfold PrimeBlock.hasValidProof.
  repeat match goal with
         | |- exists v, (if ?c then _ else _) = Ok v => destruct c
         | |- exists v, Ok _ = Ok v => eexists; reflexivity
         end.
  - destruct (findCunninghamChain_bounds isProbablePrime
                (subtract (multiply (hashHeader b)
                   (PrimeBlock.primeMultiplier b)) BI_ONE)
                CUNNINGHAM_CHAIN_1 (target (super b)) (or_introl eq_refl))
      as (L & E & _).
    rewrite E. cbn [bind].
    destruct (L <? target (super b)); eexists; reflexivity.
  - destruct (findCunninghamChain_bounds isProbablePrime
                (add (multiply (hashHeader b)
                   (PrimeBlock.primeMultiplier b)) BI_ONE)
                CUNNINGHAM_CHAIN_2 (target (super b)) (or_intror eq_refl))
      as (L & E & _).
    rewrite E. cbn [bind].
    destruct (L <? target (super b)); eexists; reflexivity.
  - destruct (findCunninghamChain_bounds isProbablePrime
                (subtract (multiply (hashHeader b)
                   (PrimeBlock.primeMultiplier b)) BI_ONE)
                CUNNINGHAM_CHAIN_1
                (PrimeBlock.Math_ceil_half (target (super b)))
                (or_introl eq_refl))
      as (L1 & E1 & _).
    destruct (findCunninghamChain_bounds isProbablePrime
                (add (multiply (hashHeader b)
                   (PrimeBlock.primeMultiplier b)) BI_ONE)
                CUNNINGHAM_CHAIN_2
                (PrimeBlock.Math_floor_half (target (super b)))
                (or_intror eq_refl))
      as (L2 & E2 & _).
    rewrite E1, E2. cbn [bind].
    destruct (L1 + L2 <? target (super b)); eexists; reflexivity.
Qed.

(** A multiplier below 2 is rejected, whatever the other fields are. *)
Lemma hasValidProof_small_multiplier (b : PrimeBlock.PrimeBlock) :
  PrimeBlock.primeMultiplier b < 2 -> hasValidProof b = Ok false.
Proof.
  intros Hm. unfold PrimeBlock.hasValidProof.
  destruct (compareTo (hashHeader b) BLOCK_HEADER_HASH_MIN <? 0);
    [reflexivity | ].
  destruct (PrimeBlock.primeChainLength b <? target (super b));
    [reflexivity | ].
  rewrite compareTo_lt0. unfold BI_TWO.
  apply Z.ltb_lt in Hm. now rewrite Hm.
Qed.

Lemma hasValidProof_sound (b : PrimeBlock.PrimeBlock) :
  hasValidProof b = Ok true ->
  let origin := hashHeader b * PrimeBlock.primeMultiplier b in
  hashHeader b >= 2 ^ 255
  /\ PrimeBlock.primeChainLength b >= target (super b)
  /\ PrimeBlock.primeMultiplier b >= 2
  /\ ((PrimeBlock.primeChainType b = CUNNINGHAM_CHAIN_1
       /\ exists L,
            findCunninghamChain (origin - 1) CUNNINGHAM_CHAIN_1
              (target (super b))
            = Ok L /\ L >= target (super b))
      \/ (PrimeBlock.primeChainType b = CUNNINGHAM_CHAIN_2
          /\ exists L,
               findCunninghamChain (origin + 1) CUNNINGHAM_CHAIN_2
                 (target (super b))
               = Ok L /\ L >= target (super b))
      \/ (PrimeBlock.primeChainType b = BITWIN_CHAIN
          /\ exists L1 L2,
               findCunninghamChain (origin - 1) CUNNINGHAM_CHAIN_1
                 (PrimeBlock.Math_ceil_half (target (super b))) = Ok L1
               /\ findCunninghamChain (origin + 1) CUNNINGHAM_CHAIN_2
                    (PrimeBlock.Math_floor_half (target (super b))) = Ok L2
               /\ L1 + L2 >= target (super b))).
Proof.
  unfold PrimeBlock.hasValidProof.
  rewrite !compareTo_lt0.
  unfold multiply, subtract, add, BI_ONE, BI_TWO, BLOCK_HEADER_HASH_MIN,
    shiftLeft.
  rewrite Z.shiftl_1_l.
  destruct (Z.ltb_spec (hashHeader b) (2 ^ 255)) as [H1 | H1];
    [discriminate | ].
  destruct (Z.ltb_spec (PrimeBlock.primeChainLength b) (target (super b)))
    as [H2 | H2]; [discriminate | ].
  destruct (Z.ltb_spec (PrimeBlock.primeMultiplier b) 2) as [H3 | H3];
    [discriminate | ].
  intros V. cbv zeta.
  split; [lia | ]. split; [lia | ]. split; [lia | ].
  destruct (String.eqb_spec (PrimeBlock.primeChainType b) CUNNINGHAM_CHAIN_1)
    as [T1 | T1].
  { left. split; [exact T1 | ].
    destruct (findCunninghamChain _ _ _) as [L | msg]; [ | discriminate].
    cbn [bind] in V. exists L. split; [reflexivity | ].
    destruct (Z.ltb_spec L (target (super b))); [discriminate | lia]. }
  destruct (String.eqb_spec (PrimeBlock.primeChainType b) CUNNINGHAM_CHAIN_2)
    as [T2 | T2].
  { right. left. split; [exact T2 | ].
    destruct (findCunninghamChain _ _ _) as [L | msg]; [ | discriminate].
    cbn [bind] in V. exists L. split; [reflexivity | ].
    destruct (Z.ltb_spec L (target (super b))); [discriminate | lia]. }
  destruct (String.eqb_spec (PrimeBlock.primeChainType b) BITWIN_CHAIN)
    as [T3 | T3]; [ | discriminate].
  right. right. split; [exact T3 | ].
  destruct (findCunninghamChain _ CUNNINGHAM_CHAIN_1 _) as [L1 | msg];
    [ | discriminate].
  cbn [bind] in V.
  destruct (findCunninghamChain _ CUNNINGHAM_CHAIN_2 _) as [L2 | msg];
    [ | discriminate].
  cbn [bind] in V. exists L1, L2. repeat split.
  destruct (Z.ltb_spec (L1 + L2) (target (super b))); [discriminate | lia].
Qed.

Lemma hasValidProof_unrecognized (b : PrimeBlock.PrimeBlock) :
  PrimeBlock.primeChainType b <> CUNNINGHAM_CHAIN_1 ->
  PrimeBlock.primeChainType b <> CUNNINGHAM_CHAIN_2 ->
  PrimeBlock.primeChainType b <> BITWIN_CHAIN ->
  hasValidProof b = Ok false.
Proof.
  intros T1 T2 T3. unfold PrimeBlock.hasValidProof.
  apply String.eqb_neq in T1, T2, T3. rewrite T1, T2, T3.
  repeat match goal with
         | |- (if ?c then _ else _) = _ => destruct c
         end; reflexivity.
Qed.

End Verifier.

(** C1. When [hasValidProof] returns true, the header hash is at least
    2^255, the stored chain length is at least the target, the multiplier is
    at least 2, and the search run again from
    [origin = hash * multiplier] reaches the target: from [origin - 1] for
    the first kind, from [origin + 1] for the second, and for the bi-twin
    chain the two searches, with targets the upper and the lower half of the
    target, add up to it. A chain type that is none of the three makes it
    return false. *)
Theorem hasValidProof_soundness :
  forall (hash : PrimeBlock.HeaderObject -> Z) (isProbablePrime : Z -> bool)
         (b : PrimeBlock.PrimeBlock),
    let target := PrimeBlock.target (PrimeBlock.super b) in
    let digest := PrimeBlock.hashHeader hash b in
    let origin := digest * PrimeBlock.primeMultiplier b in
    (PrimeBlock.hasValidProof hash isProbablePrime b = Ok true ->
     digest >= 2 ^ 255
     /\ PrimeBlock.primeChainLength b >= target
     /\ PrimeBlock.primeMultiplier b >= 2
     /\ ((PrimeBlock.primeChainType b = CUNNINGHAM_CHAIN_1
          /\ exists L,
               findCunninghamChain isProbablePrime (origin - 1)
                 CUNNINGHAM_CHAIN_1 target = Ok L
               /\ L >= target)
         \/ (PrimeBlock.primeChainType b = CUNNINGHAM_CHAIN_2
             /\ exists L,
                  findCunninghamChain isProbablePrime (origin + 1)
                    CUNNINGHAM_CHAIN_2 target = Ok L
                  /\ L >= target)
         \/ (PrimeBlock.primeChainType b = BITWIN_CHAIN
             /\ exists L1 L2,
                  findCunninghamChain isProbablePrime (origin - 1)
                    CUNNINGHAM_CHAIN_1 (PrimeBlock.Math_ceil_half target)
                  = Ok L1
                  /\ findCunninghamChain isProbablePrime (origin + 1)
                       CUNNINGHAM_CHAIN_2 (PrimeBlock.Math_floor_half target)
                     = Ok L2
                  /\ L1 + L2 >= target)))
    /\ (PrimeBlock.primeChainType b <> CUNNINGHAM_CHAIN_1 ->
        PrimeBlock.primeChainType b <> CUNNINGHAM_CHAIN_2 ->
        PrimeBlock.primeChainType b <> BITWIN_CHAIN ->
        PrimeBlock.hasValidProof hash isProbablePrime b = Ok false).
Proof.
  intros hash ipp b target digest origin. split.
  - apply hasValidProof_sound.
  - apply hasValidProof_unrecognized.
Qed.

(** ** The mining search *)

Lemma findPrimeChain_total (isProbablePrime : Z -> bool) (origin target : Z) :
  exists found, findPrimeChain isProbablePrime origin target = Ok found
                /\ 0 <= chainLength found.
Proof.
  unfold findPrimeChain.
  destruct (findCunninghamChain_bounds isProbablePrime (subtract origin BI_ONE)
              CUNNINGHAM_CHAIN_1 target (or_introl eq_refl))
    as (L1 & E1 & P1 & _).
  destruct (findCunninghamChain_bounds isProbablePrime (add origin BI_ONE)
              CUNNINGHAM_CHAIN_2 target (or_intror eq_refl))
    as (L2 & E2 & P2 & _).
  rewrite E1, E2. cbn [bind].
  repeat match goal with
         | |- exists found, (if ?c then _ else _) = Ok found /\ _ =>
           destruct c
         end;
    (eexists; split; [reflexivity | ]); cbn [chainLength];
    destruct (L1 >? L2); lia.
Qed.

Section Mining.

Variable hash : PrimeBlock.HeaderObject -> Z.
Variable isProbablePrime : Z -> bool.

Local Abbreviation searchRound := (PrimeMiner.searchRound isProbablePrime).
Local Abbreviation searchRounds := (PrimeMiner.searchRounds isProbablePrime).
Local Abbreviation reachable := (PrimeMiner.reachable hash isProbablePrime).

(** A turn of the second loop returns, and what it does to the
    multiplier. *)
Lemma searchRound_multiplier (blockHeaderHash : Z)
  (b : PrimeBlock.PrimeBlock) :
  exists r, searchRound blockHeaderHash b = Ok r
            /\ match r with
               | PrimeMiner.Found b' =>
                 PrimeBlock.primeMultiplier b'
                 = 210 * PrimeBlock.primeMultiplier b
                 /\ PrimeBlock.primeChainLength b'
                    >= PrimeBlock.target (PrimeBlock.super b)
               | PrimeMiner.Retry b' =>
                 PrimeBlock.primeMultiplier b'
                 = PrimeBlock.primeMultiplier b + 1
               end.
Proof.
  unfold PrimeMiner.searchRound.
  destruct (findPrimeChain_total isProbablePrime
              (multiply blockHeaderHash
                 (multiply BI_BASE_PRIMORIAL (PrimeBlock.primeMultiplier b)))
              (PrimeBlock.target (PrimeBlock.super b)))
    as (found & E & _).
  rewrite E. cbn [bind].
  destruct (chainLength found >=? PrimeBlock.target (PrimeBlock.super b))
    eqn:C.
  - eexists. split; [reflexivity | ]. cbn.
    rewrite Z.geb_leb in C. apply Z.leb_le in C.
    unfold multiply, BI_BASE_PRIMORIAL. lia.
  - eexists. split; [reflexivity | ]. cbn. reflexivity.
Qed.

Lemma nonceStep_multiplier (b b' : PrimeBlock.PrimeBlock) :
  PrimeMiner.nonceStep hash b = Some b' ->
  PrimeBlock.primeMultiplier b' = PrimeBlock.primeMultiplier b.
Proof.
  unfold PrimeMiner.nonceStep.
  destruct (_ <? _); [ | discriminate].
  intros [= <-]. reflexivity.
Qed.

Lemma reachable_multiplier (b : PrimeBlock.PrimeBlock) :
  reachable b -> PrimeBlock.primeMultiplier b >= 2.
Proof.
  induction 1 as [base | b b' R IH N | b b' R IH N S | b b' R IH N S].
  - cbn. unfold BI_TWO. lia.
  - rewrite (nonceStep_multiplier b b' N). exact IH.
  - destruct (searchRound_multiplier (PrimeBlock.hashHeader hash b) b)
      as (r & E & M).
    rewrite S in E. injection E as <-. lia.
  - destruct (searchRound_multiplier (PrimeBlock.hashHeader hash b) b)
      as (r & E & M).
    rewrite S in E. injection E as <-. lia.
Qed.

(** The bounded loop of one call of [findProof]: it returns, and a
    multiplier that is at least 2 before it is at least 2 after it. *)
Lemma searchRounds_multiplier (roundsLeft : nat) (blockHeaderHash : Z)
  (b : PrimeBlock.PrimeBlock) :
  PrimeBlock.primeMultiplier b >= 2 ->
  exists r, searchRounds roundsLeft blockHeaderHash b = Ok r
            /\ match r with
               | PrimeMiner.Found b' | PrimeMiner.Retry b' =>
                 PrimeBlock.primeMultiplier b' >= 2
               end.
Proof.
  revert b. induction roundsLeft as [ | k IH]; intros b Hm.
  - eexists. split; [reflexivity | exact Hm].
  - cbn [PrimeMiner.searchRounds].
    destruct (searchRound_multiplier blockHeaderHash b) as (r & E & M).
    rewrite E. cbn [bind]. destruct r as [b' | b'].
    + eexists. split; [reflexivity | ]. cbn. lia.
    + apply IH. lia.
Qed.

End Mining.

(** C9. The multiplier of the block being mined is at least 2 in every
    state of the search: the constructor sets it to 2, a turn of the search
    loop replaces [m] by [210 * m] when it records a proof and by [m + 1]
    when it does not, the nonce loop leaves it alone; and the verifier
    rejects a block whose multiplier is below 2. *)
Theorem multiplier_at_least_2 :
  forall (hash : PrimeBlock.HeaderObject -> Z) (isProbablePrime : Z -> bool),
    (forall base,
       PrimeBlock.primeMultiplier (PrimeBlock.constructor base) = 2)
    /\ (forall blockHeaderHash b,
          exists r,
            PrimeMiner.searchRound isProbablePrime blockHeaderHash b = Ok r
            /\ match r with
               | PrimeMiner.Found b' =>
                 PrimeBlock.primeMultiplier b'
                 = 210 * PrimeBlock.primeMultiplier b
               | PrimeMiner.Retry b' =>
                 PrimeBlock.primeMultiplier b'
                 = PrimeBlock.primeMultiplier b + 1
               end)
    /\ (forall b,
          PrimeMiner.reachable hash isProbablePrime b ->
          PrimeBlock.primeMultiplier b >= 2)
    /\ (forall b,
          PrimeBlock.primeMultiplier b < 2 ->
          PrimeBlock.hasValidProof hash isProbablePrime b = Ok false).
Proof.
  intros hash ipp. split; [reflexivity | ]. split; [ | split].
  - intros h b. destruct (searchRound_multiplier ipp h b) as (r & E & M).
    exists r. split; [exact E | ]. destruct r; tauto.
  - apply reachable_multiplier.
  - apply hasValidProof_small_multiplier.
Qed.

(** ** Hard failures *)

Lemma findCunninghamChain_throw_invalid (isProbablePrime : Z -> bool)
  (n : Z) (chainType : string) (target : Z) (msg : string) :
  findCunninghamChain isProbablePrime n chainType target = Throw msg ->
  chainType <> CUNNINGHAM_CHAIN_1 /\ chainType <> CUNNINGHAM_CHAIN_2.
Proof.
  intros T.
  split; intros ->.
  - destruct (findCunninghamChain_bounds isProbablePrime n CUNNINGHAM_CHAIN_1
                target (or_introl eq_refl)) as (L & E & _).
    congruence.
  - destruct (findCunninghamChain_bounds isProbablePrime n CUNNINGHAM_CHAIN_2
                target (or_intror eq_refl)) as (L & E & _).
    congruence.
Qed.

(** The throw of the loop can be reached: at 2 the criterion holds for any
    tag, so with a tag of neither kind the step to the next member throws. *)
Lemma findCunninghamChain_throws (isProbablePrime : Z -> bool) :
  isProbablePrime 2 = true ->
  findCunninghamChain isProbablePrime 2 "" 2
  = Throw "Tried to test for Cunningham chain with invalid chain type.".
Proof.
  intros P. unfold findCunninghamChain, failsPrimality.
  rewrite P. change (fermatPrimalityTest 2) with true. cbn [negb orb].
  change (1 >=? 2) with false. cbv iota.
  rewrite chainLoop_unfold.
  reflexivity.
Qed.

Lemma findCunninghamChain_not_prime (isProbablePrime : Z -> bool)
  (n : Z) (chainType : string) (target : Z) :
  failsPrimality isProbablePrime n = true ->
  findCunninghamChain isProbablePrime n chainType target = Ok 0.
Proof.
  intros F. unfold findCunninghamChain. now rewrite F.
Qed.

Lemma buildChainArray_throw (origin len : Z) (chainType : string) :
  (exists msg, buildChainArray origin len chainType = Throw msg)
  <-> (len < 1
       \/ (chainType <> CUNNINGHAM_CHAIN_1
           /\ chainType <> CUNNINGHAM_CHAIN_2
           /\ chainType <> BITWIN_CHAIN)).
Proof.
  unfold buildChainArray.
  destruct (Z.ltb_spec len 1) as [C | C].
  - split; [now left | eauto].
  - destruct (String.eqb_spec chainType CUNNINGHAM_CHAIN_1) as [T1 | T1].
    { split; [intros [msg E]; discriminate | intros [? | (? & _)]];
        [lia | contradiction]. }
    destruct (String.eqb_spec chainType CUNNINGHAM_CHAIN_2) as [T2 | T2].
    { split; [intros [msg E]; discriminate | intros [? | (_ & ? & _)]];
        [lia | contradiction]. }
    destruct (String.eqb_spec chainType BITWIN_CHAIN) as [T3 | T3].
    { split; [intros [msg E]; discriminate | intros [? | (_ & _ & ?)]];
        [lia | contradiction]. }
    split; [now right | eauto].
Qed.

Lemma buildChain_throw (origin len : Z) (chainType : string) :
  (exists msg, buildChain origin len chainType = Throw msg)
  <-> (len < 1
       \/ (chainType <> CUNNINGHAM_CHAIN_1
           /\ chainType <> CUNNINGHAM_CHAIN_2
           /\ chainType <> BITWIN_CHAIN)).
Proof.
  rewrite <- (buildChainArray_throw origin). unfold buildChain.
  destruct (buildChainArray origin len chainType) as [l | msg]; cbn [bind].
  - split; intros [m E]; discriminate E.
  - split; intros _; eauto.
Qed.

(** C8. The search functions report a negative outcome as a value and throw
    only on a chain-type tag of neither kind: with a tag of the first or
    second kind [findCunninghamChain] returns a length, which is 0 when the
    number fails the primality tests, and if it throws the tag was of
    neither kind; [findPrimeChain] and the verifier always return; the two
    tests are total functions to booleans. [buildChain] aborts exactly when
    the requested length is below 1 or the tag is none of the three. *)
Theorem hard_failures_only_on_bad_input :
  forall (hash : PrimeBlock.HeaderObject -> Z) (isProbablePrime : Z -> bool),
    (forall n, exists v : bool, fermatPrimalityTest n = v)
    /\ (forall p chainType,
          exists v : bool, eulerLagrangePrimalityTest p chainType = v)
    /\ (forall n chainType target,
          chainType = CUNNINGHAM_CHAIN_1 \/ chainType = CUNNINGHAM_CHAIN_2 ->
          exists L,
            findCunninghamChain isProbablePrime n chainType target = Ok L
            /\ 0 <= L)
    /\ (forall n chainType target,
          failsPrimality isProbablePrime n = true ->
          findCunninghamChain isProbablePrime n chainType target = Ok 0)
    /\ (forall n chainType target msg,
          findCunninghamChain isProbablePrime n chainType target = Throw msg ->
          chainType <> CUNNINGHAM_CHAIN_1 /\ chainType <> CUNNINGHAM_CHAIN_2)
    /\ (forall origin target,
          exists found,
            findPrimeChain isProbablePrime origin target = Ok found
            /\ 0 <= chainLength found)
    /\ (forall b,
          exists v : bool,
            PrimeBlock.hasValidProof hash isProbablePrime b = Ok v)
    /\ (forall origin len chainType,
          (exists msg, buildChain origin len chainType = Throw msg)
          <-> (len < 1
               \/ (chainType <> CUNNINGHAM_CHAIN_1
                   /\ chainType <> CUNNINGHAM_CHAIN_2
                   /\ chainType <> BITWIN_CHAIN))).
Proof.
  intros hash ipp.
  split; [intros; eexists; reflexivity | ].
  split; [intros; eexists; reflexivity | ].
  split.
  { intros n chainType target V.
    destruct (findCunninghamChain_bounds ipp n chainType target V)
      as (L & E & P & _).
    exists L. now split. }
  split; [apply findCunninghamChain_not_prime | ].
  split; [apply findCunninghamChain_throw_invalid | ].
  split; [apply findPrimeChain_total | ].
  split; [apply hasValidProof_total | ].
  apply buildChain_throw.
Qed.

(** ** The fixtures of the test suite *)

(** Trial division accepts the primes and nothing else. *)
Lemma trialDivision_prime (p : Z) : trialDivision p = true -> Z.prime p.
Proof.
  unfold trialDivision. intros H.
  apply andb_true_iff in H. destruct H as [H1 Hall].
  apply Z.ltb_lt in H1. split; [exact H1 | ].
  intros n Hn Hdiv.
  rewrite forallb_forall in Hall.
  assert (Hin : In n (map Z.of_nat (seq 2 (Z.to_nat p - 2)))).
  { apply in_map_iff. exists (Z.to_nat n). split; [lia | ].
    apply in_seq. lia. }
  apply Hall in Hin. apply negb_true_iff, Z.eqb_neq in Hin.
  apply Hin, Z.mod_divide; [lia | exact Hdiv].
Qed.

Lemma trialDivision_complete : complete trialDivision.
Proof.
  intros p [H1 Hp]. unfold trialDivision.
  apply andb_true_iff. split; [apply Z.ltb_lt; exact H1 | ].
  apply forallb_forall. intros d Hd.
  apply in_map_iff in Hd. destruct Hd as (k & <- & Hk).
  apply in_seq in Hk.
  apply negb_true_iff, Z.eqb_neq. intros Hmod.
  apply Z.mod_divide in Hmod; [ | lia].
  apply (Hp (Z.of_nat k)); [lia | exact Hmod].
Qed.

Lemma prime_17 : Z.prime 17.
Proof. apply trialDivision_prime. vm_compute. reflexivity. Qed.

Lemma prime_19 : Z.prime 19.
Proof. apply trialDivision_prime. vm_compute. reflexivity. Qed.

Lemma prime_37 : Z.prime 37.
Proof. apply trialDivision_prime. vm_compute. reflexivity. Qed.

Lemma prime_73 : Z.prime 73.
Proof. apply trialDivision_prime. vm_compute. reflexivity. Qed.

Section Fixtures.

Variable isProbablePrime : Z -> bool.
Hypothesis primes_pass : complete isProbablePrime.

Local Abbreviation findCunninghamChain :=
  (Prime.findCunninghamChain isProbablePrime).
Local Abbreviation findPrimeChain := (Prime.findPrimeChain isProbablePrime).

Lemma passes (p : Z) :
  Z.prime p -> fermatPrimalityTest p = true ->
  failsPrimality isProbablePrime p = false.
Proof.
  intros Hp Hf. unfold failsPrimality.
  now rewrite Hf, (primes_pass p Hp).
Qed.

(** One turn of the loop at a known member. *)
Ltac turn :=
  rewrite chainLoop_unfold;
  match goal with
  | |- context [eulerLagrangePrimalityTest ?p ?t] =>
    let v := eval vm_compute in (eulerLagrangePrimalityTest p t) in
    change (eulerLagrangePrimalityTest p t) with v
  end;
  cbv iota;
  try match goal with
      | |- context [nextInChain ?p ?t] =>
        let v := eval vm_compute in (nextInChain p t) in
        change (nextInChain p t) with v
      end;
  cbv iota beta.

Lemma chain_from_17 (target : Z) :
  findCunninghamChain 17 CUNNINGHAM_CHAIN_1 target = Ok 1.
Proof.
  unfold Prime.findCunninghamChain.
  rewrite (passes 17 prime_17 eq_refl).
  destruct (1 >=? target); [reflexivity | ].
  turn. reflexivity.
Qed.

Lemma chain_from_19 (target : Z) :
  findCunninghamChain 19 CUNNINGHAM_CHAIN_2 target
  = Ok (Z.max 1 (Z.min target 3)).
Proof.
  unfold Prime.findCunninghamChain.
  rewrite (passes 19 prime_19 eq_refl).
  destruct (Z.le_gt_cases target 1) as [T1 | T1].
  { rewrite geb_true by exact T1. f_equal. lia. }
  rewrite geb_false by lia.
  turn. rewrite (passes 37 prime_37 eq_refl).
  destruct (Z.le_gt_cases target 2) as [T2 | T2].
  { rewrite geb_true by lia. f_equal. lia. }
  rewrite geb_false by lia.
  turn. rewrite (passes 73 prime_73 eq_refl).
  destruct (Z.le_gt_cases target 3) as [T3 | T3].
  { rewrite geb_true by lia. f_equal. lia. }
  rewrite geb_false by lia.
  turn. f_equal. lia.
Qed.

Lemma chain_from_composite (n : Z) (chainType : string) (target : Z) :
  fermatPrimalityTest n = false ->
  findCunninghamChain n chainType target = Ok 0.
Proof.
  intros F. unfold Prime.findCunninghamChain, failsPrimality.
  now rewrite F.
Qed.

Lemma fixture_18 (target : Z) :
  findPrimeChain 18 target
  = Ok (if target <=? 1 then mkPrimeChain 2 BITWIN_CHAIN
        else if target =? 2 then mkPrimeChain 2 CUNNINGHAM_CHAIN_2
        else mkPrimeChain 3 CUNNINGHAM_CHAIN_2).
Proof.
  unfold Prime.findPrimeChain.
  change (subtract 18 BI_ONE) with 17. change (add 18 BI_ONE) with 19.
  rewrite chain_from_17, chain_from_19. cbn [bind].
  destruct (Z.leb_spec target 1) as [T1 | T1].
  { replace (Z.max 1 (Z.min target 3)) with 1 by lia. reflexivity. }
  destruct (Z.eqb_spec target 2) as [T2 | T2].
  { replace (Z.max 1 (Z.min target 3)) with 2 by lia. reflexivity. }
  replace (Z.max 1 (Z.min target 3)) with 3 by lia. reflexivity.
Qed.

Lemma fixture_17 (target : Z) :
  findPrimeChain 17 target = Ok (mkPrimeChain 0 CUNNINGHAM_CHAIN_1).
Proof.
  unfold Prime.findPrimeChain.
  change (subtract 17 BI_ONE) with 16. change (add 17 BI_ONE) with 18.
  rewrite !chain_from_composite by (vm_compute; reflexivity).
  reflexivity.
Qed.

End Fixtures.

(** C6, as the code has it. With a test that passes every prime: from
    origin 18 [findPrimeChain] returns length 3, of the second kind
    (19, 37, 73), for every target of 3 or more, and length 2 for every
    target below 3, where the early return stops both searches; from
    origin 17 it returns length 0 for every target, 16 and 18 failing the
    Fermat test. *)
Theorem findPrimeChain_fixtures :
  forall isProbablePrime : Z -> bool,
    complete isProbablePrime ->
    (forall target,
       3 <= target ->
       findPrimeChain isProbablePrime 18 target
       = Ok (mkPrimeChain 3 CUNNINGHAM_CHAIN_2))
    /\ (forall target,
          target < 3 ->
          exists found,
            findPrimeChain isProbablePrime 18 target = Ok found
            /\ chainLength found = 2)
    /\ (forall target,
          findPrimeChain isProbablePrime 17 target
          = Ok (mkPrimeChain 0 CUNNINGHAM_CHAIN_1)).
Proof.
  intros ipp Hc. split; [ | split].
  - intros target Ht. rewrite (fixture_18 ipp Hc).
    destruct (Z.leb_spec target 1); [lia | ].
    destruct (Z.eqb_spec target 2); [lia | reflexivity].
  - intros target Ht. rewrite (fixture_18 ipp Hc). eexists.
    split; [reflexivity | ].
    destruct (Z.leb_spec target 1); [reflexivity | ].
    destruct (Z.eqb_spec target 2); [reflexivity | lia].
  - apply (fixture_17 ipp).
Qed.

(** ** The expansion of a chain *)

(** The loop of the first kind appends the decimal numerals of the members
    after [origin], as many as turns are left. *)
Lemma firstLoop_members (len i origin : Z) (primeChain : list string) :
  firstLoop len i origin primeChain
  = primeChain
    ++ map toString
         (Reference.members Reference.First
            (Reference.step origin Reference.First) (Z.to_nat (len - i))).
Proof.
  funelim (firstLoop len i origin primeChain); clear Heqcall.
  - match goal with
    | again : (?j <? ?n) = true, IH : _ = _ ++ _ |- _ =>
      pose proof (proj1 (Z.ltb_lt _ _) again) as Hlt;
      replace (Z.to_nat (n - j)) with (S (Z.to_nat (n - (j + 1)))) by lia;
      rewrite IH
    end.
    unfold push. rewrite <- app_assoc. cbn.
    unfold add, multiply, BI_TWO, BI_ONE.
    now replace (origin * 2 + 1) with (2 * origin + 1) by lia.
  - match goal with
    | done : (?j <? ?n) = false |- _ =>
      pose proof (proj1 (Z.ltb_ge _ _) done) as Hge;
      replace (Z.to_nat (n - j)) with O by lia
    end.
    cbn. now rewrite app_nil_r.
Qed.

Lemma secondLoop_members (len i origin : Z) (primeChain : list string) :
  secondLoop len i origin primeChain
  = primeChain
    ++ map toString
         (Reference.members Reference.Second
            (Reference.step origin Reference.Second) (Z.to_nat (len - i))).
Proof.
  funelim (secondLoop len i origin primeChain); clear Heqcall.
  - match goal with
    | again : (?j <? ?n) = true, IH : _ = _ ++ _ |- _ =>
      pose proof (proj1 (Z.ltb_lt _ _) again) as Hlt;
      replace (Z.to_nat (n - j)) with (S (Z.to_nat (n - (j + 1)))) by lia;
      rewrite IH
    end.
    unfold push. rewrite <- app_assoc. cbn.
    unfold subtract, multiply, BI_TWO, BI_ONE.
    now replace (origin * 2 - 1) with (2 * origin - 1) by lia.
  - match goal with
    | done : (?j <? ?n) = false |- _ =>
      pose proof (proj1 (Z.ltb_ge _ _) done) as Hge;
      replace (Z.to_nat (n - j)) with O by lia
    end.
    cbn. now rewrite app_nil_r.
Qed.

Lemma members_length (k : Reference.Kind) (n : Z) (count : nat) :
  List.length (Reference.members k n count) = count.
Proof.
  revert n. induction count as [ | c IH]; intros n; cbn; [ | rewrite IH];
    reflexivity.
Qed.

(** For the two Cunningham kinds the expansion is the list the searcher
    walks: [len] members, from [origin - 1] by 2n+1 or from [origin + 1] by
    2n-1. *)
Lemma buildChainArray_cunningham (origin len : Z) (k : Reference.Kind) :
  1 <= len ->
  buildChainArray origin len (Reference.tag k)
  = Ok (map toString
          (Reference.members k
             (match k with
              | Reference.First => origin - 1
              | Reference.Second => origin + 1
              end) (Z.to_nat len))).
Proof.
  intros Hlen. unfold buildChainArray.
  destruct (Z.ltb_spec len 1) as [C | _]; [lia | ].
  replace (Z.to_nat len) with (S (Z.to_nat (len - 1))) by lia.
  destruct k; unfold Reference.tag; decide_tags.
  - rewrite firstLoop_members. reflexivity.
  - rewrite secondLoop_members. reflexivity.
Qed.

(** The loop of the bi-twin chain, counted: from an even [i] it appends
    [len - i] numerals when [len] is even and [len - i + 2] when [len] is
    odd, two more than are left to write. *)
Lemma bitwinLoop_length (len i first second : Z) (primeChain : list string) :
  Z.even i = true -> i <= len + 1 ->
  Z.of_nat (List.length (bitwinLoop len i first second primeChain))
  = Z.of_nat (List.length primeChain)
    + (if i <? len then if Z.even len then len - i else len - i + 2 else 0).
Proof.
  funelim (bitwinLoop len i first second primeChain); clear Heqcall;
    intros Hi Hle.
  - match goal with
    | again : (i <? ?n) = true,
      IHlast : Z.even (i + 2) = true -> _ ->
               Z.of_nat (List.length (bitwinLoop _ _ (add _ _) _ (push _ _))) = _,
      IHmore : Z.even (i + 2) = true -> _ ->
               Z.of_nat (List.length (bitwinLoop _ _ _ _ _)) = _ |- _ =>
      rename n into total; rewrite again;
      pose proof (proj1 (Z.ltb_lt _ _) again) as Hlt;
      assert (Hi2 : Z.even (i + 2) = true)
        by (rewrite Z.even_add, Hi; reflexivity);
      destruct (Z.eqb_spec (i + 1) total) as [Hlast | Hmore];
      [ rewrite IHlast by (assumption || lia)
      | rewrite IHmore by (assumption || lia) ]
    end.
    + assert (Ev : Z.even total = false).
      { subst total. rewrite Z.even_add, Hi. reflexivity. }
      rewrite Ev.
      destruct (Z.ltb_spec (i + 2) total); [lia | ].
      unfold push. rewrite !length_app. cbn [List.length]. lia.
    + unfold push. rewrite !length_app. cbn [List.length].
      destruct (Z.ltb_spec (i + 2) total) as [L | L].
      * destruct (Z.even total); lia.
      * assert (Ev : Z.even total = true).
        { replace total with (i + 2) by lia. exact Hi2. }
        rewrite Ev. lia.
  - match goal with
    | done : (i <? _) = false |- _ => rewrite done
    end.
    lia.
Qed.

(** For the bi-twin chain an odd requested length [len] gives [len + 2]
    numbers from 3 on, and 2 numbers for 1. *)
Lemma buildChainArray_bitwin_odd (origin len : Z) :
  1 <= len -> Z.odd len = true ->
  exists primeChain,
    buildChainArray origin len BITWIN_CHAIN = Ok primeChain
    /\ Z.of_nat (List.length primeChain) = (if len =? 1 then 2 else len + 2).
Proof.
  intros Hlen Hodd. unfold buildChainArray.
  destruct (Z.ltb_spec len 1) as [C | _]; [lia | ].
  decide_tags. eexists. split; [reflexivity | ].
  rewrite bitwinLoop_length by (reflexivity || lia).
  unfold push. cbn [List.length app].
  assert (Ev : Z.even len = false)
    by (rewrite <- Z.negb_odd, Hodd; reflexivity).
  rewrite Ev.
  destruct (Z.eqb_spec len 1) as [-> | N1]; [reflexivity | ].
  destruct (Z.ltb_spec 2 len) as [L | L]; [lia | ].
  assert (len = 2) by lia. subst len. discriminate.
Qed.

Lemma buildChainArray_bitwin_even (origin len : Z) :
  1 <= len -> Z.even len = true ->
  exists primeChain,
    buildChainArray origin len BITWIN_CHAIN = Ok primeChain
    /\ Z.of_nat (List.length primeChain) = len.
Proof.
  intros Hlen Hev. unfold buildChainArray.
  destruct (Z.ltb_spec len 1) as [C | _]; [lia | ].
  decide_tags. eexists. split; [reflexivity | ].
  rewrite bitwinLoop_length by (reflexivity || lia).
  unfold push. cbn [List.length app]. rewrite Hev.
  destruct (Z.ltb_spec 2 len) as [L | L]; [lia | ].
  assert (len <> 1) by (intros ->; discriminate). lia.
Qed.

(** What the searcher counted it confirmed: when the loop of section 4.3 is
    entered at a member that passed the primality tests, the members up to
    the length it returns all passed them. *)
Lemma extend_members_pass (tester : Z -> bool)
  (criterion : Z -> Reference.Kind -> bool) (k : Reference.Kind)
  (target n len : Z) :
  tester n = true ->
  len <= Reference.extendWith tester criterion k target n len
  /\ Forall (fun m => tester m = true)
       (Reference.members k n
          (S (Z.to_nat (Reference.extendWith tester criterion k target n len
                        - len)))).
Proof.
  funelim (Reference.extendWith tester criterion k target n len);
    clear Heqcall; intros Hn.
  - split; [lia | ]. rewrite Z.sub_diag. cbn. repeat constructor. exact Hn.
  - split; [lia | ]. rewrite Z.sub_diag. cbn. repeat constructor. exact Hn.
  - split; [lia | ].
    match goal with
    | |- context [Z.to_nat (?c + 1 - ?c)] =>
      replace (Z.to_nat (c + 1 - c)) with 1%nat by lia
    end.
    cbn. repeat constructor; assumption.
  - match goal with
    | IH : _ -> ?c + 1 <= ?L /\ Forall _ _ |- _ =>
      destruct (IH Heq) as [Hle Hall]; split; [lia | ];
      replace (Z.to_nat (L - c)) with (S (Z.to_nat (L - (c + 1)))) by lia
    end.
    cbn [Reference.members]. constructor; assumption.
Qed.

Lemma findCunninghamChain_members_pass (isProbablePrime : Z -> bool)
  (n : Z) (k : Reference.Kind) (target L : Z) :
  findCunninghamChain isProbablePrime n (Reference.tag k) target = Ok L ->
  Forall (fun m => failsPrimality isProbablePrime m = false)
    (Reference.members k n (Z.to_nat L)).
Proof.
  rewrite findCunninghamChain_tag. intros [= <-].
  unfold Reference.findChainWith.
  destruct (passesPrimality isProbablePrime n) eqn:Hn; cbn [negb];
    [ | constructor].
  assert (Hall : forall l,
            Forall (fun m => passesPrimality isProbablePrime m = true) l ->
            Forall (fun m => failsPrimality isProbablePrime m = false) l).
  { intros l. apply Forall_impl. intros m Hm.
    now rewrite failsPrimality_passes, Hm. }
  apply Hall.
  destruct (target <=? 1).
  - cbn. repeat constructor. exact Hn.
  - destruct (extend_members_pass (passesPrimality isProbablePrime)
                criterionOf k target n 1 Hn) as [Hle Hpass].
    replace (Z.to_nat (Reference.extendWith (passesPrimality isProbablePrime)
                         criterionOf k target n 1))
      with (S (Z.to_nat (Reference.extendWith
                           (passesPrimality isProbablePrime) criterionOf
                           k target n 1 - 1)))
      by lia.
    exact Hpass.
Qed.

(** The early return hides the rest of a chain: from 2 the chain of the
    first kind 2, 5, 11, 23, 47 has five members, and with target 3 the
    search reports 3. *)
Lemma findCunninghamChain_cap_example :
  findCunninghamChain trialDivision 2 CUNNINGHAM_CHAIN_1 3 = Ok 3
  /\ findCunninghamChain trialDivision 2 CUNNINGHAM_CHAIN_1 100 = Ok 5.
Proof.
  split; vm_compute; reflexivity.
Qed.

(** C5, where the code departs from it. From origin 6 the selector finds a
    bi-twin chain of length 5 (5, 7, 11, 13, 23); asked to expand it,
    [buildChain] writes seven numbers, the composite 25 and 47 after the
    five. Asked for length 3 it writes five. The expansion of the first
    kind writes as many as it is asked for. *)
Theorem buildChain_bitwin_odd_length :
  findPrimeChain trialDivision 6 5 = Ok (mkPrimeChain 5 BITWIN_CHAIN)
  /\ buildChain 6 5 BITWIN_CHAIN = Ok "5,7,11,13,23,25,47"%string
  /\ buildChainArray 6 5 BITWIN_CHAIN
     = Ok ["5"; "7"; "11"; "13"; "23"; "25"; "47"]%string
  /\ buildChain 6 3 BITWIN_CHAIN = Ok "5,7,11,13,23"%string
  /\ buildChain 6 3 CUNNINGHAM_CHAIN_1 = Ok "5,11,23"%string.
Proof.
  repeat split; vm_compute; reflexivity.
Qed.

(** * Further properties of the engine *)

(** ** The target only truncates the search *)

(** X1. For a chain type of the first or second kind and targets
    [1 <= lower <= target], the search with the lower target returns the
    length the search with the higher target returns, cut at the lower
    target: the target never changes which numbers are tested, only where
    the walk stops. *)
Theorem findCunninghamChain_lower_target :
  forall (isProbablePrime : Z -> bool) (n : Z) (chainType : string)
         (target lower : Z),
    chainType = CUNNINGHAM_CHAIN_1 \/ chainType = CUNNINGHAM_CHAIN_2 ->
    1 <= lower <= target ->
    exists L,
      findCunninghamChain isProbablePrime n chainType target = Ok L
      /\ findCunninghamChain isProbablePrime n chainType lower
         = Ok (Z.min L lower).
Proof.
  intros ipp n chainType target lower Hvalid Hlow.
  destruct (findCunninghamChain_truncate ipp n chainType target lower Hvalid
              ltac:(lia)) as (L & E & _ & _ & E').
  exists L. split; [exact E | ].
  rewrite E'. f_equal. lia.
Qed.

(** ** What the miner records the verifier accepts *)

(** [findPrimeChain] in terms of the two lengths it computes. *)
Lemma findPrimeChain_lengths (isProbablePrime : Z -> bool)
  (origin target : Z) :
  exists L1 L2,
    findCunninghamChain isProbablePrime (origin - 1) CUNNINGHAM_CHAIN_1 target
    = Ok L1
    /\ findCunninghamChain isProbablePrime (origin + 1) CUNNINGHAM_CHAIN_2
         target = Ok L2
    /\ 0 <= L1 /\ 0 <= L2
    /\ (1 <= target -> L1 <= target /\ L2 <= target)
    /\ findPrimeChain isProbablePrime origin target
       = Ok (if (L2 <=? L1) && ((if L2 <? L1 then L2 * 2 + 1 else L1 * 2) <=? L1)
             then mkPrimeChain L1 CUNNINGHAM_CHAIN_1
             else if (L1 <=? L2)
                     && ((if L2 <? L1 then L2 * 2 + 1 else L1 * 2) <=? L2)
             then mkPrimeChain L2 CUNNINGHAM_CHAIN_2
             else mkPrimeChain (if L2 <? L1 then L2 * 2 + 1 else L1 * 2)
                    BITWIN_CHAIN).
Proof.
  destruct (findCunninghamChain_bounds isProbablePrime (origin - 1)
              CUNNINGHAM_CHAIN_1 target (or_introl eq_refl))
    as (L1 & E1 & P1 & B1).
  destruct (findCunninghamChain_bounds isProbablePrime (origin + 1)
              CUNNINGHAM_CHAIN_2 target (or_intror eq_refl))
    as (L2 & E2 & P2 & B2).
  exists L1, L2. repeat split; try assumption; try (now auto).
  unfold findPrimeChain, subtract, add, BI_ONE. rewrite E1, E2. cbn [bind].
  cbv zeta. rewrite !Z.geb_leb, Z.gtb_ltb.
  repeat match goal with
         | |- (if ?c then _ else _) = _ => destruct c
         end; reflexivity.
Qed.

Lemma hashHeader_setProof (hash : PrimeBlock.HeaderObject -> Z)
  (b : PrimeBlock.PrimeBlock) (m : Z) (found : PrimeChain) :
  PrimeBlock.hashHeader hash (PrimeMiner.setProof b m found)
  = PrimeBlock.hashHeader hash b.
Proof. reflexivity. Qed.

Lemma searchRound_found (isProbablePrime : Z -> bool) (blockHeaderHash : Z)
  (b b' : PrimeBlock.PrimeBlock) :
  PrimeMiner.searchRound isProbablePrime blockHeaderHash b
  = Ok (PrimeMiner.Found b') ->
  exists found,
    findPrimeChain isProbablePrime
      (blockHeaderHash * (210 * PrimeBlock.primeMultiplier b))
      (PrimeBlock.target (PrimeBlock.super b)) = Ok found
    /\ chainLength found >= PrimeBlock.target (PrimeBlock.super b)
    /\ b' = PrimeMiner.setProof b (210 * PrimeBlock.primeMultiplier b) found.
Proof.
  unfold PrimeMiner.searchRound, multiply, BI_BASE_PRIMORIAL.
  destruct (findPrimeChain _ _ _) as [found | msg]; cbn [bind];
    [ | discriminate].
  destruct (Z.geb_spec (chainLength found)
              (PrimeBlock.target (PrimeBlock.super b))) as [C | C];
    [ | discriminate].
  intros [= <-]. exists found. repeat split. lia.
Qed.

(** The verifier on a block whose header hash and multiplier pass its first
    checks, by chain type. *)
Lemma hasValidProof_branch (hash : PrimeBlock.HeaderObject -> Z)
  (isProbablePrime : Z -> bool) (b : PrimeBlock.PrimeBlock) :
  PrimeBlock.hashHeader hash b >= 2 ^ 255 ->
  PrimeBlock.primeChainLength b >= PrimeBlock.target (PrimeBlock.super b) ->
  PrimeBlock.primeMultiplier b >= 2 ->
  let target := PrimeBlock.target (PrimeBlock.super b) in
  let origin := PrimeBlock.hashHeader hash b * PrimeBlock.primeMultiplier b in
  PrimeBlock.hasValidProof hash isProbablePrime b
  = if String.eqb (PrimeBlock.primeChainType b) CUNNINGHAM_CHAIN_1 then
      L <- findCunninghamChain isProbablePrime (origin - 1)
             CUNNINGHAM_CHAIN_1 target ;;
      Ok (target <=? L)
    else if String.eqb (PrimeBlock.primeChainType b) CUNNINGHAM_CHAIN_2 then
      L <- findCunninghamChain isProbablePrime (origin + 1)
             CUNNINGHAM_CHAIN_2 target ;;
      Ok (target <=? L)
    else if String.eqb (PrimeBlock.primeChainType b) BITWIN_CHAIN then
      L1 <- findCunninghamChain isProbablePrime (origin - 1)
              CUNNINGHAM_CHAIN_1 (PrimeBlock.Math_ceil_half target) ;;
      L2 <- findCunninghamChain isProbablePrime (origin + 1)
              CUNNINGHAM_CHAIN_2 (PrimeBlock.Math_floor_half target) ;;
      Ok (target <=? L1 + L2)
    else Ok false.
Proof.
  intros Hh Hl Hm target origin. unfold PrimeBlock.hasValidProof.
  rewrite !compareTo_lt0.
  unfold multiply, subtract, add, BI_ONE, BI_TWO, BLOCK_HEADER_HASH_MIN,
    shiftLeft.
  rewrite Z.shiftl_1_l.
  destruct (Z.ltb_spec (PrimeBlock.hashHeader hash b) (2 ^ 255)); [lia | ].
  destruct (Z.ltb_spec (PrimeBlock.primeChainLength b)
              (PrimeBlock.target (PrimeBlock.super b))); [lia | ].
  destruct (Z.ltb_spec (PrimeBlock.primeMultiplier b) 2); [lia | ].
  fold target. fold origin.
  assert (Hneg : forall x, (if x <? target then Ok false else Ok true)
                           = Ok (target <=? x)).
  { intros x. destruct (Z.ltb_spec x target), (Z.leb_spec target x);
      (reflexivity || lia). }
  destruct (String.eqb _ CUNNINGHAM_CHAIN_1).
  { destruct (findCunninghamChain _ _ _ _); cbn [bind]; [apply Hneg | reflexivity]. }
  destruct (String.eqb _ CUNNINGHAM_CHAIN_2).
  { destruct (findCunninghamChain _ _ _ _); cbn [bind]; [apply Hneg | reflexivity]. }
  destruct (String.eqb _ BITWIN_CHAIN); [ | reflexivity].
  destruct (findCunninghamChain _ _ CUNNINGHAM_CHAIN_1 _); cbn [bind];
    [ | reflexivity].
  destruct (findCunninghamChain _ _ CUNNINGHAM_CHAIN_2 _); cbn [bind];
    [apply Hneg | reflexivity].
Qed.

(** A block given the proof the selector found for its origin passes the
    verifier. *)
Lemma setProof_valid (hash : PrimeBlock.HeaderObject -> Z)
  (isProbablePrime : Z -> bool) (b : PrimeBlock.PrimeBlock)
  (found : PrimeChain) :
  PrimeBlock.hashHeader hash b >= 2 ^ 255 ->
  PrimeBlock.primeMultiplier b >= 1 ->
  findPrimeChain isProbablePrime
    (PrimeBlock.hashHeader hash b * (210 * PrimeBlock.primeMultiplier b))
    (PrimeBlock.target (PrimeBlock.super b)) = Ok found ->
  chainLength found >= PrimeBlock.target (PrimeBlock.super b) ->
  PrimeBlock.hasValidProof hash isProbablePrime
    (PrimeMiner.setProof b (210 * PrimeBlock.primeMultiplier b) found)
  = Ok true.
Proof.
  intros Hh Hm Efound Hlen. revert Efound Hlen.
  set (ipp := isProbablePrime).
  set (T := PrimeBlock.target (PrimeBlock.super b)).
  set (origin := PrimeBlock.hashHeader hash b
                 * (210 * PrimeBlock.primeMultiplier b)).
  intros Efound Hlen.
  destruct (findPrimeChain_lengths ipp origin T)
    as (L1 & L2 & E1 & E2 & P1 & P2 & B & Esel).
  rewrite Esel in Efound. injection Efound as Efound.
  rewrite hasValidProof_branch;
    rewrite ?hashHeader_setProof;
    cbn [PrimeMiner.setProof PrimeBlock.primeChainLength
         PrimeBlock.primeMultiplier PrimeBlock.primeChainType
         PrimeBlock.super]; try lia.
  fold T. fold origin.
  destruct ((L2 <=? L1) && ((if L2 <? L1 then L2 * 2 + 1 else L1 * 2) <=? L1))
    eqn:C1.
  { subst found. cbn [chainType chainLength] in *. decide_tags.
    rewrite E1. cbn [bind]. f_equal. apply Z.leb_le. lia. }
  destruct ((L1 <=? L2) && ((if L2 <? L1 then L2 * 2 + 1 else L1 * 2) <=? L2))
    eqn:C2.
  { subst found. cbn [chainType chainLength] in *. decide_tags.
    rewrite E2. cbn [bind]. f_equal. apply Z.leb_le. lia. }
  subst found. cbn [chainType chainLength] in *. decide_tags.
  pose proof (half_sum T) as Hsum. pose proof (half_bounds T) as Hhalf.
  destruct (Z.le_gt_cases 1 T) as [T1 | T0].
  - destruct (findCunninghamChain_truncate ipp (origin - 1) CUNNINGHAM_CHAIN_1
                T (PrimeBlock.Math_ceil_half T) (or_introl eq_refl)
                ltac:(lia)) as (L1' & E1' & _ & _ & Ec).
    destruct (findCunninghamChain_truncate ipp (origin + 1) CUNNINGHAM_CHAIN_2
                T (PrimeBlock.Math_floor_half T) (or_intror eq_refl)
                ltac:(lia)) as (L2' & E2' & _ & _ & Ef).
    assert (L1' = L1) by congruence. assert (L2' = L2) by congruence.
    subst L1' L2'. rewrite Ec, Ef. cbn [bind]. f_equal. apply Z.leb_le.
    destruct (Z.ltb_spec L2 L1); lia.
  - destruct (findCunninghamChain_bounds ipp (origin - 1) CUNNINGHAM_CHAIN_1
                (PrimeBlock.Math_ceil_half T) (or_introl eq_refl))
      as (l1 & El1 & Pl1 & _).
    destruct (findCunninghamChain_bounds ipp (origin + 1) CUNNINGHAM_CHAIN_2
                (PrimeBlock.Math_floor_half T) (or_intror eq_refl))
      as (l2 & El2 & Pl2 & _).
    rewrite El1, El2. cbn [bind]. f_equal. apply Z.leb_le. lia.
Qed.

(** X2. Whatever proof a turn of the miner's search records, the verifier
    accepts: when the header hash has reached the minimum and the multiplier
    is at least 1, the block that [findProof] announces passes
    [hasValidProof], for each of the three chain types and every target. *)
Theorem recorded_proof_verifies :
  forall (hash : PrimeBlock.HeaderObject -> Z) (isProbablePrime : Z -> bool)
         (b b' : PrimeBlock.PrimeBlock),
    PrimeBlock.hashHeader hash b >= 2 ^ 255 ->
    PrimeBlock.primeMultiplier b >= 1 ->
    PrimeMiner.searchRound isProbablePrime (PrimeBlock.hashHeader hash b) b
    = Ok (PrimeMiner.Found b') ->
    PrimeBlock.hasValidProof hash isProbablePrime b' = Ok true.
Proof.
  intros hash ipp b b' Hh Hm Hfound.
  destruct (searchRound_found ipp _ b b' Hfound)
    as (found & Efound & Hlen & ->).
  apply setProof_valid; assumption.
Qed.

(** The search at the sample block: one turn finds a chain of the first
    kind of length 1. *)
Lemma sampleSearch_found :
  PrimeMiner.searchRound acceptAll
    (PrimeBlock.hashHeader sampleHash sampleSearch) sampleSearch
  = Ok (PrimeMiner.Found
          (PrimeMiner.setProof sampleSearch (210 * 24)
             (mkPrimeChain 1 CUNNINGHAM_CHAIN_1))).
Proof. vm_compute. reflexivity. Qed.

Lemma sampleBlock_valid :
  PrimeBlock.hasValidProof sampleHash acceptAll sampleBlock = Ok true.
Proof. vm_compute. reflexivity. Qed.

(** ** A valid proof under a lower target *)

Lemma half_mono (t T : Z) :
  t <= T ->
  PrimeBlock.Math_ceil_half t <= PrimeBlock.Math_ceil_half T
  /\ PrimeBlock.Math_floor_half t <= PrimeBlock.Math_floor_half T.
Proof.
  intros H. unfold PrimeBlock.Math_ceil_half, PrimeBlock.Math_floor_half.
  split; apply Z.div_le_mono; lia.
Qed.

(** X3. A block the verifier accepts it also accepts under any lower
    target, and with any other claimed chain length that is at least that
    target: validity only depends on the claimed length through the
    comparison with the target, and lowering the target never invalidates a
    proof. *)
Theorem valid_under_lower_target :
  forall (hash : PrimeBlock.HeaderObject -> Z) (isProbablePrime : Z -> bool)
         (b : PrimeBlock.PrimeBlock) (lower claimed : Z),
    PrimeBlock.hasValidProof hash isProbablePrime b = Ok true ->
    lower <= PrimeBlock.target (PrimeBlock.super b) ->
    lower <= claimed ->
    PrimeBlock.hasValidProof hash isProbablePrime
      (withChainLength (withTarget b lower) claimed) = Ok true.
Proof.
  intros hash ipp b lower claimed Hvalid Hlow Hclaim.
  destruct (hasValidProof_sound hash ipp b Hvalid) as (Hh & Hl & Hm & Htype).
  set (T := PrimeBlock.target (PrimeBlock.super b)) in *.
  set (origin := PrimeBlock.hashHeader hash b * PrimeBlock.primeMultiplier b)
    in *.
  rewrite hasValidProof_branch;
    change (PrimeBlock.hashHeader hash
              (withChainLength (withTarget b lower) claimed))
      with (PrimeBlock.hashHeader hash b);
    cbn [withChainLength withTarget PrimeBlock.primeChainLength
         PrimeBlock.primeMultiplier PrimeBlock.primeChainType
         PrimeBlock.super PrimeBlock.target]; try lia.
  fold origin.
  destruct Htype as [(Ht & L & E & HL) | [(Ht & L & E & HL)
                                         | (Ht & L1 & L2 & E1 & E2 & HL)]];
    rewrite Ht; decide_tags.
  - destruct (findCunninghamChain_truncate ipp (origin - 1) CUNNINGHAM_CHAIN_1
                T lower (or_introl eq_refl) Hlow) as (L' & E' & _ & _ & Ec).
    assert (L' = L) by congruence. subst L'.
    rewrite Ec. cbn [bind]. f_equal. apply Z.leb_le. lia.
  - destruct (findCunninghamChain_truncate ipp (origin + 1) CUNNINGHAM_CHAIN_2
                T lower (or_intror eq_refl) Hlow) as (L' & E' & _ & _ & Ec).
    assert (L' = L) by congruence. subst L'.
    rewrite Ec. cbn [bind]. f_equal. apply Z.leb_le. lia.
  - destruct (half_mono lower T Hlow) as [Hc Hf].
    pose proof (half_sum T) as HsT. pose proof (half_bounds T) as HbT.
    pose proof (half_sum lower) as Hsl. pose proof (half_bounds lower) as Hbl.
    destruct (findCunninghamChain_truncate ipp (origin - 1) CUNNINGHAM_CHAIN_1
                (PrimeBlock.Math_ceil_half T) (PrimeBlock.Math_ceil_half lower)
                (or_introl eq_refl) Hc) as (L1' & E1' & P1 & B1 & Ec).
    destruct (findCunninghamChain_truncate ipp (origin + 1) CUNNINGHAM_CHAIN_2
                (PrimeBlock.Math_floor_half T)
                (PrimeBlock.Math_floor_half lower)
                (or_intror eq_refl) Hf) as (L2' & E2' & P2 & B2 & Ef).
    assert (L1' = L1) by congruence. assert (L2' = L2) by congruence.
    subst L1' L2'. rewrite Ec, Ef. cbn [bind]. f_equal. apply Z.leb_le.
    lia.
Qed.

(** ** The Fermat test on primes *)

Lemma fermatPrimalityTest_complete_aux (p : Z) :
  Z.prime p -> fermatPrimalityTest p = true.
Proof.
  intros Hp. pose proof (Z.prime_ge_2 p Hp) as H2.
  rewrite fermat_reference by exact H2. unfold Reference.fermatTest.
  destruct (Z.eqb_spec p 2) as [E | N]; [reflexivity | ].
  cbn [orb]. apply Z.eqb_eq.
  apply ZmodInv.Z.fermat_nz; [exact Hp | ].
  rewrite Z.mod_small by lia. lia.
Qed.

(** The converse fails: 341 = 11 * 31 passes the Fermat test. *)
Lemma fermatPrimalityTest_pseudoprime :
  fermatPrimalityTest 341 = true /\ ~ Z.prime 341.
Proof.
  split; [vm_compute; reflexivity | ].
  intros [_ H]. apply (H 11); [lia | ]. exists 31. reflexivity.
Qed.

(** X4. The Fermat test never rejects a prime: 2 by its own case, an odd
    prime by Fermat's little theorem. *)
Theorem fermatPrimalityTest_accepts_primes :
  forall p : Z, Z.prime p -> fermatPrimalityTest p = true.
Proof.
  intros p Hp. apply fermatPrimalityTest_complete_aux. exact Hp.
Qed.

(** ** What the length the search returns means *)

(** X5. Every member the search counts was confirmed: when
    [findCunninghamChain] returns [L], each of the first [L] numbers of the
    chain from [n] passed both primality tests, and the Euler-Lagrange
    criterion held at each of them but the last. A member that fails the
    tests is never counted. *)
Theorem counted_members_confirmed :
  forall (isProbablePrime : Z -> bool) (n : Z) (k : Reference.Kind)
         (target L : Z),
    findCunninghamChain isProbablePrime n (Reference.tag k) target = Ok L ->
    (forall i, (i < Z.to_nat L)%nat ->
       fermatPrimalityTest (memberAt k n i) = true
       /\ isProbablePrime (memberAt k n i) = true)
    /\ (forall i, (S i < Z.to_nat L)%nat ->
         eulerLagrangePrimalityTest (memberAt k n i) (Reference.tag k) = true).
Proof.
  intros ipp n k target L E.
  destruct (findCunninghamChain_exact ipp n k target L E)
    as (_ & _ & Hpass & Hcrit & _).
  split; [ | exact Hcrit].
  intros i Hi. specialize (Hpass i Hi). unfold failsPrimality in Hpass.
  apply orb_false_iff in Hpass. destruct Hpass as [F P].
  apply negb_false_iff in F, P. now split.
Qed.

(** X6. A length below the target is final: when [findCunninghamChain]
    returns [L] with [1 <= L < target], the chain cannot be continued, either
    because the Euler-Lagrange criterion fails at its last member or because
    the next number fails a primality test; and it returns 0 exactly when the
    first number fails one. *)
Theorem short_chain_has_stopped :
  forall (isProbablePrime : Z -> bool) (n : Z) (k : Reference.Kind)
         (target L : Z),
    findCunninghamChain isProbablePrime n (Reference.tag k) target = Ok L ->
    (L = 0 <-> failsPrimality isProbablePrime n = true)
    /\ (1 <= L < target ->
        eulerLagrangePrimalityTest (memberAt k n (Z.to_nat L - 1))
          (Reference.tag k) = false
        \/ failsPrimality isProbablePrime (memberAt k n (Z.to_nat L)) = true).
Proof.
  intros ipp n k target L E.
  destruct (findCunninghamChain_exact ipp n k target L E)
    as (H0 & _ & _ & _ & Hstop).
  split; assumption.
Qed.

(** X7. With a test that passes every prime, a prime always starts a chain:
    from a prime [n] the search of either kind returns at least 1, whatever
    the target. *)
Theorem prime_starts_a_chain :
  forall (isProbablePrime : Z -> bool) (n : Z) (chainType : string)
         (target : Z),
    complete isProbablePrime ->
    Z.prime n ->
    chainType = CUNNINGHAM_CHAIN_1 \/ chainType = CUNNINGHAM_CHAIN_2 ->
    exists L, findCunninghamChain isProbablePrime n chainType target = Ok L
              /\ 1 <= L.
Proof.
  intros ipp n chainType target Hc Hp Hvalid.
  destruct (tag_cases chainType Hvalid) as [k ->].
  destruct (findCunninghamChain_bounds ipp n (Reference.tag k) target
              (tag_valid k)) as (L & E & P & _).
  exists L. split; [exact E | ].
  destruct (findCunninghamChain_exact ipp n k target L E) as (H0 & _).
  assert (F : failsPrimality ipp n = false).
  { unfold failsPrimality.
    now rewrite (fermatPrimalityTest_complete_aux n Hp), (Hc n Hp). }
  destruct (Z.eq_dec L 0) as [Z0 | NZ]; [ | lia].
  apply H0 in Z0. congruence.
Qed.

(** ** A chain-type tag of neither kind *)

Lemma eulerLagrange_other_tag (p : Z) (chainType : string) :
  chainType <> CUNNINGHAM_CHAIN_1 -> chainType <> CUNNINGHAM_CHAIN_2 ->
  eulerLagrangePrimalityTest p chainType = (0 <? p) && (p <? 4).
Proof.
  intros N1 N2. apply String.eqb_neq in N1, N2.
  unfold eulerLagrangePrimalityTest.
  rewrite compareTo_gt0, compareTo_lt0, compareTo_eq0, Z.gtb_ltb, N1, N2.
  unfold BI_ZERO, BI_FOUR.
  destruct ((0 <? p) && (p <? 4)); [reflexivity | ].
  now destruct (p =? 4).
Qed.

(** X8. With a tag that is neither of the two Cunningham tags the search
    throws only in a corner: when the first number passes the primality
    tests, the target is above 1 and the number is 1, 2 or 3, the only
    values at which the criterion holds for such a tag. Everywhere else the
    bad tag goes unnoticed and the search returns 0 or 1. *)
Theorem other_tag_throws_only_below_4 :
  forall (isProbablePrime : Z -> bool) (n : Z) (chainType : string)
         (target : Z),
    chainType <> CUNNINGHAM_CHAIN_1 ->
    chainType <> CUNNINGHAM_CHAIN_2 ->
    ((exists msg,
        findCunninghamChain isProbablePrime n chainType target = Throw msg)
     <-> (failsPrimality isProbablePrime n = false
          /\ 1 < target /\ 0 < n < 4))
    /\ (forall L,
          findCunninghamChain isProbablePrime n chainType target = Ok L ->
          L = 0 \/ L = 1).
Proof.
  intros ipp n chainType target N1 N2.
  unfold findCunninghamChain.
  destruct (failsPrimality ipp n).
  { split; [split; [intros [msg E]; discriminate | intros [E _]; discriminate]
           | intros L [= <-]; now left]. }
  destruct (Z.le_gt_cases target 1) as [T1 | T1].
  { rewrite geb_true by exact T1.
    split; [split; [intros [msg E]; discriminate | intros (_ & E & _); lia]
           | intros L [= <-]; now right]. }
  rewrite geb_false by lia.
  rewrite chainLoop_unfold, (eulerLagrange_other_tag n chainType N1 N2).
  destruct (Z.ltb_spec 0 n) as [P | P], (Z.ltb_spec n 4) as [Q | Q];
    cbn [andb];
    try (split; [split; [intros [msg E]; discriminate | intros (_ & _ & E); lia]
                | intros L [= <-]; now right]).
  apply String.eqb_neq in N1, N2.
  unfold nextInChain. rewrite N1, N2.
  split; [split; [intros _; repeat split; (reflexivity || lia)
                 | intros _; eexists; reflexivity]
         | intros L E; discriminate].
Qed.

(** ** The selector returns the best of the three *)

(** X9. [findPrimeChain] returns the longest of the three chains: its length
    is the maximum of the two Cunningham lengths and the bi-twin length. It
    is 0 exactly when both searches return 0; for a target of at least 1 it
    is at most twice the target. When the bi-twin chain is chosen it is
    strictly longer than either Cunningham chain, both neighbours of the
    origin started a chain, and the confirmed members on the two sides
    cover it: the first kind at least the upper half, the second at least
    the lower half. *)
Theorem findPrimeChain_best :
  forall (isProbablePrime : Z -> bool) (origin target : Z),
  exists L1 L2 found,
    findCunninghamChain isProbablePrime (origin - 1) CUNNINGHAM_CHAIN_1 target
    = Ok L1
    /\ findCunninghamChain isProbablePrime (origin + 1) CUNNINGHAM_CHAIN_2
         target = Ok L2
    /\ findPrimeChain isProbablePrime origin target = Ok found
    /\ chainLength found
       = Z.max (Z.max L1 L2) (if L2 <? L1 then 2 * L2 + 1 else 2 * L1)
    /\ (chainLength found = 0 <-> L1 = 0 /\ L2 = 0)
    /\ (1 <= target -> chainLength found <= 2 * target)
    /\ (chainType found = CUNNINGHAM_CHAIN_1 -> chainLength found = L1)
    /\ (chainType found = CUNNINGHAM_CHAIN_2 -> chainLength found = L2)
    /\ (chainType found = BITWIN_CHAIN ->
        1 <= L1 /\ 1 <= L2
        /\ L1 < chainLength found /\ L2 < chainLength found
        /\ PrimeBlock.Math_ceil_half (chainLength found) <= L1
        /\ PrimeBlock.Math_floor_half (chainLength found) <= L2).
Proof.
  intros ipp origin target.
  destruct (findPrimeChain_lengths ipp origin target)
    as (L1 & L2 & E1 & E2 & P1 & P2 & B & Esel).
  exists L1, L2. eexists. split; [exact E1 | ]. split; [exact E2 | ].
  split; [exact Esel | ].
  pose proof (half_bounds (L2 * 2 + 1)) as Hodd.
  pose proof (half_bounds (L1 * 2)) as Heven.
  assert (D12 : CUNNINGHAM_CHAIN_1 <> CUNNINGHAM_CHAIN_2) by discriminate.
  assert (D1b : CUNNINGHAM_CHAIN_1 <> BITWIN_CHAIN) by discriminate.
  assert (D2b : CUNNINGHAM_CHAIN_2 <> BITWIN_CHAIN) by discriminate.
  destruct (Z.ltb_spec L2 L1) as [C | C].
  - destruct (Z.leb_spec L2 L1); [ | lia].
    destruct (Z.leb_spec (L2 * 2 + 1) L1); cbn [andb].
    + cbn [chainLength chainType].
      repeat split; intros; try congruence; try lia.
    + destruct (Z.leb_spec L1 L2); cbn [andb]; [lia | ].
      cbn [chainLength chainType].
      repeat split; intros; try congruence; try lia.
  - destruct (Z.leb_spec L2 L1); destruct (Z.leb_spec (L1 * 2) L1);
      cbn [andb].
    + cbn [chainLength chainType].
      repeat split; intros; try congruence; try lia.
    + destruct (Z.leb_spec L1 L2); [ | lia].
      destruct (Z.leb_spec (L1 * 2) L2); cbn [andb chainLength chainType];
        repeat split; intros; try congruence; try lia.
    + destruct (Z.leb_spec L1 L2); [ | lia].
      destruct (Z.leb_spec (L1 * 2) L2); cbn [andb chainLength chainType];
        repeat split; intros; try congruence; try lia.
    + destruct (Z.leb_spec L1 L2); [ | lia].
      destruct (Z.leb_spec (L1 * 2) L2); cbn [andb chainLength chainType];
        repeat split; intros; try congruence; try lia.
Qed.

(** ** One call of [findProof] *)

Section FindProof.

Variable hash : PrimeBlock.HeaderObject -> Z.
Variable isProbablePrime : Z -> bool.

Local Abbreviation hashHeader := (PrimeBlock.hashHeader hash).
Local Abbreviation searchRound := (PrimeMiner.searchRound isProbablePrime).
Local Abbreviation searchRounds := (PrimeMiner.searchRounds isProbablePrime).
Local Abbreviation nonceLoop := (PrimeMiner.nonceLoop hash).
Local Abbreviation findProof := (PrimeMiner.findProof hash isProbablePrime).

(** The header hash reads the parent's fields and the nonce, nothing else. *)
Lemma hashHeader_ext (b1 b2 : PrimeBlock.PrimeBlock) :
  PrimeBlock.super b1 = PrimeBlock.super b2 ->
  PrimeBlock.primeNonce b1 = PrimeBlock.primeNonce b2 ->
  hashHeader b1 = hashHeader b2.
Proof.
  intros Hs Hn. unfold PrimeBlock.hashHeader, PrimeBlock.isGenesisBlock.
  now rewrite Hs, Hn.
Qed.

Lemma searchRound_outcome (blockHeaderHash : Z) (b : PrimeBlock.PrimeBlock) :
  exists found,
    findPrimeChain isProbablePrime
      (blockHeaderHash * (210 * PrimeBlock.primeMultiplier b))
      (PrimeBlock.target (PrimeBlock.super b)) = Ok found
    /\ searchRound blockHeaderHash b
       = Ok (if chainLength found >=? PrimeBlock.target (PrimeBlock.super b)
             then PrimeMiner.Found
                    (PrimeMiner.setProof b
                       (210 * PrimeBlock.primeMultiplier b) found)
             else PrimeMiner.Retry
                    (PrimeMiner.setMultiplier b
                       (PrimeBlock.primeMultiplier b + 1))).
Proof.
  destruct (findPrimeChain_total isProbablePrime
              (blockHeaderHash * (210 * PrimeBlock.primeMultiplier b))
              (PrimeBlock.target (PrimeBlock.super b))) as (found & E & _).
  exists found. split; [exact E | ].
  unfold PrimeMiner.searchRound, multiply, add, BI_BASE_PRIMORIAL, BI_ONE.
  rewrite E. cbn [bind]. now destruct (_ >=? _).
Qed.

(** The multiplier loop: it returns; a proof is at the first multiplier that
    has one, and without a proof every multiplier of the call was tried. *)
Lemma searchRounds_outcome (rounds : nat) (blockHeaderHash : Z)
  (b : PrimeBlock.PrimeBlock) :
  exists r,
    searchRounds rounds blockHeaderHash b = Ok r
    /\ match r with
       | PrimeMiner.Found b' =>
         exists (i : nat) found,
           (i < rounds)%nat
           /\ (forall j, (j < i)%nat ->
                noProofAt isProbablePrime blockHeaderHash b j)
           /\ findPrimeChain isProbablePrime
                (blockHeaderHash
                 * (210 * (PrimeBlock.primeMultiplier b + Z.of_nat i)))
                (PrimeBlock.target (PrimeBlock.super b)) = Ok found
           /\ chainLength found >= PrimeBlock.target (PrimeBlock.super b)
           /\ b' = PrimeMiner.setProof b
                     (210 * (PrimeBlock.primeMultiplier b + Z.of_nat i)) found
       | PrimeMiner.Retry b' =>
         (forall j, (j < rounds)%nat ->
            noProofAt isProbablePrime blockHeaderHash b j)
         /\ PrimeBlock.super b' = PrimeBlock.super b
         /\ PrimeBlock.primeNonce b' = PrimeBlock.primeNonce b
         /\ PrimeBlock.primeMultiplier b'
            = PrimeBlock.primeMultiplier b + Z.of_nat rounds
         /\ PrimeBlock.primeChainLength b' = PrimeBlock.primeChainLength b
         /\ PrimeBlock.primeChainType b' = PrimeBlock.primeChainType b
       end.
Proof.
  revert b. induction rounds as [ | rounds IH]; intros b.
  - eexists. split; [reflexivity | ]. cbn [Z.of_nat].
    repeat split; try reflexivity; try lia; intros; lia.
  - cbn [PrimeMiner.searchRounds].
    destruct (searchRound_outcome blockHeaderHash b) as (found & Ef & Er).
    rewrite Er. cbn [bind].
    destruct (Z.geb_spec (chainLength found)
                (PrimeBlock.target (PrimeBlock.super b))) as [C | C].
    + eexists. split; [reflexivity | ].
      exists O, found. cbn [Z.of_nat]. rewrite Z.add_0_r.
      repeat split; try assumption; try lia; intros; lia.
    + destruct (IH (PrimeMiner.setMultiplier b
                      (PrimeBlock.primeMultiplier b + 1)))
        as (r & E & Hr).
      exists r. split; [exact E | ].
      assert (Hshift : forall j,
                noProofAt isProbablePrime blockHeaderHash
                  (PrimeMiner.setMultiplier b
                     (PrimeBlock.primeMultiplier b + 1)) j ->
                noProofAt isProbablePrime blockHeaderHash b (S j)).
      { intros j (f & Efj & Hfj). exists f.
        cbn [PrimeMiner.setMultiplier PrimeBlock.primeMultiplier
             PrimeBlock.super] in Efj, Hfj.
        split; [ | exact Hfj]. rewrite <- Efj. do 3 f_equal. lia. }
      assert (H0 : noProofAt isProbablePrime blockHeaderHash b O).
      { exists found. cbn [Z.of_nat]. rewrite Z.add_0_r. now split. }
      destruct r as [b' | b'];
        cbn [PrimeMiner.setMultiplier PrimeBlock.primeMultiplier
             PrimeBlock.super PrimeBlock.primeNonce
             PrimeBlock.primeChainLength PrimeBlock.primeChainType] in Hr.
      * destruct Hr as (i & f & Hi & Hnone & Efi & Hlen & ->).
        exists (S i), f.
        replace (PrimeBlock.primeMultiplier b + Z.of_nat (S i))
          with (PrimeBlock.primeMultiplier b + 1 + Z.of_nat i) by lia.
        repeat split; try assumption; try lia.
        intros [ | j] Hj; [exact H0 | apply Hshift, Hnone; lia].
      * destruct Hr as (Hnone & Hs & Hn & Hm & Hl & Ht).
        repeat split; try assumption; try lia.
        intros [ | j] Hj; [exact H0 | apply Hshift, Hnone; lia].
Qed.

(** The nonce loop: when it ends the header hash has reached the minimum, at
    the first nonce from the block's on that does it; no other field
    moves. *)
Lemma nonceLoop_outcome (fuel : nat) (b b' : PrimeBlock.PrimeBlock) :
  nonceLoop fuel b = Some b' ->
  exists k : nat,
    (k <= fuel)%nat
    /\ hashHeader b' >= 2 ^ 255
    /\ (forall j, (j < k)%nat ->
         hashHeader
           (PrimeMiner.setNonce b (PrimeBlock.primeNonce b + Z.of_nat j))
         < 2 ^ 255)
    /\ PrimeBlock.super b' = PrimeBlock.super b
    /\ PrimeBlock.primeNonce b' = PrimeBlock.primeNonce b + Z.of_nat k
    /\ PrimeBlock.primeMultiplier b' = PrimeBlock.primeMultiplier b
    /\ PrimeBlock.primeChainLength b' = PrimeBlock.primeChainLength b
    /\ PrimeBlock.primeChainType b' = PrimeBlock.primeChainType b.
Proof.
  assert (Hmin : BLOCK_HEADER_HASH_MIN = 2 ^ 255) by reflexivity.
  revert b. induction fuel as [ | fuel IH]; intros b;
    cbn [PrimeMiner.nonceLoop]; unfold PrimeMiner.nonceStep;
    rewrite compareTo_lt0, Hmin;
    destruct (Z.ltb_spec (hashHeader b) (2 ^ 255)) as [Hlt | Hge];
    try discriminate.
  - intros [= <-]. exists O. cbn [Z.of_nat]. rewrite Z.add_0_r.
    repeat split; try lia; intros; lia.
  - intros E. destruct (IH _ E) as (k & Hk & Hh & Hbelow & Hs & Hn & Hm & Hl & Ht).
    cbn [PrimeMiner.setNonce PrimeBlock.primeNonce PrimeBlock.super
         PrimeBlock.primeMultiplier PrimeBlock.primeChainLength
         PrimeBlock.primeChainType] in *.
    exists (S k). repeat split; try assumption; try lia.
    intros [ | j] Hj.
    + cbn [Z.of_nat]. rewrite Z.add_0_r.
      rewrite (hashHeader_ext _ b); [exact Hlt | reflexivity | reflexivity].
    + specialize (Hbelow j ltac:(lia)).
      erewrite hashHeader_ext; [exact Hbelow | reflexivity | ].
      cbn [PrimeMiner.setNonce PrimeBlock.primeNonce]. lia.
  - intros [= <-]. exists O. cbn [Z.of_nat]. rewrite Z.add_0_r.
    repeat split; try lia; intros; lia.
Qed.

(** The loop ends within [k] turns when the nonce [k] above the block's
    gives a header hash that reaches the minimum. *)
Lemma nonceLoop_ends (k : nat) (b : PrimeBlock.PrimeBlock) :
  hashHeader (PrimeMiner.setNonce b (PrimeBlock.primeNonce b + Z.of_nat k))
  >= 2 ^ 255 ->
  exists b', nonceLoop k b = Some b'.
Proof.
  assert (Hmin : BLOCK_HEADER_HASH_MIN = 2 ^ 255) by reflexivity.
  revert b. induction k as [ | k IH]; intros b Hk;
    cbn [PrimeMiner.nonceLoop]; unfold PrimeMiner.nonceStep;
    rewrite compareTo_lt0, Hmin;
    destruct (Z.ltb_spec (hashHeader b) (2 ^ 255)) as [Hlt | Hge];
    eauto.
  - exfalso. cbn [Z.of_nat] in Hk. rewrite Z.add_0_r in Hk.
    rewrite (hashHeader_ext _ b) in Hk; [lia | reflexivity | reflexivity].
  - apply IH.
    erewrite hashHeader_ext; [exact Hk | reflexivity | ].
    cbn [PrimeMiner.setNonce PrimeBlock.primeNonce]. lia.
Qed.

End FindProof.

(** X10. The block one call of [findProof] announces: its nonce is the first
    from the block's on whose header hash reaches 2^255, its multiplier is
    210 times the first multiplier from the block's on at which the selector
    finds a chain of the target length, within the rounds of the call, its
    chain length and type are what the selector returned there, and it
    passes [hasValidProof]. *)
Theorem findProof_announces :
  forall (hash : PrimeBlock.HeaderObject -> Z) (isProbablePrime : Z -> bool)
         (fuel rounds : nat) (b b' : PrimeBlock.PrimeBlock),
    PrimeMiner.findProof hash isProbablePrime fuel rounds b
    = Some (Ok (PrimeMiner.Found b')) ->
    PrimeBlock.primeMultiplier b >= 1 ->
    exists (k i : nat) (found : PrimeChain),
      let b0 :=
        PrimeMiner.setNonce b (PrimeBlock.primeNonce b + Z.of_nat k) in
      let m := PrimeBlock.primeMultiplier b + Z.of_nat i in
      (forall j, (j < k)%nat ->
         PrimeBlock.hashHeader hash
           (PrimeMiner.setNonce b (PrimeBlock.primeNonce b + Z.of_nat j))
         < 2 ^ 255)
      /\ PrimeBlock.hashHeader hash b0 >= 2 ^ 255
      /\ (i < rounds)%nat
      /\ (forall j, (j < i)%nat ->
            noProofAt isProbablePrime (PrimeBlock.hashHeader hash b0) b j)
      /\ findPrimeChain isProbablePrime
           (PrimeBlock.hashHeader hash b0 * (210 * m))
           (PrimeBlock.target (PrimeBlock.super b)) = Ok found
      /\ chainLength found >= PrimeBlock.target (PrimeBlock.super b)
      /\ b' = PrimeMiner.setProof b0 (210 * m) found
      /\ PrimeBlock.hasValidProof hash isProbablePrime b' = Ok true.
Proof.
  intros hash ipp fuel rounds b b' Hcall Hm.
  unfold PrimeMiner.findProof in Hcall.
  destruct (PrimeMiner.nonceLoop hash fuel b) as [b1 | ] eqn:Hloop;
    [ | discriminate].
  destruct (nonceLoop_outcome hash fuel b b1 Hloop)
    as (k & _ & Hh & Hbelow & Hs & Hn & Hmult & Hl & Ht).
  destruct (searchRounds_outcome ipp rounds (PrimeBlock.hashHeader hash b1) b1)
    as (r & Er & Hr).
  rewrite Er in Hcall. injection Hcall as ->.
  destruct Hr as (i & found & Hi & Hnone & Efound & Hlen & ->).
  assert (Hb0 : PrimeBlock.hashHeader hash
                  (PrimeMiner.setNonce b
                     (PrimeBlock.primeNonce b + Z.of_nat k))
                = PrimeBlock.hashHeader hash b1).
  { apply hashHeader_ext; cbn [PrimeMiner.setNonce PrimeBlock.super
                               PrimeBlock.primeNonce]; congruence. }
  exists k, i, found. cbv zeta. rewrite Hb0.
  rewrite Hs, Hmult in *.
  split; [exact Hbelow | ]. split; [exact Hh | ]. split; [exact Hi | ].
  split.
  { intros j Hj. destruct (Hnone j Hj) as (f & Ef & Hf).
    exists f. rewrite Hs, Hmult in *. now split. }
  split; [exact Efound | ]. split; [exact Hlen | ].
  split.
  { unfold PrimeMiner.setProof. cbn [PrimeMiner.setNonce PrimeBlock.super
                                     PrimeBlock.primeNonce].
    now rewrite Hs, Hn. }
  change (PrimeMiner.setProof b1
            (210 * (PrimeBlock.primeMultiplier b + Z.of_nat i)) found)
    with (PrimeMiner.setProof
            (PrimeMiner.setMultiplier b1
               (PrimeBlock.primeMultiplier b + Z.of_nat i))
            (210 * PrimeBlock.primeMultiplier
                     (PrimeMiner.setMultiplier b1
                        (PrimeBlock.primeMultiplier b + Z.of_nat i)))
            found).
  apply setProof_valid;
    change (PrimeBlock.hashHeader hash
              (PrimeMiner.setMultiplier b1
                 (PrimeBlock.primeMultiplier b + Z.of_nat i)))
      with (PrimeBlock.hashHeader hash b1);
    cbn [PrimeMiner.setMultiplier PrimeBlock.primeMultiplier PrimeBlock.super];
    rewrite ?Hs; try assumption; lia.
Qed.

(** X11. A call of [findProof] whose two loops end without a proof leaves
    the block ready for the next call: the multiplier has gone up by the
    number of rounds, every multiplier in between was tried without
    reaching the target, the nonce is the first whose header hash reaches
    2^255, and the stored chain length and type are untouched. *)
Theorem findProof_resumes :
  forall (hash : PrimeBlock.HeaderObject -> Z) (isProbablePrime : Z -> bool)
         (fuel rounds : nat) (b b' : PrimeBlock.PrimeBlock),
    PrimeMiner.findProof hash isProbablePrime fuel rounds b
    = Some (Ok (PrimeMiner.Retry b')) ->
    exists k : nat,
      let b0 :=
        PrimeMiner.setNonce b (PrimeBlock.primeNonce b + Z.of_nat k) in
      (forall j, (j < k)%nat ->
         PrimeBlock.hashHeader hash
           (PrimeMiner.setNonce b (PrimeBlock.primeNonce b + Z.of_nat j))
         < 2 ^ 255)
      /\ PrimeBlock.hashHeader hash b0 >= 2 ^ 255
      /\ (forall j, (j < rounds)%nat ->
            noProofAt isProbablePrime (PrimeBlock.hashHeader hash b0) b j)
      /\ PrimeBlock.super b' = PrimeBlock.super b
      /\ PrimeBlock.primeNonce b' = PrimeBlock.primeNonce b + Z.of_nat k
      /\ PrimeBlock.primeMultiplier b'
         = PrimeBlock.primeMultiplier b + Z.of_nat rounds
      /\ PrimeBlock.primeChainLength b' = PrimeBlock.primeChainLength b
      /\ PrimeBlock.primeChainType b' = PrimeBlock.primeChainType b.
Proof.
  intros hash ipp fuel rounds b b' Hcall.
  unfold PrimeMiner.findProof in Hcall.
  destruct (PrimeMiner.nonceLoop hash fuel b) as [b1 | ] eqn:Hloop;
    [ | discriminate].
  destruct (nonceLoop_outcome hash fuel b b1 Hloop)
    as (k & _ & Hh & Hbelow & Hs & Hn & Hmult & Hl & Ht).
  destruct (searchRounds_outcome ipp rounds
              (PrimeBlock.hashHeader hash b1) b1) as (r & Er & Hr).
  rewrite Er in Hcall. injection Hcall as ->.
  destruct Hr as (Hnone & Hs' & Hn' & Hm' & Hl' & Ht').
  assert (Hb0 : PrimeBlock.hashHeader hash
                  (PrimeMiner.setNonce b
                     (PrimeBlock.primeNonce b + Z.of_nat k))
                = PrimeBlock.hashHeader hash b1).
  { apply hashHeader_ext; cbn [PrimeMiner.setNonce PrimeBlock.super
                               PrimeBlock.primeNonce]; congruence. }
  exists k. cbv zeta. rewrite Hb0.
  split; [exact Hbelow | ]. split; [exact Hh | ].
  split.
  { intros j Hj. destruct (Hnone j Hj) as (f & Ef & Hf).
    exists f. rewrite Hs, Hmult in *. now split. }
  repeat split; congruence.
Qed.

(** ** A block without a recorded proof *)

(** X12. A block is rejected until the miner records a proof in it: the
    block the constructor makes fails [hasValidProof] for every target, and
    so does the block any call of [findProof] on it leaves when it finds no
    proof. *)
Theorem unmined_block_rejected :
  forall (hash : PrimeBlock.HeaderObject -> Z) (isProbablePrime : Z -> bool)
         (base : PrimeBlock.Block),
    PrimeBlock.hasValidProof hash isProbablePrime
      (PrimeBlock.constructor base) = Ok false
    /\ (forall (fuel rounds : nat) (b' : PrimeBlock.PrimeBlock),
          PrimeMiner.findProof hash isProbablePrime fuel rounds
            (PrimeBlock.constructor base)
          = Some (Ok (PrimeMiner.Retry b')) ->
          PrimeBlock.hasValidProof hash isProbablePrime b' = Ok false).
Proof.
  intros hash ipp base.
  assert (Hempty : forall b,
            PrimeBlock.primeChainType b = ""%string ->
            PrimeBlock.hasValidProof hash ipp b = Ok false).
  { intros b Ht. apply hasValidProof_unrecognized; rewrite Ht; discriminate. }
  split; [apply Hempty; reflexivity | ].
  intros fuel rounds b' Hcall. apply Hempty.
  unfold PrimeMiner.findProof in Hcall.
  destruct (PrimeMiner.nonceLoop hash fuel (PrimeBlock.constructor base))
    as [b1 | ] eqn:Hloop; [ | discriminate].
  destruct (nonceLoop_outcome hash fuel _ b1 Hloop)
    as (k & _ & _ & _ & _ & _ & _ & _ & Ht).
  destruct (searchRounds_outcome ipp rounds (PrimeBlock.hashHeader hash b1) b1)
    as (r & Er & Hr).
  rewrite Er in Hcall. injection Hcall as ->.
  destruct Hr as (_ & _ & _ & _ & _ & Ht').
  rewrite Ht', Ht. reflexivity.
Qed.

(** ** What [buildChain] writes *)

Lemma memberAt_closed (k : Reference.Kind) (n : Z) (i : nat) :
  memberAt k n i
  = match k with
    | Reference.First => 2 ^ Z.of_nat i * (n + 1) - 1
    | Reference.Second => 2 ^ Z.of_nat i * (n - 1) + 1
    end.
Proof.
  revert n. induction i as [ | i IH]; intros n.
  - cbv [memberAt Nat.iter nat_rect]. cbn [Z.of_nat]. rewrite Z.pow_0_r.
    destruct k; ring.
  - rewrite memberAt_succ, IH, Nat2Z.inj_succ, Z.pow_succ_r by lia.
    destruct k; cbn [Reference.step]; cbv iota; ring.
Qed.

Lemma members_memberAt (k : Reference.Kind) (n : Z) (count : nat) :
  Reference.members k n count = map (memberAt k n) (seq 0 count).
Proof.
  revert n. induction count as [ | c IH]; intros n; [reflexivity | ].
  cbn [Reference.members seq map]. f_equal.
  rewrite IH, <- seq_shift, map_map.
  apply map_ext. intros i. now rewrite memberAt_succ.
Qed.

(** X13. For the two Cunningham kinds and a length of at least 1,
    [buildChain] writes exactly that many numbers, the ones the searcher
    walks from the same origin, and the number at place [i] is
    2^i * origin - 1 for the first kind and 2^i * origin + 1 for the
    second. *)
Theorem buildChain_cunningham_entries :
  forall (origin len : Z) (k : Reference.Kind),
    1 <= len ->
    let start :=
      match k with
      | Reference.First => origin - 1
      | Reference.Second => origin + 1
      end in
    buildChainArray origin len (Reference.tag k)
    = Ok (map (fun i => toString (memberAt k start i))
            (seq 0 (Z.to_nat len)))
    /\ buildChain origin len (Reference.tag k)
       = Ok (join (map (fun i => toString (memberAt k start i))
                     (seq 0 (Z.to_nat len))))
    /\ forall i,
         memberAt k start i
         = match k with
           | Reference.First => 2 ^ Z.of_nat i * origin - 1
           | Reference.Second => 2 ^ Z.of_nat i * origin + 1
           end.
Proof.
  intros origin len k Hlen start.
  assert (E : buildChainArray origin len (Reference.tag k)
              = Ok (map (fun i => toString (memberAt k start i))
                      (seq 0 (Z.to_nat len)))).
  { rewrite buildChainArray_cunningham by exact Hlen.
    subst start. now rewrite members_memberAt, map_map. }
  split; [exact E | ]. split.
  - unfold buildChain. now rewrite E.
  - intros i. rewrite memberAt_closed. subst start.
    destruct k; ring.
Qed.

Lemma twinMember_even (origin : Z) (p : nat) :
  twinMember origin (2 * p) = 2 ^ Z.of_nat p * origin - 1.
Proof.
  unfold twinMember.
  rewrite (Nat.mul_comm 2 p), Nat.div_mul by discriminate.
  rewrite Nat.even_mul, Bool.orb_true_r. ring.
Qed.

Lemma twinMember_odd (origin : Z) (p : nat) :
  twinMember origin (2 * p + 1) = 2 ^ Z.of_nat p * origin + 1.
Proof.
  unfold twinMember.
  rewrite (Nat.mul_comm 2 p), Nat.div_add_l by discriminate.
  cbn [Nat.div Nat.divmod fst]. rewrite Nat.add_0_r.
  rewrite Nat.even_add, Nat.even_mul, Bool.orb_true_r. reflexivity.
Qed.

(** One turn of the loop of the bi-twin chain. *)
Lemma bitwinLoop_unfold (len i first second : Z) (primeChain : list string) :
  bitwinLoop len i first second primeChain
  = if i <? len then
      let first1 := add (multiply first BI_TWO) BI_ONE in
      let primeChain1 := push primeChain (toString first1) in
      let second1 := subtract (multiply second BI_TWO) BI_ONE in
      let primeChain2 := push primeChain1 (toString second1) in
      if i + 1 =? len then
        let first2 := add (multiply first1 BI_TWO) BI_ONE in
        bitwinLoop len (i + 2) first2 second1
          (push primeChain2 (toString first2))
      else
        bitwinLoop len (i + 2) first1 second1 primeChain2
    else primeChain.
Proof.
  funelim (bitwinLoop len i first second primeChain); clear Heqcall;
    match goal with
    | E : (_ <? _) = _ |- _ => rewrite E
    end; reflexivity.
Qed.

(** The loop from an even place [2p]: it appends the numbers of the places
    from [2p] on, as many as [buildChain] still writes. *)
Lemma bitwinLoop_entries (origin len : Z) (fuel p : nat)
  (primeChain : list string) :
  (1 <= p)%nat ->
  (Z.to_nat (len + 1 - Z.of_nat (2 * p)) <= fuel)%nat ->
  Z.of_nat (2 * p) <= len + 1 ->
  bitwinLoop len (Z.of_nat (2 * p)) (twinMember origin (2 * p - 2))
    (twinMember origin (2 * p - 1)) primeChain
  = primeChain
    ++ map (fun j => toString (twinMember origin j))
         (seq (2 * p)
            (Z.to_nat (if Z.of_nat (2 * p) <? len
                       then if Z.even len then len - Z.of_nat (2 * p)
                            else len - Z.of_nat (2 * p) + 2
                       else 0))).
Proof.
  revert p primeChain.
  induction fuel as [ | fuel IH]; intros p primeChain Hp Hfuel Hle;
    rewrite bitwinLoop_unfold;
    destruct (Z.ltb_spec (Z.of_nat (2 * p)) len) as [Hlt | Hge];
    try (cbn [Z.to_nat seq map]; now rewrite app_nil_r);
    try lia.
  cbv zeta. unfold add, subtract, multiply, BI_TWO, BI_ONE, push.
  assert (F1 : twinMember origin (2 * p - 2) * 2 + 1
               = twinMember origin (2 * p)).
  { replace (2 * p - 2)%nat with (2 * (p - 1))%nat by lia.
    rewrite !twinMember_even.
    replace (Z.of_nat p) with (Z.succ (Z.of_nat (p - 1))) by lia.
    rewrite Z.pow_succ_r by lia. ring. }
  assert (S1 : twinMember origin (2 * p - 1) * 2 - 1
               = twinMember origin (2 * p + 1)).
  { replace (2 * p - 1)%nat with (2 * (p - 1) + 1)%nat by lia.
    rewrite !twinMember_odd.
    replace (Z.of_nat p) with (Z.succ (Z.of_nat (p - 1))) by lia.
    rewrite Z.pow_succ_r by lia. ring. }
  rewrite F1, S1.
  destruct (Z.eqb_spec (Z.of_nat (2 * p) + 1) len) as [Hlast | Hmore].
  - assert (Ev : Z.even len = false).
    { rewrite <- Hlast, Z.even_add, Nat2Z.inj_mul, Z.even_mul. reflexivity. }
    rewrite Ev.
    replace (Z.to_nat (len - Z.of_nat (2 * p) + 2)) with 3%nat by lia.
    rewrite bitwinLoop_unfold.
    destruct (Z.ltb_spec (Z.of_nat (2 * p) + 2) len); [lia | ].
    cbn [seq map]. rewrite <- !app_assoc. cbn [app].
    assert (F2 : twinMember origin (2 * p) * 2 + 1
                 = twinMember origin (S (S (2 * p)))).
    { replace (S (S (2 * p))) with (2 * (p + 1))%nat by lia.
      rewrite !twinMember_even.
      replace (Z.of_nat (p + 1)) with (Z.succ (Z.of_nat p)) by lia.
      rewrite Z.pow_succ_r by lia. ring. }
    rewrite F2.
    replace (2 * p + 1)%nat with (S (2 * p)) by lia.
    reflexivity.
  - replace (Z.of_nat (2 * p) + 2) with (Z.of_nat (2 * (p + 1))) by lia.
    replace (twinMember origin (2 * p))
      with (twinMember origin (2 * (p + 1) - 2))
      by (f_equal; lia).
    replace (twinMember origin (2 * p + 1))
      with (twinMember origin (2 * (p + 1) - 1))
      by (f_equal; lia).
    rewrite IH by lia.
    rewrite <- !app_assoc. cbn [app]. f_equal.
    replace (twinMember origin (2 * (p + 1) - 2))
      with (twinMember origin (2 * p)) by (f_equal; lia).
    replace (twinMember origin (2 * (p + 1) - 1))
      with (twinMember origin (S (2 * p))) by (f_equal; lia).
    assert (Hcount :
              Z.to_nat (if Z.even len then len - Z.of_nat (2 * p)
                        else len - Z.of_nat (2 * p) + 2)
              = S (S (Z.to_nat
                        (if Z.of_nat (2 * (p + 1)) <? len
                         then if Z.even len
                              then len - Z.of_nat (2 * (p + 1))
                              else len - Z.of_nat (2 * (p + 1)) + 2
                         else 0)))).
    { destruct (Z.ltb_spec (Z.of_nat (2 * (p + 1))) len) as [L | L].
      - destruct (Z.even len); lia.
      - assert (Hlen : len = Z.of_nat (2 * (p + 1))) by lia.
        assert (Ev : Z.even len = true).
        { rewrite Hlen, Nat2Z.inj_mul, Z.even_mul. reflexivity. }
        rewrite Ev. lia. }
    rewrite Hcount. cbn [seq map].
    replace (S (S (2 * p))) with (2 * (p + 1))%nat by lia.
    reflexivity.
Qed.

(** X14. What the bi-twin branch of [buildChain] writes, for every length
    of at least 1: the numbers 2^i * origin - 1 and 2^i * origin + 1 in
    turn, from i = 0, as many as the length when it is even; when it is odd
    the chain of the next odd length, two numbers more (and both neighbours
    of the origin when it is 1). *)
Theorem buildChain_bitwin_entries :
  forall origin len : Z,
    1 <= len ->
    buildChainArray origin len BITWIN_CHAIN
    = Ok (map (fun j => toString (twinMember origin j))
            (seq 0 (Z.to_nat (bitwinWritten len))))
    /\ forall i : nat,
         twinMember origin (2 * i) = 2 ^ Z.of_nat i * origin - 1
         /\ twinMember origin (2 * i + 1) = 2 ^ Z.of_nat i * origin + 1.
Proof.
  intros origin len Hlen. split.
  - unfold buildChainArray.
    destruct (Z.ltb_spec len 1); [lia | ]. decide_tags.
    unfold push, subtract, add, BI_ONE. cbn [app].
    change 2 with (Z.of_nat (2 * 1)) at 1.
    replace (origin - 1) with (twinMember origin (2 * 1 - 2))
      by (unfold twinMember; vm_compute (2 ^ _); vm_compute (Nat.even _);
          cbv iota; ring).
    replace (origin + 1) with (twinMember origin (2 * 1 - 1))
      by (unfold twinMember; vm_compute (2 ^ _); vm_compute (Nat.even _);
          cbv iota; ring).
    rewrite (bitwinLoop_entries origin len (Z.to_nat len) 1) by lia.
    f_equal. unfold bitwinWritten.
    change (Z.of_nat (2 * 1)) with 2.
    replace (Z.to_nat (if Z.even len then len
                       else if len =? 1 then 2 else len + 2))
      with (S (S (Z.to_nat (if 2 <? len
                            then if Z.even len then len - 2 else len - 2 + 2
                            else 0)))).
    + reflexivity.
    + destruct (Z.ltb_spec 2 len) as [L | L].
      * destruct (Z.even len); [lia | ].
        destruct (Z.eqb_spec len 1); lia.
      * destruct (Z.eqb_spec len 1) as [-> | N]; [reflexivity | ].
        assert (len = 2) by lia. subst len. reflexivity.
  - intros i. split; [apply twinMember_even | apply twinMember_odd].
Qed.

(** ** The serialized block *)

Lemma to_int_not_nil (z : Z) :
  Z.to_int z <> Decimal.Pos Decimal.Nil
  /\ Z.to_int z <> Decimal.Neg Decimal.Nil.
Proof.
  split; intros E; pose proof (DecimalZ.of_to z) as R; rewrite E in R;
    cbn in R; subst z; discriminate E.
Qed.

(** [toString] writes different numbers differently. *)
Lemma toString_inj (a b : Z) : toString a = toString b -> a = b.
Proof.
  unfold toString. intros E.
  apply (f_equal NilZero.int_of_string) in E.
  destruct (to_int_not_nil a) as [Pa Na], (to_int_not_nil b) as [Pb Nb].
  rewrite !NilZero.isi in E by assumption.
  injection E as E. now apply DecimalZ.to_int_inj.
Qed.

Section Serialized.

Import PrimeBlock.

Variable hash : HeaderObject -> Z.
Variable hashJSON : BlockJSON -> Z.
Variable isProbablePrime : Z -> bool.

(** The object [hashHeader] hashes is a part of the object of [toJSON]. *)
Lemma hashHeader_toJSON (b : PrimeBlock) :
  hashHeader hash b = hash (headerOf (toJSON b)).
Proof.
  unfold hashHeader, toJSON. now destruct (isGenesisBlock b).
Qed.

Lemma toJSON_genesis (b1 b2 : PrimeBlock) :
  toJSON b1 = toJSON b2 -> isGenesisBlock b1 = isGenesisBlock b2.
Proof.
  unfold toJSON.
  destruct (isGenesisBlock b1), (isGenesisBlock b2);
    intros E; try reflexivity; discriminate E.
Qed.

(** X15. Two blocks that [toJSON] writes alike have the same [hashVal] and
    the same header hash; when they are not genesis blocks they carry the
    same proof (nonce, multiplier, chain length and chain type), and
    [hasValidProof] gives the same answer on both as soon as their targets
    agree. The target itself is not written: changing it leaves the object
    of [toJSON] as it is. *)
Theorem toJSON_fixes_proof :
  forall b1 b2 : PrimeBlock,
    toJSON b1 = toJSON b2 ->
    hashVal hashJSON b1 = hashVal hashJSON b2
    /\ hashHeader hash b1 = hashHeader hash b2
    /\ (isGenesisBlock b1 = false ->
        primeNonce b1 = primeNonce b2
        /\ primeMultiplier b1 = primeMultiplier b2
        /\ primeChainLength b1 = primeChainLength b2
        /\ primeChainType b1 = primeChainType b2
        /\ (target (super b1) = target (super b2) ->
            hasValidProof hash isProbablePrime b1
            = hasValidProof hash isProbablePrime b2))
    /\ forall t : Z, toJSON (withTarget b1 t) = toJSON b1.
Proof.
  intros b1 b2 E.
  assert (Hh : hashHeader hash b1 = hashHeader hash b2)
    by (now rewrite !hashHeader_toJSON, E).
  split; [unfold hashVal; now rewrite E | ].
  split; [exact Hh | ].
  split; [ | intros t; reflexivity].
  intros G1.
  pose proof (toJSON_genesis b1 b2 E) as G2. rewrite G1 in G2.
  unfold toJSON in E. rewrite G1, <- G2 in E.
  injection E as _ _ _ _ En Em El Et _.
  apply toString_inj in Em.
  repeat (split; [assumption | ]).
  intros Etarget.
  unfold hasValidProof. cbv zeta.
  now rewrite Hh, Em, El, Et, Etarget.
Qed.

End Serialized.

(** ** The test of the first kind proves primality *)

(** Congruence to 1 goes down to a divisor of the modulus. *)
Lemma mod_one_divisor (n m a : Z) :
  1 < n -> (n | m) -> a mod m = 1 -> a mod n = 1.
Proof.
  intros Hn [c Hc] Ha.
  destruct (Z.eq_dec m 0) as [-> | Hm].
  { rewrite Z.mod_0_r in Ha. subst a. apply Z.mod_small. lia. }
  rewrite (Z.div_mod a m Hm), Ha, Hc.
  replace (c * n * (a / (c * n)) + 1) with (1 + c * (a / (c * n)) * n) by ring.
  rewrite Z.mod_add by lia. apply Z.mod_small. lia.
Qed.

(** The exponents that send [x] to 1 modulo [m] are closed under
    multiples and under [Z.gcd]. *)
Lemma pow_one_mul (m x b k : Z) :
  1 < m -> 0 <= b -> 0 <= k -> x ^ b mod m = 1 -> x ^ (b * k) mod m = 1.
Proof.
  intros Hm Hb Hk H.
  rewrite Z.pow_mul_r, <- Z.mod_pow_l, H, Z.pow_1_l by assumption.
  apply Z.mod_small. lia.
Qed.

Lemma pow_one_gcd (m x : Z) :
  1 < m ->
  forall (bound : nat) (a b : Z),
    (Z.to_nat b < bound)%nat -> 0 <= a -> 0 <= b ->
    x ^ a mod m = 1 -> x ^ b mod m = 1 -> x ^ Z.gcd a b mod m = 1.
Proof.
  intros Hm. induction bound as [ | bound IH]; intros a b Hlt Ha Hb Ea Eb;
    [lia | ].
  destruct (Z.eq_dec b 0) as [-> | Hb0].
  - now rewrite Z.gcd_0_r_nonneg.
  - rewrite <- (Z.gcd_mod_l a b).
    assert (Hr : 0 <= a mod b < b) by (apply Z.mod_pos_bound; lia).
    rewrite Z.gcd_comm.
    apply IH; try lia; try assumption.
    pose proof (pow_one_mul m x b (a / b) Hm Hb
                  ltac:(apply Z.div_pos; lia) Eb) as Hq.
    rewrite (Z.div_mod a b Hb0) in Ea.
    rewrite Z.pow_add_r in Ea by (try apply Z.mul_nonneg_nonneg; try lia;
                                  apply Z.div_pos; lia).
    rewrite <- Z.mul_mod_idemp_l, Hq, Z.mul_1_l in Ea by lia.
    exact Ea.
Qed.

Lemma forallb_false {A : Type} (f : A -> bool) (l : list A) :
  forallb f l = false -> exists x, In x l /\ f x = false.
Proof.
  induction l as [ | a l IH]; cbn [forallb]; [discriminate | ].
  destruct (f a) eqn:Fa; cbn [andb].
  - intros H. destruct (IH H) as (x & Hin & Hx).
    exists x. split; [now right | exact Hx].
  - intros _. exists a. split; [now left | exact Fa].
Qed.

(** Every number above 1 has a prime factor. *)
Lemma prime_factor (bound : nat) :
  forall n : Z, (Z.to_nat n < bound)%nat -> 1 < n ->
  exists q : Z, Z.prime q /\ (q | n).
Proof.
  induction bound as [ | bound IH]; intros n Hlt Hn; [lia | ].
  destruct (trialDivision n) eqn:T.
  - exists n. split; [now apply trialDivision_prime | apply Z.divide_refl].
  - unfold trialDivision in T. apply andb_false_iff in T.
    destruct T as [T | T]; [apply Z.ltb_ge in T; lia | ].
    apply forallb_false in T. destruct T as (d & Hin & Hd).
    apply in_map_iff in Hin. destruct Hin as (k & <- & Hk).
    apply in_seq in Hk.
    apply negb_false_iff, Z.eqb_eq in Hd.
    apply Z.mod_divide in Hd; [ | lia].
    destruct (IH (Z.of_nat k)) as (q & Hq & Hqk); try lia.
    exists q. split; [exact Hq | ].
    now apply Z.divide_trans with (Z.of_nat k).
Qed.

(** A prime factor of N = 2p + 1, for an odd prime p with
    2^(2p) = 1 modulo N, is 3 or N itself. *)
Lemma factor_of_safe (p q : Z) :
  Z.prime p -> 2 < p -> 2 ^ (2 * p) mod (2 * p + 1) = 1 ->
  Z.prime q -> (q | 2 * p + 1) -> q = 3 \/ q = 2 * p + 1.
Proof.
  intros Hp Hp2 Hpow Hq Hdiv.
  pose proof (Z.prime_ge_2 q Hq) as Hq2.
  assert (Hodd : q <> 2).
  { intros ->. destruct Hdiv as [c Hc]. lia. }
  assert (Hq3 : 3 <= q) by lia.
  assert (Hqodd : (2 | q - 1)).
  { destruct (Z.eq_dec (q mod 2) 0) as [E | E].
    - apply Z.mod_divide in E; [ | lia].
      destruct Hq as [_ Hq]. exfalso. apply (Hq 2); [lia | exact E].
    - exists (q / 2). pose proof (Z.div_mod q 2 ltac:(lia)).
      pose proof (Z.mod_pos_bound q 2 ltac:(lia)). lia. }
  assert (F : 2 ^ (q - 1) mod q = 1).
  { apply ZmodInv.Z.fermat_nz; [exact Hq | ].
    rewrite Z.mod_small; lia. }
  assert (G : 2 ^ (2 * p) mod q = 1)
    by (apply (mod_one_divisor q (2 * p + 1)); [lia | assumption .. ]).
  pose proof (pow_one_gcd q 2 ltac:(lia) (S (Z.to_nat (q - 1))) (2 * p)
                (q - 1) ltac:(lia) ltac:(lia) ltac:(lia) G F) as Hg.
  destruct Hqodd as [h Hh].
  replace (q - 1) with (2 * h) in Hg by lia.
  rewrite Z.gcd_mul_mono_l_nonneg in Hg by lia.
  assert (Hgp : (Z.gcd p h | p)) by apply Z.gcd_divide_l.
  assert (Hgh : (Z.gcd p h | h)) by apply Z.gcd_divide_r.
  pose proof (Z.gcd_nonneg p h) as Hg0.
  apply (Z.divide_prime_r _ _ Hp) in Hgp.
  destruct Hgp as [E | [E | [E | E]]]; try lia.
  - left. rewrite E in Hg. change (2 ^ (2 * 1)) with 4 in Hg.
    destruct (Z.eq_dec q 3) as [ | N3]; [assumption | ].
    destruct (Z.eq_dec q 4) as [-> | N4]; [discriminate Hg | ].
    rewrite Z.mod_small in Hg; lia.
  - right. rewrite E in Hgh. destruct Hgh as [c Hc].
    assert (0 < c) by nia.
    assert (q <= 2 * p + 1) by (apply Z.divide_pos_le; [lia | exact Hdiv]).
    nia.
Qed.

Lemma safe_prime (p : Z) :
  Z.prime p -> 4 < p -> 2 ^ (2 * p) mod (2 * p + 1) = 1 ->
  Z.prime (2 * p + 1).
Proof.
  intros Hp Hp4 Hpow. split; [lia | ].
  intros d Hd [e He].
  assert (He1 : 1 < e < 2 * p + 1) by nia.
  destruct (prime_factor (S (Z.to_nat d)) d ltac:(lia) ltac:(lia))
    as (q & Hq & Hqd).
  destruct (prime_factor (S (Z.to_nat e)) e ltac:(lia) ltac:(lia))
    as (r & Hr & Hre).
  assert (Hq3 : q = 3).
  { destruct (factor_of_safe p q Hp ltac:(lia) Hpow Hq) as [E | E].
    - rewrite He. now apply Z.divide_mul_r.
    - exact E.
    - apply Z.divide_pos_le in Hqd; lia. }
  assert (Hr3 : r = 3).
  { destruct (factor_of_safe p r Hp ltac:(lia) Hpow Hr) as [E | E].
    - rewrite He. now apply Z.divide_mul_l.
    - exact E.
    - apply Z.divide_pos_le in Hre; lia. }
  subst q r.
  assert (H9 : (9 | 2 * p + 1)).
  { destruct Hqd as [c Hc], Hre as [c' Hc'].
    exists (c * c'). rewrite He, Hc, Hc'. ring. }
  pose proof (mod_one_divisor 9 (2 * p + 1) _ ltac:(lia) H9 Hpow) as G.
  pose proof (pow_one_gcd 9 2 ltac:(lia) 7 (2 * p) (2 * 3) ltac:(cbn; lia)
                ltac:(lia) ltac:(lia) G eq_refl) as Hg.
  rewrite Z.gcd_mul_mono_l_nonneg in Hg by lia.
  assert (Hgp : (Z.gcd p 3 | p)) by apply Z.gcd_divide_l.
  assert (Hg3 : (Z.gcd p 3 | 3)) by apply Z.gcd_divide_r.
  pose proof (Z.gcd_nonneg p 3) as Hg0.
  apply (Z.divide_prime_r _ _ Z.prime_3) in Hg3.
  destruct Hg3 as [E | [E | [E | E]]]; try lia.
  - rewrite E in Hg. discriminate Hg.
  - rewrite E in Hgp.
    apply (Z.divide_prime_prime 3 p Z.prime_3 Hp) in Hgp. lia.
Qed.

Lemma square_mod_one (m a : Z) :
  1 < m -> (m | a + 1) \/ (m | a - 1) -> (a * a) mod m = 1.
Proof.
  intros Hm [[c Hc] | [c Hc]].
  - assert (E : a = c * m - 1) by lia. subst a.
    replace ((c * m - 1) * (c * m - 1)) with (1 + (c * c * m - 2 * c) * m)
      by ring.
    rewrite Z.mod_add by lia. apply Z.mod_small. lia.
  - assert (E : a = c * m + 1) by lia. subst a.
    replace ((c * m + 1) * (c * m + 1)) with (1 + (c * c * m + 2 * c) * m)
      by ring.
    rewrite Z.mod_add by lia. apply Z.mod_small. lia.
Qed.

(** A prime [p] and a number [2p + 1] that passes the Fermat test: then
    [2p + 1] is prime. *)
Lemma fermat_next_prime (p : Z) :
  Z.prime p -> fermatPrimalityTest (2 * p + 1) = true -> Z.prime (2 * p + 1).
Proof.
  intros Hp Hf. pose proof (Z.prime_ge_2 p Hp) as H2.
  destruct (Z.le_gt_cases p 4) as [Hle | H4].
  - assert (Hc : p = 2 \/ p = 3 \/ p = 4) by lia.
    destruct Hc as [-> | [-> | ->]].
    + apply trialDivision_prime. vm_compute. reflexivity.
    + apply trialDivision_prime. vm_compute. reflexivity.
    + exfalso. destruct Hp as [_ Hp]. apply (Hp 2); [lia | ].
      exists 2. reflexivity.
  - rewrite fermat_reference in Hf by lia.
    unfold Reference.fermatTest in Hf.
    destruct (Z.eqb_spec (2 * p + 1) 2); [lia | ]. cbn [orb] in Hf.
    apply Z.eqb_eq in Hf.
    replace (2 * p + 1 - 1) with (2 * p) in Hf by lia.
    apply safe_prime; [exact Hp | exact H4 | exact Hf].
Qed.

(** The theorem of Euler, Lagrange and Lifchitz in the direction the code
    relies on, as far as the code computes the power: from a prime [p] of
    at most 32 bits, a true answer of the test of the first kind makes
    [2p + 1] prime. *)
Lemma eulerLagrange_first_sound (p : Z) :
  Z.prime p -> p <= 4294967295 ->
  eulerLagrangePrimalityTest p CUNNINGHAM_CHAIN_1 = true ->
  Z.prime (2 * p + 1).
Proof.
  intros Hp Hmax Ht. pose proof (Z.prime_ge_2 p Hp) as H2.
  destruct (Z.le_gt_cases p 4) as [Hle | H4].
  - assert (Hc : p = 2 \/ p = 3 \/ p = 4) by lia.
    destruct Hc as [-> | [-> | ->]].
    + apply trialDivision_prime. vm_compute. reflexivity.
    + apply trialDivision_prime. vm_compute. reflexivity.
    + vm_compute in Ht. discriminate Ht.
  - change CUNNINGHAM_CHAIN_1 with (Reference.tag Reference.First) in Ht.
    rewrite eulerLagrange_reference, criterion_above_4 in Ht by lia.
    apply safe_prime; [exact Hp | lia | ].
    replace (2 ^ (2 * p)) with (2 ^ p * 2 ^ p)
      by (rewrite <- Z.pow_add_r by lia; f_equal; lia).
    apply square_mod_one; [lia | ].
    destruct (p mod 4 =? 1).
    + left. apply Z.eqb_eq in Ht. apply Z.mod_divide in Ht; [exact Ht | lia].
    + destruct (p mod 4 =? 3); [ | discriminate Ht].
      right. apply Z.eqb_eq in Ht. apply Z.mod_divide in Ht; [exact Ht | lia].
Qed.

(** X16. The test of the first kind is a proof as long as the power is
    computed, and the test of the second kind is not: when [p] is a prime
    of at most [0xffffffff] and [eulerLagrangePrimalityTest] answers true
    for a chain of the first kind, the next member [2p + 1] is prime. Above
    [0xffffffff] it proves nothing: at the prime 4294967311 it answers true
    and the next member 8589934623 is a multiple of 3. For a chain of the
    second kind there is a prime above 4 (281) that the test accepts
    although the next member (561 = 3 * 187) is composite. *)
Theorem eulerLagrange_proves_first_kind_only :
  (forall (isProbablePrime : Z -> bool) (p next : Z),
      Z.prime p ->
      p <= 4294967295 ->
      eulerLagrangePrimalityTest p CUNNINGHAM_CHAIN_1 = true ->
      nextInChain p CUNNINGHAM_CHAIN_1 = Ok next ->
      next = 2 * p + 1 /\ Z.prime next
      /\ (failsPrimality isProbablePrime next = true ->
          isProbablePrime next = false))
  /\ (exists p next : Z,
        Z.prime p /\ 4294967295 < p
        /\ eulerLagrangePrimalityTest p CUNNINGHAM_CHAIN_1 = true
        /\ nextInChain p CUNNINGHAM_CHAIN_1 = Ok next
        /\ ~ Z.prime next)
  /\ exists p next : Z,
       Z.prime p /\ 4 < p <= 4294967295
       /\ eulerLagrangePrimalityTest p CUNNINGHAM_CHAIN_2 = true
       /\ nextInChain p CUNNINGHAM_CHAIN_2 = Ok next
       /\ ~ Z.prime next.
Proof.
  split; [ | split].
  - intros ipp p next Hp Hmax Ht Hnext.
    unfold nextInChain in Hnext. revert Hnext. decide_tags.
    unfold add, multiply, BI_TWO, BI_ONE. intros [= <-].
    replace (p * 2 + 1) with (2 * p + 1) by ring.
    pose proof (eulerLagrange_first_sound p Hp Hmax Ht) as Hprime.
    split; [reflexivity | ]. split; [exact Hprime | ].
    unfold failsPrimality. intros Hfail.
    rewrite (fermatPrimalityTest_complete_aux _ Hprime) in Hfail.
    cbn [negb orb] in Hfail. now apply negb_true_iff in Hfail.
  - exists 4294967311, 8589934623.
    split; [exact prime_4294967311 | ].
    split; [lia | ].
    split; [vm_compute; reflexivity | ].
    split; [vm_compute; reflexivity | ].
    intros [_ Hn]. apply (Hn 3); [lia | ]. exists 2863311541. reflexivity.
  - exists 281, 561.
    split; [apply trialDivision_prime; vm_compute; reflexivity | ].
    split; [lia | ].
    split; [vm_compute; reflexivity | ].
    split; [vm_compute; reflexivity | ].
    intros [_ H561]. apply (H561 3); [lia | ]. exists 187. reflexivity.
Qed.

(** X17. A chain of the first kind that starts at a prime is made of
    primes, whatever [isProbablePrime] answers: when [n] is prime and
    [findCunninghamChain] returns [L] for it, the [L] numbers n, 2n + 1,
    4n + 3, ... it counted are all prime. *)
Theorem first_kind_chain_is_prime :
  forall (isProbablePrime : Z -> bool) (n target L : Z),
    Z.prime n ->
    findCunninghamChain isProbablePrime n CUNNINGHAM_CHAIN_1 target = Ok L ->
    forall i : nat,
      (i < Z.to_nat L)%nat ->
      memberAt Reference.First n i = 2 ^ Z.of_nat i * (n + 1) - 1
      /\ Z.prime (memberAt Reference.First n i).
Proof.
  intros ipp n target L Hn E.
  change CUNNINGHAM_CHAIN_1 with (Reference.tag Reference.First) in E.
  destruct (findCunninghamChain_exact ipp n Reference.First target L E)
    as (_ & _ & Hpass & _ & _).
  intros i Hi. split; [apply (memberAt_closed Reference.First) | ].
  induction i as [ | i IH]; [exact Hn | ].
  specialize (Hpass (S i) Hi). unfold failsPrimality in Hpass.
  apply orb_false_iff in Hpass. destruct Hpass as [F _].
  apply negb_false_iff in F.
  change (memberAt Reference.First n (S i))
    with (2 * memberAt Reference.First n i + 1) in *.
  apply fermat_next_prime; [ | exact F].
  apply IH. lia.
Qed.

End Engine.

(** * The theorems at concrete inputs *)

#[local] Existing Instance sampleJsbn.

(** C6 as stated fails at the smallest target: from origin 18 with target 1
    both searches return at length 1 and the selector reports a bi-twin
    chain of length 2, which is not above 2. *)
Lemma findPrimeChain_18_target_1 :
  findPrimeChain trialDivision 18 1 = Ok (mkPrimeChain 2 BITWIN_CHAIN)
  /\ ~ (chainLength (mkPrimeChain 2 BITWIN_CHAIN) > 2).
Proof.
  split; [vm_compute; reflexivity | cbn; lia].
Qed.

Lemma hasValidProof_soundness_witness :
  PrimeBlock.hasValidProof sampleHash acceptAll sampleBlock = Ok true
  /\ PrimeBlock.hashHeader sampleHash sampleBlock >= 2 ^ 255
  /\ PrimeBlock.primeMultiplier sampleBlock >= 2.
Proof.
  assert (V : PrimeBlock.hasValidProof sampleHash acceptAll sampleBlock
              = Ok true) by (vm_compute; reflexivity).
  split; [exact V | ].
  destruct (proj1 (hasValidProof_soundness sampleHash acceptAll sampleBlock) V)
    as (D & _ & M & _).
  split; [exact D | exact M].
Defined.

Lemma findPrimeChain_selection_witness :
  findPrimeChain trialDivision 18 3 = Ok (mkPrimeChain 3 CUNNINGHAM_CHAIN_2).
Proof.
  destruct (findPrimeChain_selection trialDivision 18 3)
    as (L1 & L2 & Lbw & E1 & E2 & _ & B & _ & _ & _ & S2 & _).
  vm_compute in E1. vm_compute in E2.
  injection E1 as <-. injection E2 as <-.
  assert (Lbw = 2) by (apply B; discriminate). subst Lbw.
  apply S2.
  - intros [C _]. apply C. reflexivity.
  - split; discriminate.
Defined.

Lemma findPrimeChain_fixtures_witness :
  complete trialDivision
  /\ findPrimeChain trialDivision 18 3 = Ok (mkPrimeChain 3 CUNNINGHAM_CHAIN_2)
  /\ findPrimeChain trialDivision 17 3 = Ok (mkPrimeChain 0 CUNNINGHAM_CHAIN_1).
Proof.
  split; [exact trialDivision_complete | ].
  destruct (findPrimeChain_fixtures trialDivision trialDivision_complete)
    as (F18 & _ & F17).
  split; [apply F18; discriminate | apply F17].
Defined.

Lemma hard_failures_only_on_bad_input_witness :
  failsPrimality trialDivision 9 = true
  /\ findCunninghamChain trialDivision 9 CUNNINGHAM_CHAIN_1 5 = Ok 0
  /\ (exists msg, buildChain 6 0 BITWIN_CHAIN = Throw msg).
Proof.
  destruct (hard_failures_only_on_bad_input sampleHash trialDivision)
    as (_ & _ & _ & Z0 & _ & _ & _ & B).
  split; [reflexivity | ].
  split; [apply Z0; reflexivity | ].
  apply B. left. reflexivity.
Defined.

Lemma multiplier_at_least_2_witness :
  PrimeMiner.reachable sampleHash acceptAll (PrimeBlock.constructor sampleBase)
  /\ PrimeBlock.primeMultiplier (PrimeBlock.constructor sampleBase) >= 2.
Proof.
  assert (R : PrimeMiner.reachable sampleHash acceptAll
                (PrimeBlock.constructor sampleBase))
    by apply PrimeMiner.reach_new.
  split; [exact R | ].
  destruct (multiplier_at_least_2 sampleHash acceptAll) as (_ & _ & I & _).
  exact (I _ R).
Defined.

Lemma findCunninghamChain_capped_witness :
  findCunninghamChain trialDivision 2 CUNNINGHAM_CHAIN_1 100 = Ok 5
  /\ findCunninghamChain trialDivision 2 CUNNINGHAM_CHAIN_1 3
     = Ok (Z.min 5 3).
Proof.
  destruct (findCunninghamChain_capped trialDivision 2 CUNNINGHAM_CHAIN_1 3
              (or_introl eq_refl)) as [Hcap _].
  destruct (Hcap ltac:(discriminate)) as (L & E & _ & _ & _ & Hhigher).
  destruct (Hhigher 100 ltac:(discriminate)) as (H & EH & ->).
  assert (E100 : findCunninghamChain trialDivision 2 CUNNINGHAM_CHAIN_1 100
                 = Ok 5) by (vm_compute; reflexivity).
  split; [exact E100 | ].
  rewrite E100 in EH. injection EH as <-. exact E.
Defined.

(** C10 as stated fails for a caller of the code itself: for a block of
    target 1 the bi-twin branch of the verifier searches the second kind
    with the target [floor(1 / 2) = 0], and from 19 the search returns 1,
    above the target it was given. *)
Lemma findCunninghamChain_above_target :
  findCunninghamChain trialDivision 19 CUNNINGHAM_CHAIN_2
    (PrimeBlock.Math_floor_half 1) = Ok 1
  /\ ~ (1 <= PrimeBlock.Math_floor_half 1).
Proof.
  split; [vm_compute; reflexivity | ].
  vm_compute. intros H. apply H. reflexivity.
Qed.

Lemma findCunninghamChain_lower_target_witness :
  findCunninghamChain trialDivision 2 CUNNINGHAM_CHAIN_1 3
  = Ok (Z.min 5 3).
Proof.
  destruct (findCunninghamChain_lower_target trialDivision 2
              CUNNINGHAM_CHAIN_1 100 3 (or_introl eq_refl))
    as (L & E & E'); [split; discriminate | ].
  vm_compute in E. injection E as <-. exact E'.
Defined.

Lemma recorded_proof_verifies_witness :
  PrimeBlock.hasValidProof sampleHash acceptAll
    (PrimeMiner.setProof sampleSearch (210 * 24)
       (mkPrimeChain 1 CUNNINGHAM_CHAIN_1))
  = Ok true.
Proof.
  apply (recorded_proof_verifies sampleHash acceptAll sampleSearch).
  - discriminate.
  - discriminate.
  - exact sampleSearch_found.
Defined.

Lemma valid_under_lower_target_witness :
  PrimeBlock.hasValidProof sampleHash acceptAll sampleBlock = Ok true
  /\ PrimeBlock.hasValidProof sampleHash acceptAll
       (withChainLength (withTarget sampleBlock 0) 7) = Ok true.
Proof.
  split; [exact sampleBlock_valid | ].
  apply valid_under_lower_target;
    [exact sampleBlock_valid | discriminate | discriminate].
Defined.

Lemma fermatPrimalityTest_accepts_primes_witness :
  Z.prime 97 /\ fermatPrimalityTest 97 = true.
Proof.
  assert (P : Z.prime 97) by (apply trialDivision_prime; vm_compute; reflexivity).
  split; [exact P | ].
  apply fermatPrimalityTest_accepts_primes. exact P.
Defined.

Lemma counted_members_confirmed_witness :
  findCunninghamChain trialDivision 2 CUNNINGHAM_CHAIN_1 4 = Ok 4
  /\ fermatPrimalityTest 23 = true /\ trialDivision 23 = true.
Proof.
  assert (E : findCunninghamChain trialDivision 2
                (Reference.tag Reference.First) 4 = Ok 4)
    by (vm_compute; reflexivity).
  split; [exact E | ].
  destruct (counted_members_confirmed trialDivision 2 Reference.First 4 4 E)
    as [Hpass _].
  apply (Hpass 3%nat). vm_compute. constructor.
Defined.

Lemma short_chain_has_stopped_witness :
  findCunninghamChain trialDivision 2 CUNNINGHAM_CHAIN_1 100 = Ok 5
  /\ (eulerLagrangePrimalityTest 47 CUNNINGHAM_CHAIN_1 = false
      \/ failsPrimality trialDivision 95 = true).
Proof.
  assert (E : findCunninghamChain trialDivision 2
                (Reference.tag Reference.First) 100 = Ok 5)
    by (vm_compute; reflexivity).
  split; [exact E | ].
  destruct (short_chain_has_stopped trialDivision 2 Reference.First 100 5 E)
    as [_ Hstop].
  apply Hstop. split; [discriminate | reflexivity].
Defined.

Lemma prime_starts_a_chain_witness :
  complete trialDivision /\ Z.prime 19
  /\ exists L, findCunninghamChain trialDivision 19 CUNNINGHAM_CHAIN_2 0 = Ok L
               /\ 1 <= L.
Proof.
  split; [exact trialDivision_complete | ].
  split; [exact prime_19 | ].
  apply prime_starts_a_chain;
    [exact trialDivision_complete | exact prime_19 | right; reflexivity].
Defined.

Lemma other_tag_throws_only_below_4_witness :
  exists msg, findCunninghamChain trialDivision 3 "" 2 = Throw msg.
Proof.
  destruct (other_tag_throws_only_below_4 trialDivision 3 "" 2)
    as [[_ T] _]; [discriminate | discriminate | ].
  apply T. repeat split.
Defined.

Lemma findProof_announces_witness :
  PrimeMiner.findProof sampleHash acceptAll 0 1 sampleSearch
  = Some (Ok (PrimeMiner.Found
                (PrimeMiner.setProof sampleSearch (210 * 24)
                   (mkPrimeChain 1 CUNNINGHAM_CHAIN_1))))
  /\ PrimeBlock.hasValidProof sampleHash acceptAll
       (PrimeMiner.setProof sampleSearch (210 * 24)
          (mkPrimeChain 1 CUNNINGHAM_CHAIN_1)) = Ok true.
Proof.
  assert (E : PrimeMiner.findProof sampleHash acceptAll 0 1 sampleSearch
              = Some (Ok (PrimeMiner.Found
                            (PrimeMiner.setProof sampleSearch (210 * 24)
                               (mkPrimeChain 1 CUNNINGHAM_CHAIN_1))))).
  { unfold PrimeMiner.findProof.
    change (PrimeMiner.nonceLoop sampleHash 0 sampleSearch)
      with (Some sampleSearch).
    cbn [PrimeMiner.searchRounds].
    rewrite (@sampleSearch_found sampleJsbn). reflexivity. }
  split; [exact E | ].
  destruct (findProof_announces sampleHash acceptAll 0 1 sampleSearch _ E)
    as (k & i & found & _ & _ & _ & _ & _ & _ & _ & V);
    [discriminate | exact V].
Defined.

(** A call on a fresh block with a hash that needs two turns of the nonce
    loop, and one round of the multiplier loop, which finds nothing at the
    multiplier 2. *)
Lemma sampleRetry :
  PrimeMiner.findProof nonceHash acceptAll 3 1
    (PrimeBlock.constructor sampleBase)
  = Some (Ok (PrimeMiner.Retry
                (PrimeMiner.setMultiplier
                   (PrimeMiner.setNonce (PrimeBlock.constructor sampleBase) 2)
                   3))).
Proof. vm_compute. reflexivity. Qed.

Lemma findProof_resumes_witness :
  exists k : nat,
    PrimeBlock.hashHeader nonceHash
      (PrimeMiner.setNonce (PrimeBlock.constructor sampleBase)
         (0 + Z.of_nat k)) >= 2 ^ 255
    /\ 2 = 0 + Z.of_nat k
    /\ 3 = 2 + Z.of_nat 1
    /\ noProofAt acceptAll
         (PrimeBlock.hashHeader nonceHash
            (PrimeMiner.setNonce (PrimeBlock.constructor sampleBase)
               (0 + Z.of_nat k)))
         (PrimeBlock.constructor sampleBase) 0.
Proof.
  destruct (findProof_resumes nonceHash acceptAll 3 1
              (PrimeBlock.constructor sampleBase) _ sampleRetry)
    as (k & _ & Hh & Hnone & _ & Hn & Hm & _).
  exists k. split; [exact Hh | ]. split; [exact Hn | ].
  split; [exact Hm | ]. apply Hnone. constructor.
Defined.

Lemma buildChain_cunningham_entries_witness :
  buildChain 6 3 CUNNINGHAM_CHAIN_2 = Ok "7,13,25"%string.
Proof.
  destruct (buildChain_cunningham_entries 6 3 Reference.Second)
    as (_ & E & _); [discriminate | ].
  exact E.
Defined.

Lemma buildChain_bitwin_entries_witness :
  buildChainArray 6 4 BITWIN_CHAIN = Ok ["5"; "7"; "11"; "13"]%string.
Proof.
  destruct (buildChain_bitwin_entries 6 4) as [E _]; [discriminate | ].
  exact E.
Defined.

Lemma toJSON_fixes_proof_witness :
  PrimeBlock.hashHeader sampleHash sampleBlock
  = PrimeBlock.hashHeader sampleHash (withTarget sampleBlock 5)
  /\ PrimeBlock.primeMultiplier (withTarget sampleBlock 5) = 2.
Proof.
  destruct (toJSON_fixes_proof sampleHash (fun _ => 0) trialDivision sampleBlock
              (withTarget sampleBlock 5) eq_refl)
    as (_ & Hh & Hp & _).
  split; [exact Hh | ].
  destruct (Hp eq_refl) as (_ & Em & _).
  rewrite <- Em. reflexivity.
Defined.

Lemma eulerLagrange_proves_first_kind_only_witness :
  Z.prime 11.
Proof.
  destruct eulerLagrange_proves_first_kind_only as [Hfirst _].
  destruct (Hfirst trialDivision 5 11) as (_ & Hprime & _).
  - apply trialDivision_prime. vm_compute. reflexivity.
  - discriminate.
  - vm_compute. reflexivity.
  - vm_compute. reflexivity.
  - exact Hprime.
Defined.

Lemma first_kind_chain_is_prime_witness :
  findCunninghamChain trialDivision 2 CUNNINGHAM_CHAIN_1 4 = Ok 4
  /\ Z.prime 23.
Proof.
  assert (E : findCunninghamChain trialDivision 2 CUNNINGHAM_CHAIN_1 4 = Ok 4)
    by (vm_compute; reflexivity).
  split; [exact E | ].
  apply (first_kind_chain_is_prime trialDivision 2 4 4 Z.prime_2 E 3%nat).
  vm_compute. constructor.
Defined.
